(** * pa3.c: TLB, two-level page table, frame reference counts, COW fork

    A shallow embedding of the six functions of [pa3.c] (lookup_tlb,
    insert_tlb, alloc_page, free_page, handle_page_fault, switch_process)
    and the properties of the specification that are stated about them.

    Conventions.
    - C [unsigned int] values are integers of [Z] in the range 0 .. 2^32-1;
      wrap-around is written [u32].  A conversion to [int] is [to_int].
    - Arrays are lists read with [!!] and written with [<[ _ := _ ]>]; every
      access checks the bound and an access outside the array has no defined
      behaviour.  All operations live in the [option] monad, [None] being
      "behaviour undefined in C" (out-of-bounds access, dereference of a null
      or an uninitialised pointer).
    - Storage returned by malloc and an uninitialised local have indeterminate
      contents; what a call reads from them is an explicit argument
      ([indet]).
    - [vm.h], [types.h] and [list_head.h] are not part of the sources: the
      constants they define are parameters of the development. *)

From stdpp Require Import base option list numbers tactics.
From Stdlib Require Import ZArith Lia.

Local Open Scope Z_scope.

(** ** Machine integers *)

Definition u32 (x : Z) : Z := x mod 2 ^ 32.

Definition to_int (x : Z) : Z :=
  let r := x mod 2 ^ 32 in if r <? 2 ^ 31 then r else r - 2 ^ 32.

(** ** Arrays *)

(** [a[i]] for an index computed as a C integer. *)
Definition sel {A} (a : list A) (i : Z) : option A :=
  if 0 <=? i then a !! Z.to_nat i else None.

(** [a[i] = x] for an index computed as a C integer. *)
Definition upd {A} (a : list A) (i : Z) (x : A) : option (list A) :=
  if (0 <=? i) && (i <? Z.of_nat (length a))
  then Some (<[Z.to_nat i := x]> a) else None.

(** [a[i] = x] for a loop index. *)
Definition updn {A} (a : list A) (i : nat) (x : A) : option (list A) :=
  if (i <? length a)%nat then Some (<[i := x]> a) else None.

(** ** Data (struct pte, struct pte_directory, struct pagetable,
       struct tlb_entry, struct process) *)

(** The fields in the order of the initialiser
    [{true, isWrite, pfn, wasWrite}] of alloc_page. *)
Record pte := mk_pte {
  valid : bool;
  writable : bool;
  pfn : Z;
  private : Z
}.

(** A [struct pte_directory *]: null, the directory it owns, or an
    indeterminate value that was never assigned. *)
Inductive pte_directory :=
| NULL
| Dir (ptes : list pte)
| Wild.

Record pagetable := mk_pagetable { outer_ptes : list pte_directory }.

(** The fields in the order of the initialiser [{true, vpn, pfn}] of
    insert_tlb. *)
Record tlb_entry := mk_tlb {
  tlb_valid : bool;
  tlb_vpn : Z;
  tlb_pfn : Z
}.

(** The [list] link of a process is represented by the ready queue of the
    state. *)
Record process := mk_process {
  pid : Z;
  proc_pagetable : pagetable
}.

(** The globals.  A [struct process *] is the index of the process in
    [procs]; [ptbr] is the process whose page table the register points at;
    [index] is the static local of insert_tlb. *)
Record state := mk_state {
  procs : list process;
  processes : list nat;
  current : nat;
  ptbr : nat;
  tlb : list tlb_entry;
  index : Z;
  mapcounts : list Z
}.

(** What a call reads from storage it did not initialise: the local [pfn] of
    alloc_page, the directory pointers of a process just obtained from
    malloc ([true]: the pointer compares equal to null) and the entries of a
    directory just obtained from malloc. *)
Record indet := mk_indet {
  ind_pfn : Z;
  ind_null : nat → bool;
  ind_pte : nat → nat → pte
}.

Section VM.

(** Constants of [vm.h]. *)
Variables NR_PTES_PER_PAGE NR_PAGEFRAMES NR_TLB_ENTRIES : Z.
Variables RW_READ RW_WRITE : Z.

Definition pd_index_of (vpn : Z) : Z := to_int (vpn / NR_PTES_PER_PAGE).
Definition pte_index_of (vpn : Z) : Z := to_int (vpn mod NR_PTES_PER_PAGE).

(** [malloc(sizeof(struct pte) * NR_PTES_PER_PAGE)] for directory slot [i]. *)
Definition fresh_dir (o : indet) (i : nat) : list pte :=
  ind_pte o i <$> seq 0 (Z.to_nat NR_PTES_PER_PAGE).

(** The page table of [malloc(sizeof(struct process))]. *)
Definition fresh_pagetable (o : indet) : list pte_directory :=
  (λ i, if ind_null o i then NULL else Wild) <$> seq 0 (Z.to_nat NR_PTES_PER_PAGE).

(** [*ptbr] *)
Definition ptbr_outer (st : state) : option (list pte_directory) :=
  p ← procs st !! ptbr st; Some (outer_ptes (proc_pagetable p)).

Definition set_outer (ps : list process) (h : nat) (outer : list pte_directory)
  : option (list process) :=
  p ← ps !! h;
  Some (<[h := mk_process (pid p) (mk_pagetable outer)]> ps).

(** ** lookup_tlb *)

Fixpoint lookup_tlb_loop (t : list tlb_entry) (vpn : Z) (n i : nat)
  : option (option Z) :=
  match n with
  | O => Some None
  | S n' =>
      e ← t !! i;
      if negb (tlb_valid e) then lookup_tlb_loop t vpn n' (S i)
      else if tlb_vpn e =? vpn then Some (Some (tlb_pfn e))
      else lookup_tlb_loop t vpn n' (S i)
  end.

Definition lookup_tlb (st : state) (vpn : Z) : option (option Z) :=
  lookup_tlb_loop (tlb st) vpn (Z.to_nat NR_TLB_ENTRIES) 0.

(** ** insert_tlb *)

Definition insert_tlb (st : state) (vpn pfn : Z) : option state :=
  t ← upd (tlb st) (index st) (mk_tlb true vpn pfn);
  Some (mk_state (procs st) (processes st) (current st) (ptbr st)
          t (index st + 1) (mapcounts st)).

(** ** alloc_page *)

Fixpoint find_free (mc : list Z) (n i : nat) : option (option Z) :=
  match n with
  | O => Some None
  | S n' =>
      m ← mc !! i;
      if m =? 0 then Some (Some (Z.of_nat i)) else find_free mc n' (S i)
  end.

Definition alloc_page (o : indet) (st : state) (vpn rw : Z) : option (state * Z) :=
  found ← find_free (mapcounts st) (Z.to_nat NR_PAGEFRAMES) 0;
  let pfn := default (ind_pfn o) found in
  let pd_index := pd_index_of vpn in
  let pte_index := pte_index_of vpn in
  if NR_PTES_PER_PAGE <=? pd_index then Some (st, u32 (-1))
  else
    let isWrite := negb (rw =? RW_READ) in
    let wasWrite := isWrite in
    let p := mk_pte true isWrite pfn (Z.b2z wasWrite) in
    m ← sel (mapcounts st) pfn;
    mc ← upd (mapcounts st) pfn (u32 (m + 1));
    outer ← ptbr_outer st;
    slot ← sel outer pd_index;
    let slot := match slot with
                | NULL => Dir (fresh_dir o (Z.to_nat pd_index))
                | _ => slot
                end in
    match slot with
    | Dir pd =>
        pd ← upd pd pte_index p;
        outer ← upd outer pd_index (Dir pd);
        ps ← set_outer (procs st) (ptbr st) outer;
        Some (mk_state ps (processes st) (current st) (ptbr st)
                (tlb st) (index st) mc, pfn)
    | _ => None
    end.

(** ** free_page *)

Fixpoint invalidate_tlb (t : list tlb_entry) (vpn : Z) (n i : nat)
  : option (list tlb_entry) :=
  match n with
  | O => Some t
  | S n' =>
      e ← t !! i;
      if tlb_valid e && (tlb_vpn e =? vpn)
      then Some (<[i := mk_tlb false (tlb_vpn e) (tlb_pfn e)]> t)
      else invalidate_tlb t vpn n' (S i)
  end.

Definition free_page (st : state) (vpn : Z) : option state :=
  t ← invalidate_tlb (tlb st) vpn (Z.to_nat NR_TLB_ENTRIES) 0;
  let pd_index := pd_index_of vpn in
  let pte_index := pte_index_of vpn in
  outer ← ptbr_outer st;
  slot ← sel outer pd_index;
  match slot with
  | Dir pd =>
      e ← sel pd pte_index;
      m ← sel (mapcounts st) (pfn e);
      mc ← upd (mapcounts st) (pfn e) (u32 (m - 1));
      pd ← upd pd pte_index (mk_pte false false 0 (private e));
      outer ← upd outer pd_index (Dir pd);
      ps ← set_outer (procs st) (ptbr st) outer;
      Some (mk_state ps (processes st) (current st) (ptbr st)
              t (index st) mc)
  | _ => None
  end.

(** ** handle_page_fault *)

Definition handle_page_fault (o : indet) (st : state) (vpn rw : Z)
  : option (state * bool) :=
  let pd_index := pd_index_of vpn in
  let pte_index := pte_index_of vpn in
  outer ← ptbr_outer st;
  slot ← sel outer pd_index;
  match slot with
  | Dir pd =>
      p ← sel pd pte_index;
      let pfn := pfn p in
      let wasWrite := negb (private p =? 0) in
      if rw =? RW_WRITE then
        m ← sel (mapcounts st) pfn;
        if (1 <? m) && wasWrite then
          st ← free_page st vpn;
          r ← alloc_page o st vpn rw;
          Some (r.1, true)
        else if (m =? 1) && wasWrite then
          st ← free_page st vpn;
          r ← alloc_page o st vpn rw;
          Some (r.1, true)
        else Some (st, false)
      else Some (st, false)
  | _ => None
  end.

(** ** switch_process *)

(** [list_for_each_entry(pos, &processes, list) if (pos->pid == pid) break;] *)
Fixpoint find_process (ps : list process) (q : list nat) (p : Z)
  : option (option nat) :=
  match q with
  | [] => Some None
  | h :: q' =>
      pos ← ps !! h;
      if pid pos =? p then Some (Some h) else find_process ps q' p
  end.

(** [list_del_init(&pos->list)] *)
Fixpoint list_del (h : nat) (q : list nat) : list nat :=
  match q with
  | [] => []
  | h' :: q' => if (h' =? h)%nat then q' else h' :: list_del h q'
  end.

(** The loop over [j]: [pd] is the parent's directory, [cd] the slot of the
    child, [mc] the reference counts. *)
Fixpoint copy_ptes (n j : nat) (pd : list pte) (cd : pte_directory) (mc : list Z)
  : option (list pte * pte_directory * list Z) :=
  match n with
  | O => Some (pd, cd, mc)
  | S n' =>
      e ← pd !! j;
      if valid e then
        let copy := mk_pte (valid e) false (pfn e) (private e) in
        let pd := <[j := copy]> pd in
        let p := mk_pte (valid copy) (writable copy) (pfn copy) (private copy) in
        match cd with
        | Dir c =>
            c ← updn c j p;
            m ← sel mc (pfn p);
            mc ← upd mc (pfn p) (u32 (m + 1));
            copy_ptes n' (S j) pd (Dir c) mc
        | _ => None
        end
      else copy_ptes n' (S j) pd cd mc
  end.

(** The loop over [i]: [prev] is the parent's page table, [child] the one
    [ptbr] points at. *)
Fixpoint copy_dirs (o : indet) (n i : nat) (prev child : list pte_directory)
    (mc : list Z) : option (list pte_directory * list pte_directory * list Z) :=
  match n with
  | O => Some (prev, child, mc)
  | S n' =>
      ps ← prev !! i;
      match ps with
      | NULL => copy_dirs o n' (S i) prev child mc
      | _ =>
          cs ← child !! i;
          let cs := match cs with NULL => Dir (fresh_dir o i) | _ => cs end in
          let child := <[i := cs]> child in
          match ps with
          | Dir pd =>
              r ← copy_ptes (Z.to_nat NR_PTES_PER_PAGE) 0 pd cs mc;
              copy_dirs o n' (S i) (<[i := Dir r.1.1]> prev)
                (<[i := r.1.2]> child) r.2
          | _ =>
              match Z.to_nat NR_PTES_PER_PAGE with
              | O => copy_dirs o n' (S i) prev child mc
              | S _ => None
              end
          end
      end
  end.

Fixpoint flush_tlb (t : list tlb_entry) (n i : nat) : option (list tlb_entry) :=
  match n with
  | O => Some t
  | S n' =>
      e ← t !! i;
      flush_tlb
        (if tlb_valid e then <[i := mk_tlb false (tlb_vpn e) (tlb_pfn e)]> t else t)
        n' (S i)
  end.

(** The branch [if (isfind) { ... }]. *)
Definition resume (st : state) (pos : nat) : state :=
  mk_state (procs st)
    (list_del pos (processes st) ++ [current st])
    pos pos (tlb st) (index st) (mapcounts st).

(** The branch [else { ... }]: [fork] is the process obtained from malloc,
    stored after the processes that exist. *)
Definition fork (o : indet) (st : state) (p : Z) : option state :=
  parent ← procs st !! current st;
  let fork := length (procs st) in
  r ← copy_dirs o (Z.to_nat NR_PTES_PER_PAGE) 0
        (outer_ptes (proc_pagetable parent)) (fresh_pagetable o)
        (mapcounts st);
  ps ← set_outer (procs st) (current st) r.1.1;
  Some (mk_state (ps ++ [mk_process p (mk_pagetable r.1.2)])
          (processes st ++ [current st])
          fork fork (tlb st) (index st) r.2).

Definition switch_process (o : indet) (st : state) (p : Z) : option state :=
  found ← find_process (procs st) (processes st) p;
  st ← match found with
       | Some pos => Some (resume st pos)
       | None => fork o st p
       end;
  t ← flush_tlb (tlb st) (Z.to_nat NR_TLB_ENTRIES) 0;
  Some (mk_state (procs st) (processes st) (current st) (ptbr st)
          t (index st) (mapcounts st)).

(** ** Notions used by the statements *)

(** The entry of [vpn] in a page table: the walk of the two levels. *)
Definition walk (outer : list pte_directory) (vpn : Z) : option pte :=
  slot ← sel outer (pd_index_of vpn);
  match slot with
  | Dir pd => sel pd (pte_index_of vpn)
  | _ => None
  end.

(** The entry of [vpn] in the page table [ptbr] points at. *)
Definition pte_of (st : state) (vpn : Z) : option pte :=
  outer ← ptbr_outer st; walk outer vpn.

(** The process [ptbr] points at, with the entry of [vpn] set to [p] in the
    directory [pd] of its slot. *)
Definition with_pte (st : state) (cur : process) (pd : list pte) (vpn : Z) (p : pte)
  : list process :=
  <[ptbr st :=
      mk_process (pid cur)
        (mk_pagetable
           (<[Z.to_nat (pd_index_of vpn) :=
                Dir (<[Z.to_nat (pte_index_of vpn) := p]> pd)]>
              (outer_ptes (proc_pagetable cur))))]> (procs st).

(** The directory that alloc_page writes: the one of the slot, or the
    storage it obtains from malloc when the slot is null. *)
Definition dir_of (o : indet) (vpn : Z) (slot : pte_directory) : option (list pte) :=
  match slot with
  | NULL => Some (fresh_dir o (Z.to_nat (pd_index_of vpn)))
  | Dir pd => Some pd
  | Wild => None
  end.

(** A directory pointer of a well-formed table is null or owns a directory
    of [NR_PTES_PER_PAGE] entries. *)
Definition wf_dir (s : pte_directory) : Prop :=
  match s with
  | NULL => True
  | Dir pd => length pd = Z.to_nat NR_PTES_PER_PAGE
  | Wild => False
  end.

Definition wf_outer (outer : list pte_directory) : Prop :=
  length outer = Z.to_nat NR_PTES_PER_PAGE ∧ Forall wf_dir outer.

(** Every valid entry names a frame that [mapcounts] has. *)
Definition frames_in_range (mc : list Z) (outer : list pte_directory) : Prop :=
  ∀ i pd j e, outer !! i = Some (Dir pd) → pd !! j = Some e →
    valid e = true → 0 ≤ pfn e < Z.of_nat (length mc).

(** The arrays are at least as long as the loops over them. *)
Definition tlb_ok (st : state) : Prop :=
  (Z.to_nat NR_TLB_ENTRIES ≤ length (tlb st))%nat.

Definition mapcounts_ok (st : state) : Prop :=
  (Z.to_nat NR_PAGEFRAMES ≤ length (mapcounts st))%nat.

(** Every link of the ready queue is a process. *)
Definition queue_ok (st : state) : Prop :=
  Forall (λ h, is_Some (procs st !! h)) (processes st).

(** The storage malloc returns for a process reads as null pointers. *)
Definition fresh_null (o : indet) : Prop :=
  ∀ i, (i < Z.to_nat NR_PTES_PER_PAGE)%nat → ind_null o i = true.

(** Boolean form of [frames_in_range], for concrete tables. *)
Definition frames_in_rangeb (mc : list Z) (outer : list pte_directory) : bool :=
  forallb
    (λ s, match s with
          | Dir pd =>
              forallb
                (λ e, implb (valid e)
                        ((0 <=? pfn e) && (pfn e <? Z.of_nat (length mc))))
                pd
          | _ => true
          end)
    outer.

(** Boolean form of [wf_outer], for concrete tables. *)
Definition wf_outerb (outer : list pte_directory) : bool :=
  (length outer =? Z.to_nat NR_PTES_PER_PAGE)%nat &&
  forallb
    (λ s, match s with
          | NULL => true
          | Dir pd => (length pd =? Z.to_nat NR_PTES_PER_PAGE)%nat
          | Wild => false
          end)
    outer.

(** The calls the driver makes, and a sequence of them. *)
Inductive op :=
| Alloc (vpn rw : Z)
| Free (vpn : Z)
| Fault (vpn rw : Z)
| Switch (p : Z).

Definition step (o : indet) (st : state) (c : op) : option state :=
  match c with
  | Alloc vpn rw => r ← alloc_page o st vpn rw; Some r.1
  | Free vpn => free_page st vpn
  | Fault vpn rw => r ← handle_page_fault o st vpn rw; Some r.1
  | Switch p => switch_process o st p
  end.

Fixpoint run (o : indet) (st : state) (cs : list op) : option state :=
  match cs with
  | [] => Some st
  | c :: cs' => st' ← step o st c; run o st' cs'
  end.

End VM.

(** The entry [e] of the TLB with its valid bit cleared. *)
Definition invalidated (e : tlb_entry) : tlb_entry :=
  mk_tlb false (tlb_vpn e) (tlb_pfn e).

(** [e] is a valid entry of the TLB for [vpn]. *)
Definition caches (vpn : Z) (e : tlb_entry) : bool :=
  tlb_valid e && (tlb_vpn e =? vpn).

(** [e] is a valid entry for frame [f]. *)
Definition maps_frame (f : Z) (e : pte) : bool := valid e && (pfn e =? f).

(** The number of valid entries for frame [f]: in a directory, in a page
    table, in all page tables. *)
Fixpoint count_ptes (f : Z) (pd : list pte) : nat :=
  match pd with
  | [] => O
  | e :: pd' => if maps_frame f e then S (count_ptes f pd') else count_ptes f pd'
  end.

Definition count_dir (f : Z) (s : pte_directory) : nat :=
  match s with
  | Dir pd => count_ptes f pd
  | _ => O
  end.

Fixpoint count_outer (f : Z) (outer : list pte_directory) : nat :=
  match outer with
  | [] => O
  | s :: outer' => (count_dir f s + count_outer f outer')%nat
  end.

Fixpoint count_refs (f : Z) (ps : list process) : nat :=
  match ps with
  | [] => O
  | p :: ps' =>
      (count_outer f (outer_ptes (proc_pagetable p)) + count_refs f ps')%nat
  end.

(** [k] increments of a reference count. *)
Definition bump (k : nat) (m : Z) : Z := Nat.iter k (λ x, u32 (x + 1)) m.

(** What fork makes of an entry of the parent: the copy that both tables
    hold of a valid entry, the entry of the parent, the directory of the
    parent, and the directory of the child for slot [i], whose other entries
    are whatever malloc returned. *)
Definition shared (e : pte) : pte := mk_pte (valid e) false (pfn e) (private e).

Definition downgrade (e : pte) : pte := if valid e then shared e else e.

Definition parent_dir (s : pte_directory) : pte_directory :=
  match s with
  | Dir pd => Dir (downgrade <$> pd)
  | _ => s
  end.

Definition child_dir (o : indet) (i : nat) (s : pte_directory) : pte_directory :=
  match s with
  | Dir pd => Dir (imap (λ j e, if valid e then shared e else ind_pte o i j) pd)
  | _ => NULL
  end.

(** The reference counts after one more reference for every valid entry of
    the page table [outer]. *)
Definition add_refs (outer : list pte_directory) (mc : list Z) : list Z :=
  imap (λ f m, bump (count_outer (Z.of_nat f) outer) m) mc.

(** The invariant of the reference counts: the count of every frame is the
    number of valid entries, over all page tables, that map it. *)
Definition refcounts_exact (NR_PAGEFRAMES : Z) (st : state) : Prop :=
  ∀ f, 0 ≤ f < NR_PAGEFRAMES →
    sel (mapcounts st) f = Some (Z.of_nat (count_refs f (procs st))).

(** ** A configuration and a start state for the concrete evaluations *)

(** Modelled from the spec: [vm.h] and the driver that sets up the globals
    are not part of the sources.  The radix, the number of frames and the
    capacity of the TLB are configuration constants; at start-up there is one
    process, the ready queue is empty, no frame is referenced and the TLB
    holds no entry. *)
Definition init_state (nr_ptes nr_frames nr_tlb : Z) : state :=
  mk_state
    [mk_process 0 (mk_pagetable (replicate (Z.to_nat nr_ptes) NULL))]
    [] 0%nat 0%nat
    (replicate (Z.to_nat nr_tlb) (mk_tlb false 0 0))
    0
    (replicate (Z.to_nat nr_frames) 0).

(** Storage that reads as zero, and a local that reads as [g]. *)
Definition zeroed (g : Z) : indet :=
  mk_indet g (λ _, true) (λ _ _, mk_pte false false 0 0).

Module Sample.
Definition NR_PTES_PER_PAGE : Z := 16.
Definition NR_PAGEFRAMES : Z := 128.
Definition NR_TLB_ENTRIES : Z := 256.
Definition RW_READ : Z := 1.
Definition RW_WRITE : Z := 2.

Definition init : state := init_state NR_PTES_PER_PAGE NR_PAGEFRAMES NR_TLB_ENTRIES.

Definition lookup_tlb := lookup_tlb NR_TLB_ENTRIES.
Definition alloc_page := alloc_page NR_PTES_PER_PAGE NR_PAGEFRAMES RW_READ.
Definition free_page := free_page NR_PTES_PER_PAGE NR_TLB_ENTRIES.
Definition handle_page_fault :=
  handle_page_fault NR_PTES_PER_PAGE NR_PAGEFRAMES NR_TLB_ENTRIES RW_READ RW_WRITE.
Definition switch_process := switch_process NR_PTES_PER_PAGE NR_TLB_ENTRIES.
Definition pte_of := pte_of NR_PTES_PER_PAGE.
Definition walk := walk NR_PTES_PER_PAGE.
Definition run :=
  run NR_PTES_PER_PAGE NR_PAGEFRAMES NR_TLB_ENTRIES RW_READ RW_WRITE (zeroed 0).

(** The state a sequence of calls reaches from the start state. *)
Definition after (cs : list op) : state := default init (run init cs).

(** The process at a handle, and the current one. *)
Definition proc_at (st : state) (h : nat) : process :=
  default (mk_process 0 (mk_pagetable [])) (procs st !! h).

Definition current_proc (st : state) : process := proc_at st (current st).

(** Two writable pages in frames 0 and 1. *)
Definition two_pages : list op := [Alloc 0 RW_WRITE; Alloc 1 RW_WRITE].

(** A child is forked and writes page 1 (which gives it frame 2), the
    child and then the parent free page 0: the parent is left as sole
    owner of frame 1 at page 1, and frame 0 is free. *)
Definition sole_owner : list op :=
  two_pages ++ [Switch 1; Fault 1 RW_WRITE; Free 0; Switch 0; Free 0].

(** Page 0 is allocated and freed, then page 1 is allocated. *)
Definition stale_entry : list op :=
  [Alloc 0 RW_WRITE; Free 0; Alloc 1 RW_WRITE].

(** Every frame is allocated, to the pages 0 .. 127. *)
Definition exhaust : list op :=
  (λ v, Alloc (Z.of_nat v) RW_READ) <$> seq 0 (Z.to_nat NR_PAGEFRAMES).
End Sample.

(** Storage from malloc that holds no valid entry. *)
Definition fresh_invalid (o : indet) : Prop :=
  ∀ i j, valid (ind_pte o i j) = false.

(** ** The discipline of the driver

    The calls of a driver that allocates pages that are not mapped, frees
    and faults on pages that are mapped, and the condition on the state
    that such calls maintain. *)

Section Discipline.

Variables NR_PTES_PER_PAGE NR_PAGEFRAMES NR_TLB_ENTRIES : Z.
Variables RW_READ RW_WRITE : Z.

(** Every valid entry names one of the [NR_PAGEFRAMES] frames. *)
Definition frames_valid (outer : list pte_directory) : Prop :=
  ∀ i pd j e, outer !! i = Some (Dir pd) → pd !! j = Some e →
    valid e = true → 0 ≤ pfn e < NR_PAGEFRAMES.

Definition proc_ok (q : process) : Prop :=
  wf_outer NR_PTES_PER_PAGE (outer_ptes (proc_pagetable q)) ∧
  frames_valid (outer_ptes (proc_pagetable q)).

(** [ptbr] points at the table of the current process, the arrays have
    their sizes, the counts are unsigned integers, every page table is well
    formed, and every count is the number of valid entries for its frame. *)
Definition good (st : state) : Prop :=
  ptbr st = current st ∧
  is_Some (procs st !! current st) ∧
  queue_ok st ∧
  tlb_ok NR_TLB_ENTRIES st ∧
  mapcounts_ok NR_PAGEFRAMES st ∧
  Forall (λ m, 0 ≤ m < 2 ^ 32) (mapcounts st) ∧
  Forall proc_ok (procs st) ∧
  refcounts_exact NR_PAGEFRAMES st.

Definition unmapped (st : state) (vpn : Z) : Prop :=
  ∀ e, pte_of NR_PTES_PER_PAGE st vpn = Some e → valid e = false.

Definition has_free (st : state) : Prop :=
  ∃ g, 0 ≤ g < NR_PAGEFRAMES ∧ sel (mapcounts st) g = Some 0.

(** What the driver ensures before a call: an allocation is for a page of
    the address space that is not mapped, with a frame free; a release or a
    fault is for a mapped page, and a write fault that needs a copy finds a
    frame free; a switch does not take the number of processes past what
    the counts can hold. *)
Definition guard (st : state) (c : op) : Prop :=
  match c with
  | Alloc vpn rw =>
      0 ≤ pd_index_of NR_PTES_PER_PAGE vpn < NR_PTES_PER_PAGE ∧
      unmapped st vpn ∧ has_free st
  | Free vpn =>
      ∃ e, pte_of NR_PTES_PER_PAGE st vpn = Some e ∧ valid e = true
  | Fault vpn rw =>
      ∃ e, pte_of NR_PTES_PER_PAGE st vpn = Some e ∧ valid e = true ∧
        (rw = RW_WRITE → private e ≠ 0 →
         has_free st ∨ sel (mapcounts st) (pfn e) = Some 1)
  | Switch p =>
      (Z.of_nat (length (procs st)) + 1) * (NR_PTES_PER_PAGE * NR_PTES_PER_PAGE)
        < 2 ^ 32
  end.

(** A sequence of calls each of which meets its guard in the state it is
    made in. *)
Fixpoint guarded (o : indet) (st : state) (cs : list op) : Prop :=
  match cs with
  | [] => True
  | c :: cs' =>
      guard st c ∧
      ∀ st', step NR_PTES_PER_PAGE NR_PAGEFRAMES NR_TLB_ENTRIES RW_READ RW_WRITE
               o st c = Some st' →
             guarded o st' cs'
  end.

End Discipline.

(** A sequence of calls that meets the guards from the start state of
    [Sample]: the calls of [Sample.sole_owner], then the write of the parent
    to page 1. *)
Definition disciplined_calls : list op :=
  Sample.sole_owner ++ [Fault 1 Sample.RW_WRITE].

(** A TLB holding pages 5 and 7 in slots 0 and 1, and page 0 mapped with its
    translation cached. *)
Definition tlb_sample : state :=
  default Sample.init (st ← insert_tlb Sample.init 5 1; insert_tlb st 7 2).

Definition cached_page : state :=
  default Sample.init (insert_tlb (Sample.after [Alloc 0 Sample.RW_WRITE]) 0 0).

(** * Properties *)

(** ** Integers and arrays *)

Lemma to_int_small (x : Z) : 0 ≤ x < 2 ^ 31 → to_int x = x.
Proof.
  intros Hx. unfold to_int.
  rewrite Z.mod_small by lia.
  destruct (Z.ltb_spec x (2 ^ 31)); [done | lia].
Qed.

Lemma u32_small (x : Z) : 0 ≤ x < 2 ^ 32 → u32 x = x.
Proof. intros Hx. unfold u32. by rewrite Z.mod_small. Qed.

Lemma sel_of_nat {A} (a : list A) (i : nat) : sel a (Z.of_nat i) = a !! i.
Proof.
  unfold sel. destruct (Z.leb_spec 0 (Z.of_nat i)); [| lia].
  by rewrite Nat2Z.id.
Qed.

Lemma sel_Some {A} (a : list A) (i : Z) (x : A) :
  sel a i = Some x ↔ 0 ≤ i ∧ a !! Z.to_nat i = Some x.
Proof.
  unfold sel. destruct (Z.leb_spec 0 i); [tauto |].
  split; [done | lia].
Qed.

Lemma sel_lt {A} (a : list A) (i : Z) (x : A) :
  sel a i = Some x → 0 ≤ i < Z.of_nat (length a).
Proof.
  intros [Hi Hx]%sel_Some. apply lookup_lt_Some in Hx. lia.
Qed.

Lemma sel_is_Some {A} (a : list A) (i : Z) :
  0 ≤ i < Z.of_nat (length a) → is_Some (sel a i).
Proof.
  intros Hi. unfold sel. destruct (Z.leb_spec 0 i); [| lia].
  apply lookup_lt_is_Some. lia.
Qed.

Lemma upd_Some {A} (a : list A) (i : Z) (x : A) :
  0 ≤ i < Z.of_nat (length a) → upd a i x = Some (<[Z.to_nat i := x]> a).
Proof.
  intros Hi. unfold upd.
  destruct (Z.leb_spec 0 i); [| lia].
  destruct (Z.ltb_spec i (Z.of_nat (length a))); [done | lia].
Qed.

Lemma upd_inv {A} (a b : list A) (i : Z) (x : A) :
  upd a i x = Some b →
  0 ≤ i < Z.of_nat (length a) ∧ b = <[Z.to_nat i := x]> a.
Proof.
  unfold upd.
  destruct (Z.leb_spec 0 i); destruct (Z.ltb_spec i (Z.of_nat (length a)));
    simpl; intros; simplify_eq; split; (lia || done).
Qed.

Lemma updn_Some {A} (a : list A) (i : nat) (x : A) :
  (i < length a)%nat → updn a i x = Some (<[i := x]> a).
Proof.
  intros Hi. unfold updn. destruct (Nat.ltb_spec i (length a)); [done | lia].
Qed.

(** ** The loops over the TLB *)

Lemma invalidated_id (e : tlb_entry) : tlb_valid e = false → invalidated e = e.
Proof. destruct e; simpl; intros ->; done. Qed.

Lemma flush_tlb_spec (n : nat) : ∀ (t : list tlb_entry) (i : nat),
  (i + n ≤ length t)%nat →
  ∃ t', flush_tlb t n i = Some t' ∧ length t' = length t ∧
    ∀ k, t' !! k =
      (λ e, if bool_decide (i ≤ k < i + n)%nat then invalidated e else e) <$> t !! k.
Proof.
  induction n as [| n IH]; intros t i Hlen; simpl.
  - exists t. split_and!; [done.. |].
    intros k. rewrite bool_decide_eq_false_2 by lia.
    by destruct (t !! k).
  - destruct (lookup_lt_is_Some_2 t i) as [e He]; [lia |].
    rewrite He. simpl.
    set (t1 := if tlb_valid e then <[i := _]> t else t).
    assert (Hlen1 : length t1 = length t).
    { subst t1. destruct (tlb_valid e); [apply length_insert | done]. }
    assert (Hi : t1 !! i = Some (invalidated e)).
    { subst t1. destruct (tlb_valid e) eqn:Hv.
      - apply list_lookup_insert_eq. lia.
      - by rewrite invalidated_id. }
    assert (Hk : ∀ k, k ≠ i → t1 !! k = t !! k).
    { intros k Hne. subst t1. destruct (tlb_valid e); [| done].
      by apply list_lookup_insert_ne. }
    destruct (IH t1 (S i)) as (t' & Hrun & Hlen' & Hall); [lia |].
    exists t'. split_and!; [done | congruence |].
    intros k. rewrite Hall.
    destruct (decide (k = i)) as [-> | Hne].
    + rewrite Hi, He. simpl.
      rewrite bool_decide_eq_false_2 by lia.
      by rewrite bool_decide_eq_true_2 by lia.
    + rewrite Hk by done. destruct (t !! k); [simpl | done].
      repeat case_bool_decide; (done || lia).
Qed.

Lemma lookup_tlb_loop_miss (vpn : Z) (t : list tlb_entry) (n : nat) : ∀ i : nat,
  (i + n ≤ length t)%nat →
  (∀ k e, (i ≤ k < i + n)%nat → t !! k = Some e → caches vpn e = false) →
  lookup_tlb_loop t vpn n i = Some None.
Proof.
  induction n as [| n IH]; intros i Hlen Hinv; simpl; [done |].
  destruct (lookup_lt_is_Some_2 t i) as [e He]; [lia |].
  rewrite He. simpl.
  specialize (Hinv i e ltac:(lia) He) as Hc. unfold caches in Hc.
  destruct (tlb_valid e); simpl in *.
  - rewrite Hc. apply IH; [lia |]. intros k e' Hk. apply Hinv. lia.
  - apply IH; [lia |]. intros k e' Hk. apply Hinv. lia.
Qed.

Lemma invalidate_tlb_total (vpn : Z) (n : nat) : ∀ (t : list tlb_entry) (i : nat),
  (i + n ≤ length t)%nat →
  ∃ t', invalidate_tlb t vpn n i = Some t' ∧ length t' = length t.
Proof.
  induction n as [| n IH]; intros t i Hlen; simpl; [by exists t |].
  destruct (lookup_lt_is_Some_2 t i) as [e He]; [lia |].
  rewrite He. simpl.
  destruct (tlb_valid e && (tlb_vpn e =? vpn)).
  - eexists. split; [done |]. apply length_insert.
  - apply IH. lia.
Qed.

Lemma invalidate_tlb_miss (vpn : Z) (t : list tlb_entry) (n : nat) : ∀ i : nat,
  (i + n ≤ length t)%nat →
  (∀ k e, (i ≤ k < i + n)%nat → t !! k = Some e → caches vpn e = false) →
  invalidate_tlb t vpn n i = Some t.
Proof.
  induction n as [| n IH]; intros i Hlen Hinv; simpl; [done |].
  destruct (lookup_lt_is_Some_2 t i) as [e He]; [lia |].
  rewrite He. simpl.
  specialize (Hinv i e ltac:(lia) He) as Hc. unfold caches in Hc.
  rewrite Hc. apply IH; [lia |]. intros k e' Hk. apply Hinv. lia.
Qed.

Lemma invalidate_tlb_hit (vpn : Z) (t : list tlb_entry) (k : nat) (e : tlb_entry)
    (n : nat) : ∀ i : nat,
  (i ≤ k < i + n)%nat →
  t !! k = Some e → caches vpn e = true →
  (∀ j e', (i ≤ j < k)%nat → t !! j = Some e' → caches vpn e' = false) →
  invalidate_tlb t vpn n i = Some (<[k := invalidated e]> t).
Proof.
  induction n as [| n IH]; intros i Hk He Hc Hfirst; simpl; [lia |].
  destruct (decide (i = k)) as [-> | Hne].
  - rewrite He. simpl. unfold caches in Hc. by rewrite Hc.
  - destruct (lookup_lt_is_Some_2 t i) as [e' He'].
    { apply lookup_lt_Some in He. lia. }
    rewrite He'. simpl.
    specialize (Hfirst i e' ltac:(lia) He') as Hc'. unfold caches in Hc'.
    rewrite Hc'. apply IH; [lia | done.. |].
    intros j e'' Hj. apply Hfirst. lia.
Qed.

(** ** insert_tlb *)

Lemma insert_tlb_inv (st st' : state) (vpn pfn : Z) :
  insert_tlb st vpn pfn = Some st' →
  0 ≤ index st < Z.of_nat (length (tlb st)) ∧
  st' = mk_state (procs st) (processes st) (current st) (ptbr st)
          (<[Z.to_nat (index st) := mk_tlb true vpn pfn]> (tlb st))
          (index st + 1) (mapcounts st).
Proof.
  unfold insert_tlb. intros H.
  destruct (upd (tlb st) (index st) (mk_tlb true vpn pfn)) as [t |] eqn:Hu;
    simpl in H; [| done].
  apply upd_inv in Hu as [Hi ->]. by simplify_eq.
Qed.

(** The cursor of insert_tlb is never reset and never compared with the
    capacity: once it has reached [NR_TLB_ENTRIES] no call writes a slot
    that lookup_tlb, free_page or switch_process visit. *)
Lemma insert_tlb_past_capacity (NR_TLB_ENTRIES : Z) (st st' : state) (vpn pfn : Z) :
  NR_TLB_ENTRIES ≤ index st →
  insert_tlb st vpn pfn = Some st' →
  NR_TLB_ENTRIES ≤ index st' ∧
  ∀ k, (k < Z.to_nat NR_TLB_ENTRIES)%nat → tlb st' !! k = tlb st !! k.
Proof.
  intros Hfull [Hi ->]%insert_tlb_inv. simpl. split; [lia |].
  intros k Hk. apply list_lookup_insert_ne. lia.
Qed.

(** C2 (as amended): while the cursor of insert_tlb is below
    [NR_TLB_ENTRIES], a call insert_tlb(vpn, pfn) installs the valid entry
    (vpn, pfn) at the slot the cursor designates, replacing its occupant,
    leaves every other slot as it was (an entry already present for [vpn]
    is neither looked for nor changed), stays inside the table, and advances
    the cursor by one. *)
Theorem insert_tlb_at_cursor (NR_TLB_ENTRIES : Z) (st : state) (vpn pfn : Z) :
  0 ≤ index st < NR_TLB_ENTRIES →
  tlb_ok NR_TLB_ENTRIES st →
  ∃ st', insert_tlb st vpn pfn = Some st' ∧
    (Z.to_nat (index st) < Z.to_nat NR_TLB_ENTRIES)%nat ∧
    tlb st' !! Z.to_nat (index st) = Some (mk_tlb true vpn pfn) ∧
    (∀ k, k ≠ Z.to_nat (index st) → tlb st' !! k = tlb st !! k) ∧
    length (tlb st') = length (tlb st) ∧
    index st' = index st + 1 ∧
    procs st' = procs st ∧ processes st' = processes st ∧
    current st' = current st ∧ ptbr st' = ptbr st ∧
    mapcounts st' = mapcounts st.
Proof.
  intros Hi Hlen. unfold tlb_ok in Hlen. unfold insert_tlb.
  rewrite upd_Some by lia. simpl.
  eexists. split; [done |]. simpl. split_and!; try done.
  - lia.
  - apply list_lookup_insert_eq. lia.
  - intros k Hk. by apply list_lookup_insert_ne.
  - apply length_insert.
Qed.

(** ** The ready queue *)

Lemma find_process_none (ps : list process) (p : Z) (q : list nat) :
  Forall (λ h, ∃ r, ps !! h = Some r ∧ pid r ≠ p) q →
  find_process ps q p = Some None.
Proof.
  induction 1 as [| h q (r & Hr & Hp) _ IH]; simpl; [done |].
  rewrite Hr. simpl. destruct (Z.eqb_spec (pid r) p); done.
Qed.

Lemma find_process_split (ps : list process) (p : Z) (q : list nat) :
  Forall (λ h, is_Some (ps !! h)) q →
  (∃ h r, h ∈ q ∧ ps !! h = Some r ∧ pid r = p) →
  ∃ q1 pos q2 r,
    q = q1 ++ pos :: q2 ∧
    Forall (λ h, ∃ r', ps !! h = Some r' ∧ pid r' ≠ p) q1 ∧
    ps !! pos = Some r ∧ pid r = p ∧
    find_process ps q p = Some (Some pos) ∧
    list_del pos q = q1 ++ q2.
Proof.
  induction 1 as [| h q [r Hr] Hq IH]; intros (h0 & r0 & Hin & Hr0 & Hp0).
  { by apply elem_of_nil in Hin. }
  simpl. rewrite Hr. simpl.
  destruct (Z.eqb_spec (pid r) p) as [Heq | Hne].
  - exists [], h, q, r. simpl. rewrite Nat.eqb_refl. by split_and!.
  - assert (Hin' : h0 ∈ q).
    { apply elem_of_cons in Hin as [-> | Hin]; [congruence | done]. }
    destruct IH as (q1 & pos & q2 & r' & -> & Hq1 & Hpos & Hp & Hfind & Hdel).
    { by exists h0, r0. }
    exists (h :: q1), pos, q2, r'. simpl.
    destruct (Nat.eqb_spec h pos) as [-> | _]; [congruence |].
    split_and!; try done.
    + constructor; [by exists r | done].
    + by rewrite Hdel.
Qed.

Lemma find_process_total (ps : list process) (p : Z) (q : list nat) :
  Forall (λ h, is_Some (ps !! h)) q →
  find_process ps q p = Some None ∨
  ∃ pos, pos ∈ q ∧ find_process ps q p = Some (Some pos).
Proof.
  induction 1 as [| h q [r Hr] Hq IH]; simpl; [by left |].
  rewrite Hr. simpl. destruct (Z.eqb_spec (pid r) p).
  - right. exists h. split; [apply elem_of_cons; by left | done].
  - destruct IH as [-> | (pos & Hin & ->)]; [by left |].
    right. exists pos. split; [apply elem_of_cons; by right | done].
Qed.

Section Properties.

Variables NR_PTES_PER_PAGE NR_PAGEFRAMES NR_TLB_ENTRIES : Z.
Variables RW_READ RW_WRITE : Z.

Local Abbreviation pd_index_of := (pd_index_of NR_PTES_PER_PAGE).
Local Abbreviation pte_index_of := (pte_index_of NR_PTES_PER_PAGE).
Local Abbreviation fresh_dir := (fresh_dir NR_PTES_PER_PAGE).
Local Abbreviation fresh_pagetable := (fresh_pagetable NR_PTES_PER_PAGE).
Local Abbreviation lookup_tlb := (lookup_tlb NR_TLB_ENTRIES).
Local Abbreviation alloc_page := (alloc_page NR_PTES_PER_PAGE NR_PAGEFRAMES RW_READ).
Local Abbreviation free_page := (free_page NR_PTES_PER_PAGE NR_TLB_ENTRIES).
Local Abbreviation handle_page_fault :=
  (handle_page_fault NR_PTES_PER_PAGE NR_PAGEFRAMES NR_TLB_ENTRIES RW_READ RW_WRITE).
Local Abbreviation copy_dirs := (copy_dirs NR_PTES_PER_PAGE).
Local Abbreviation fork := (fork NR_PTES_PER_PAGE).
Local Abbreviation switch_process := (switch_process NR_PTES_PER_PAGE NR_TLB_ENTRIES).
Local Abbreviation walk := (walk NR_PTES_PER_PAGE).
Local Abbreviation pte_of := (pte_of NR_PTES_PER_PAGE).
Local Abbreviation wf_dir := (wf_dir NR_PTES_PER_PAGE).
Local Abbreviation wf_outer := (wf_outer NR_PTES_PER_PAGE).
Local Abbreviation wf_outerb := (wf_outerb NR_PTES_PER_PAGE).
Local Abbreviation tlb_ok := (tlb_ok NR_TLB_ENTRIES).
Local Abbreviation mapcounts_ok := (mapcounts_ok NR_PAGEFRAMES).
Local Abbreviation fresh_null := (fresh_null NR_PTES_PER_PAGE).
Local Abbreviation with_pte := (with_pte NR_PTES_PER_PAGE).
Local Abbreviation dir_of := (dir_of NR_PTES_PER_PAGE).
Local Abbreviation frames_valid := (frames_valid NR_PAGEFRAMES).
Local Abbreviation proc_ok := (proc_ok NR_PTES_PER_PAGE NR_PAGEFRAMES).
Local Abbreviation good := (good NR_PTES_PER_PAGE NR_PAGEFRAMES NR_TLB_ENTRIES).
Local Abbreviation unmapped := (unmapped NR_PTES_PER_PAGE).
Local Abbreviation has_free := (has_free NR_PAGEFRAMES).
Local Abbreviation guard := (guard NR_PTES_PER_PAGE NR_PAGEFRAMES RW_WRITE).
Local Abbreviation guarded :=
  (guarded NR_PTES_PER_PAGE NR_PAGEFRAMES NR_TLB_ENTRIES RW_READ RW_WRITE).
Local Abbreviation step :=
  (step NR_PTES_PER_PAGE NR_PAGEFRAMES NR_TLB_ENTRIES RW_READ RW_WRITE).
Local Abbreviation run :=
  (run NR_PTES_PER_PAGE NR_PAGEFRAMES NR_TLB_ENTRIES RW_READ RW_WRITE).

(** The radix is positive and fits an [int]. *)
Hypothesis radix : 0 < NR_PTES_PER_PAGE < 2 ^ 31.

(** ** switch_process *)

(** The TLB that the final loop of switch_process leaves. *)
Lemma flushed_tlb (t t' : list tlb_entry) :
  (Z.to_nat NR_TLB_ENTRIES ≤ length t)%nat →
  flush_tlb t (Z.to_nat NR_TLB_ENTRIES) 0 = Some t' →
  length t' = length t ∧
  (∀ k, t' !! k =
     (λ e, if bool_decide (k < Z.to_nat NR_TLB_ENTRIES)%nat
           then invalidated e else e) <$> t !! k) ∧
  (∀ k e, (k < Z.to_nat NR_TLB_ENTRIES)%nat → t' !! k = Some e →
     tlb_valid e = false) ∧
  ∀ vpn, lookup_tlb_loop t' vpn (Z.to_nat NR_TLB_ENTRIES) 0 = Some None.
Proof.
  intros Hlen Hrun.
  destruct (flush_tlb_spec (Z.to_nat NR_TLB_ENTRIES) t 0) as (t1 & Hrun1 & Hlen1 & Hall);
    [lia |].
  rewrite Hrun in Hrun1. injection Hrun1 as <-.
  assert (Hinv : ∀ k e, (k < Z.to_nat NR_TLB_ENTRIES)%nat → t' !! k = Some e →
            tlb_valid e = false).
  { intros k e Hk. rewrite Hall. destruct (t !! k) as [e0 |]; [simpl | done].
    rewrite bool_decide_eq_true_2 by lia. by intros [= <-]. }
  split_and!; [done | | done |].
  - intros k. rewrite Hall. destruct (t !! k); [simpl | done].
    f_equal. repeat case_bool_decide; (done || lia).
  - intros vpn. apply lookup_tlb_loop_miss; [lia |].
    intros k e Hk He. unfold caches. by rewrite (Hinv k e) by (lia || done).
Qed.

Lemma fork_tlb (o : indet) (st st1 : state) (p : Z) :
  fork o st p = Some st1 → tlb st1 = tlb st ∧ index st1 = index st.
Proof.
  unfold fork. intros H.
  repeat (match type of H with
          | mbind _ ?m = Some _ => destruct m eqn:?; simpl in H; [| done]
          end).
  by simplify_eq.
Qed.

(** C10: when [pid] names a process of the ready queue, switch_process
    leaves every process (so every directory and every entry of every page
    table) and the whole of [mapcounts] as they were; it makes the first
    such process of the queue current, points [ptbr] at it, takes it out of
    the queue, appends the process that was current, and clears the valid
    bit of the TLB entries, whose [vpn] and [pfn] fields are kept. *)
Theorem switch_process_resume (o : indet) (st : state) (p : Z) (h : nat) (r : process) :
  queue_ok st → tlb_ok st →
  h ∈ processes st → procs st !! h = Some r → pid r = p →
  ∃ st' q1 pos q2 r',
    switch_process o st p = Some st' ∧
    processes st = q1 ++ pos :: q2 ∧
    Forall (λ h', ∃ r'', procs st !! h' = Some r'' ∧ pid r'' ≠ p) q1 ∧
    procs st !! pos = Some r' ∧ pid r' = p ∧
    current st' = pos ∧ ptbr st' = pos ∧
    processes st' = q1 ++ q2 ++ [current st] ∧
    procs st' = procs st ∧
    mapcounts st' = mapcounts st ∧
    index st' = index st ∧
    length (tlb st') = length (tlb st) ∧
    ∀ k, tlb st' !! k =
      (λ e, if bool_decide (k < Z.to_nat NR_TLB_ENTRIES)%nat
            then invalidated e else e) <$> tlb st !! k.
Proof.
  intros Hq Ht Hin Hr Hp.
  destruct (find_process_split (procs st) p (processes st) Hq)
    as (q1 & pos & q2 & r' & Hsplit & Hq1 & Hpos & Hpid & Hfind & Hdel).
  { by exists h, r. }
  destruct (flush_tlb_spec (Z.to_nat NR_TLB_ENTRIES) (tlb st) 0)
    as (t' & Hrun & _); [unfold tlb_ok in Ht; lia |].
  destruct (flushed_tlb (tlb st) t' Ht Hrun) as (Hlen & Hall & _).
  unfold switch_process. rewrite Hfind. simpl. rewrite Hrun. simpl.
  eexists _, q1, pos, q2, r'. split; [done |]. simpl.
  split_and!; try done.
  by rewrite Hdel, <- app_assoc.
Qed.

(** ** The two levels of the page table *)

Lemma pte_index_range (vpn : Z) : 0 ≤ pte_index_of vpn < NR_PTES_PER_PAGE.
Proof.
  unfold pte_index_of.
  pose proof (Z.mod_pos_bound vpn NR_PTES_PER_PAGE ltac:(lia)).
  rewrite to_int_small; lia.
Qed.

Lemma set_entry (st : state) (cur : process) (slot : pte_directory)
    (pd : list pte) (vpn : Z) (p : pte) :
  procs st !! ptbr st = Some cur →
  sel (outer_ptes (proc_pagetable cur)) (pd_index_of vpn) = Some slot →
  0 ≤ pte_index_of vpn < Z.of_nat (length pd) →
  (pd' ← upd pd (pte_index_of vpn) p;
   outer ← upd (outer_ptes (proc_pagetable cur)) (pd_index_of vpn) (Dir pd');
   set_outer (procs st) (ptbr st) outer)
  = Some (with_pte st cur pd vpn p).
Proof.
  intros Hcur Hslot Hlen.
  rewrite upd_Some by lia. simpl.
  apply sel_lt in Hslot.
  rewrite upd_Some by done. simpl.
  unfold set_outer. rewrite Hcur. done.
Qed.

Lemma pte_of_with_pte (st : state) (cur : process) (slot : pte_directory)
    (pd : list pte) (vpn : Z) (p : pte) (st' : state) :
  procs st !! ptbr st = Some cur →
  sel (outer_ptes (proc_pagetable cur)) (pd_index_of vpn) = Some slot →
  0 ≤ pte_index_of vpn < Z.of_nat (length pd) →
  procs st' = with_pte st cur pd vpn p → ptbr st' = ptbr st →
  pte_of st' vpn = Some p.
Proof.
  intros Hcur Hslot Hlen Hps Hptbr.
  pose proof (sel_lt _ _ _ Hslot).
  unfold pte_of, ptbr_outer, with_pte in *. rewrite Hps, Hptbr.
  rewrite list_lookup_insert_eq by (by eapply lookup_lt_Some).
  simpl. unfold walk, sel.
  destruct (Z.leb_spec 0 (pd_index_of vpn)); [| lia].
  rewrite list_lookup_insert_eq by lia. simpl.
  destruct (Z.leb_spec 0 (pte_index_of vpn)); [| lia].
  apply list_lookup_insert_eq. lia.
Qed.

(** ** alloc_page *)

Lemma find_free_total (mc : list Z) (n : nat) : ∀ i : nat,
  (i + n ≤ length mc)%nat →
  (∃ k, (i ≤ k < i + n)%nat ∧ mc !! k = Some 0 ∧
     (∀ j m, (i ≤ j < k)%nat → mc !! j = Some m → m ≠ 0) ∧
     find_free mc n i = Some (Some (Z.of_nat k))) ∨
  ((∀ j m, (i ≤ j < i + n)%nat → mc !! j = Some m → m ≠ 0) ∧
   find_free mc n i = Some None).
Proof.
  induction n as [| n IH]; intros i Hlen; simpl.
  { right. split; [intros; lia | done]. }
  destruct (lookup_lt_is_Some_2 mc i) as [m Hm]; [lia |].
  rewrite Hm. simpl. destruct (Z.eqb_spec m 0) as [-> | Hne].
  - left. exists i. split; [lia |]. split; [done |]. split; [intros; lia | done].
  - destruct (IH (S i)) as [(k & Hk & Hz & Hfirst & Hrun) | [Hnone Hrun]]; [lia | |].
    + left. exists k. split; [lia |]. split; [done |]. split; [| done].
      intros j m' Hj Hm'. destruct (decide (j = i)) as [-> | ?]; [congruence |].
      eapply Hfirst; [| done]. lia.
    + right. split; [| done].
      intros j m' Hj Hm'. destruct (decide (j = i)) as [-> | ?]; [congruence |].
      eapply Hnone; [| done]. lia.
Qed.

Lemma alloc_page_eq (o : indet) (st : state) (vpn rw : Z) (found : option Z) (m : Z)
    (cur : process) (slot : pte_directory) (pd : list pte) :
  find_free (mapcounts st) (Z.to_nat NR_PAGEFRAMES) 0 = Some found →
  pd_index_of vpn < NR_PTES_PER_PAGE →
  sel (mapcounts st) (default (ind_pfn o) found) = Some m →
  procs st !! ptbr st = Some cur →
  sel (outer_ptes (proc_pagetable cur)) (pd_index_of vpn) = Some slot →
  dir_of o vpn slot = Some pd →
  0 ≤ pte_index_of vpn < Z.of_nat (length pd) →
  alloc_page o st vpn rw =
    Some (mk_state
            (with_pte st cur pd vpn
               (mk_pte true (negb (rw =? RW_READ)) (default (ind_pfn o) found)
                  (Z.b2z (negb (rw =? RW_READ)))))
            (processes st) (current st) (ptbr st) (tlb st) (index st)
            (<[Z.to_nat (default (ind_pfn o) found) := u32 (m + 1)]> (mapcounts st)),
          default (ind_pfn o) found).
Proof.
  intros Hfind Hpd Hm Hcur Hslot Hdir Hlen.
  unfold alloc_page. rewrite Hfind. simpl.
  destruct (Z.leb_spec NR_PTES_PER_PAGE (pd_index_of vpn)); [lia |].
  rewrite Hm. simpl.
  rewrite upd_Some by (by eapply sel_lt). simpl.
  unfold ptbr_outer. rewrite Hcur. simpl. rewrite Hslot. simpl.
  assert (Hd : match slot with
               | NULL => Dir (fresh_dir o (Z.to_nat (pd_index_of vpn)))
               | _ => slot
               end = Dir pd).
  { destruct slot; simpl in Hdir; by simplify_eq. }
  rewrite Hd.
  pose proof (set_entry st cur slot pd vpn
    (mk_pte true (negb (rw =? RW_READ)) (default (ind_pfn o) found)
       (Z.b2z (negb (rw =? RW_READ)))) Hcur Hslot Hlen) as Hset.
  simpl in Hset.
  destruct (upd pd (pte_index_of vpn) _) as [pd' |]; simpl in *; [| done].
  destruct (upd (outer_ptes (proc_pagetable cur)) (pd_index_of vpn) (Dir pd'))
    as [outer' |]; simpl in *; [| done].
  by rewrite Hset.
Qed.

Lemma wf_outer_slot (outer : list pte_directory) (i : Z) :
  wf_outer outer → 0 ≤ i < NR_PTES_PER_PAGE →
  ∃ slot, sel outer i = Some slot ∧ wf_dir slot.
Proof.
  intros [Hlen Hall] Hi.
  destruct (sel_is_Some outer i) as [slot Hslot]; [lia |].
  exists slot. split; [done |].
  apply sel_Some in Hslot as [_ Hslot].
  by eapply Forall_lookup_1 in Hall.
Qed.

Lemma length_fresh_dir (o : indet) (i : nat) :
  length (fresh_dir o i) = Z.to_nat NR_PTES_PER_PAGE.
Proof. unfold fresh_dir. by rewrite length_fmap, length_seq. Qed.

Lemma dir_of_wf (o : indet) (vpn : Z) (slot : pte_directory) :
  wf_dir slot →
  ∃ pd, dir_of o vpn slot = Some pd ∧ length pd = Z.to_nat NR_PTES_PER_PAGE.
Proof.
  destruct slot as [| pd |]; simpl; intros Hwf; [| | done].
  - eexists. split; [done |]. apply length_fresh_dir.
  - by exists pd.
Qed.

Lemma sel_insert_eq {A} (a : list A) (i : Z) (x : A) :
  0 ≤ i < Z.of_nat (length a) → sel (<[Z.to_nat i := x]> a) i = Some x.
Proof.
  intros Hi. unfold sel. destruct (Z.leb_spec 0 i); [| lia].
  apply list_lookup_insert_eq. lia.
Qed.

Lemma sel_insert_ne {A} (a : list A) (i j : Z) (x : A) :
  0 ≤ i → i ≠ j → sel (<[Z.to_nat i := x]> a) j = sel a j.
Proof.
  intros Hi Hne. unfold sel. destruct (Z.leb_spec 0 j); [| done].
  apply list_lookup_insert_ne. lia.
Qed.

(** C5: with a valid directory index and at least one frame of reference
    count 0, alloc_page(vpn, rw) returns the smallest-numbered such frame
    [f], installs for [vpn] an entry that is valid, maps [f] and is writable
    unless [rw] is RW_READ (so writable for RW_WRITE and not for RW_READ),
    and takes the reference count of [f] from 0 to 1; no other count and
    nothing of the TLB changes. *)
Theorem alloc_page_lowest_free (o : indet) (st : state) (vpn rw : Z)
    (cur : process) (g : Z) :
  mapcounts_ok st →
  procs st !! ptbr st = Some cur →
  wf_outer (outer_ptes (proc_pagetable cur)) →
  0 ≤ pd_index_of vpn < NR_PTES_PER_PAGE →
  0 ≤ g < NR_PAGEFRAMES → sel (mapcounts st) g = Some 0 →
  ∃ st' f e,
    alloc_page o st vpn rw = Some (st', f) ∧
    0 ≤ f ≤ g ∧ sel (mapcounts st) f = Some 0 ∧
    (∀ j, 0 ≤ j < f → sel (mapcounts st) j ≠ Some 0) ∧
    pte_of st' vpn = Some e ∧
    valid e = true ∧ pfn e = f ∧
    writable e = negb (rw =? RW_READ) ∧
    (rw = RW_READ → writable e = false) ∧
    (rw = RW_WRITE → RW_READ ≠ RW_WRITE → writable e = true) ∧
    sel (mapcounts st') f = Some 1 ∧
    (∀ j, j ≠ f → sel (mapcounts st') j = sel (mapcounts st) j) ∧
    tlb st' = tlb st ∧ index st' = index st ∧
    processes st' = processes st ∧ current st' = current st ∧
    ptbr st' = ptbr st.
Proof.
  intros Hmc Hcur Hwf Hpd Hg Hfree. unfold mapcounts_ok in Hmc.
  destruct (find_free_total (mapcounts st) (Z.to_nat NR_PAGEFRAMES) 0)
    as [(k & Hk & Hz & Hfirst & Hrun) | [Hnone _]]; [lia | |]; cycle 1.
  { apply sel_Some in Hfree as [_ Hfree].
    exfalso. eapply (Hnone (Z.to_nat g)); [lia | done..]. }
  assert (Hkg : (k ≤ Z.to_nat g)%nat).
  { destruct (decide (k ≤ Z.to_nat g)%nat) as [| Hgt]; [done |].
    apply sel_Some in Hfree as [_ Hfree].
    exfalso. eapply (Hfirst (Z.to_nat g)); [lia | done..]. }
  destruct (wf_outer_slot _ _ Hwf Hpd) as (slot & Hslot & Hwfs).
  destruct (dir_of_wf o vpn slot Hwfs) as (pd & Hdir & Hlen).
  assert (Hsel : sel (mapcounts st) (Z.of_nat k) = Some 0) by by rewrite sel_of_nat.
  pose proof (pte_index_range vpn) as Hpte.
  assert (Hin : 0 ≤ pte_index_of vpn < Z.of_nat (length pd)) by lia.
  pose proof (alloc_page_eq o st vpn rw (Some (Z.of_nat k)) 0 cur slot pd
                Hrun ltac:(lia) Hsel Hcur Hslot Hdir Hin) as Heq.
  simpl in Heq.
  eexists _, (Z.of_nat k), _. split; [exact Heq |].
  split; [lia |]. split; [done |]. split.
  { intros j Hj [_ Hj0]%sel_Some. eapply (Hfirst (Z.to_nat j)); [lia | done..]. }
  split.
  { eapply pte_of_with_pte; [exact Hcur | exact Hslot | exact Hin | done..]. }
  simpl. rewrite Nat2Z.id. split_and!; try done.
  - by intros ->; rewrite Z.eqb_refl.
  - intros -> Hne. by destruct (Z.eqb_spec RW_WRITE RW_READ).
  - rewrite <- (Nat2Z.id k) at 1. rewrite sel_insert_eq; [done |].
    by eapply sel_lt.
  - intros j Hne. rewrite <- (Nat2Z.id k). apply sel_insert_ne; lia.
Qed.

Lemma alloc_page_bad_index (o : indet) (st : state) (vpn rw : Z) :
  mapcounts_ok st →
  NR_PTES_PER_PAGE ≤ pd_index_of vpn →
  alloc_page o st vpn rw = Some (st, 2 ^ 32 - 1).
Proof.
  intros Hmc Hpd. unfold mapcounts_ok in Hmc. unfold alloc_page.
  destruct (find_free_total (mapcounts st) (Z.to_nat NR_PAGEFRAMES) 0)
    as [(k & _ & _ & _ & ->) | [_ ->]]; [lia | |]; simpl;
    by destruct (Z.leb_spec NR_PTES_PER_PAGE (pd_index_of vpn)); [| lia].
Qed.

Lemma alloc_page_inv (o : indet) (st : state) (vpn rw : Z) (st' : state) (r : Z) :
  pd_index_of vpn < NR_PTES_PER_PAGE →
  alloc_page o st vpn rw = Some (st', r) →
  ∃ found m cur slot pd,
    find_free (mapcounts st) (Z.to_nat NR_PAGEFRAMES) 0 = Some found ∧
    r = default (ind_pfn o) found ∧
    sel (mapcounts st) r = Some m ∧
    procs st !! ptbr st = Some cur ∧
    sel (outer_ptes (proc_pagetable cur)) (pd_index_of vpn) = Some slot ∧
    dir_of o vpn slot = Some pd ∧
    0 ≤ pte_index_of vpn < Z.of_nat (length pd) ∧
    st' = mk_state
            (with_pte st cur pd vpn
               (mk_pte true (negb (rw =? RW_READ)) r (Z.b2z (negb (rw =? RW_READ)))))
            (processes st) (current st) (ptbr st) (tlb st) (index st)
            (<[Z.to_nat r := u32 (m + 1)]> (mapcounts st)).
Proof.
  intros Hpd. unfold alloc_page.
  destruct (find_free _ _ _) as [found |]; simpl; [| done].
  destruct (Z.leb_spec NR_PTES_PER_PAGE (pd_index_of vpn)); [lia |].
  destruct (sel (mapcounts st) _) as [m |] eqn:Hm; simpl; [| done].
  destruct (upd (mapcounts st) _ _) as [mc |] eqn:Hmc; simpl; [| done].
  apply upd_inv in Hmc as [_ ->].
  unfold ptbr_outer.
  destruct (procs st !! ptbr st) as [cur |] eqn:Hcur; simpl; [| done].
  destruct (sel (outer_ptes (proc_pagetable cur)) _) as [slot |] eqn:Hslot;
    simpl; [| done].
  intros Hrun.
  assert (∃ pd, dir_of o vpn slot = Some pd ∧
            (pd' ← upd pd (pte_index_of vpn)
                     (mk_pte true (negb (rw =? RW_READ)) (default (ind_pfn o) found)
                        (Z.b2z (negb (rw =? RW_READ))));
             outer ← upd (outer_ptes (proc_pagetable cur)) (pd_index_of vpn) (Dir pd');
             ps ← set_outer (procs st) (ptbr st) outer;
             Some (mk_state ps (processes st) (current st) (ptbr st) (tlb st)
                     (index st)
                     (<[Z.to_nat (default (ind_pfn o) found) := u32 (m + 1)]>
                        (mapcounts st)), default (ind_pfn o) found))
            = Some (st', r)) as (pd & Hdir & Hrun').
  { destruct slot as [| pd |]; [eexists; split; [done | exact Hrun]
                                | eexists; split; [done | exact Hrun] | done]. }
  clear Hrun.
  destruct (upd pd _ _) as [pd' |] eqn:Hpd'; simpl in Hrun'; [| done].
  apply upd_inv in Hpd' as [Hin ->].
  destruct (upd (outer_ptes (proc_pagetable cur)) _ _) as [outer' |] eqn:Ho;
    simpl in Hrun'; [| done].
  apply upd_inv in Ho as [_ ->].
  unfold set_outer in Hrun'. rewrite Hcur in Hrun'. simpl in Hrun'.
  injection Hrun' as <- <-.
  by exists found, m, cur, slot, pd.
Qed.

Lemma alloc_page_installs (o : indet) (st : state) (vpn rw : Z) (st' : state) (r : Z) :
  pd_index_of vpn < NR_PTES_PER_PAGE →
  alloc_page o st vpn rw = Some (st', r) →
  pte_of st' vpn =
    Some (mk_pte true (negb (rw =? RW_READ)) r (Z.b2z (negb (rw =? RW_READ)))).
Proof.
  intros Hpd Hrun.
  destruct (alloc_page_inv o st vpn rw st' r Hpd Hrun)
    as (found & m & cur & slot & pd & _ & _ & _ & Hcur & Hslot & _ & Hin & ->).
  by eapply pte_of_with_pte.
Qed.

(** ** free_page *)

Lemma pte_of_inv (st : state) (vpn : Z) (e : pte) :
  pte_of st vpn = Some e →
  ∃ cur pd,
    procs st !! ptbr st = Some cur ∧
    sel (outer_ptes (proc_pagetable cur)) (pd_index_of vpn) = Some (Dir pd) ∧
    sel pd (pte_index_of vpn) = Some e.
Proof.
  unfold pte_of, ptbr_outer, walk.
  destruct (procs st !! ptbr st) as [cur |]; simpl; [| done].
  destruct (sel (outer_ptes (proc_pagetable cur)) _) as [[| pd |] |] eqn:Hslot;
    simpl; try done.
  intros He. by exists cur, pd.
Qed.

Lemma free_page_eq (st : state) (vpn : Z) (t : list tlb_entry) (cur : process)
    (pd : list pte) (e : pte) (m : Z) :
  invalidate_tlb (tlb st) vpn (Z.to_nat NR_TLB_ENTRIES) 0 = Some t →
  procs st !! ptbr st = Some cur →
  sel (outer_ptes (proc_pagetable cur)) (pd_index_of vpn) = Some (Dir pd) →
  sel pd (pte_index_of vpn) = Some e →
  sel (mapcounts st) (pfn e) = Some m →
  free_page st vpn =
    Some (mk_state
            (with_pte st cur pd vpn (mk_pte false false 0 (private e)))
            (processes st) (current st) (ptbr st) t (index st)
            (<[Z.to_nat (pfn e) := u32 (m - 1)]> (mapcounts st))).
Proof.
  intros Ht Hcur Hslot He Hm.
  unfold free_page. rewrite Ht. simpl.
  unfold ptbr_outer. rewrite Hcur. simpl. rewrite Hslot. simpl.
  rewrite He. simpl. rewrite Hm. simpl.
  rewrite (upd_Some (mapcounts st)) by (by eapply sel_lt). simpl.
  rewrite (upd_Some pd) by (by eapply sel_lt). simpl.
  rewrite (upd_Some (outer_ptes (proc_pagetable cur))) by (by eapply sel_lt). simpl.
  unfold set_outer. rewrite Hcur. done.
Qed.

(** C6 (as amended): free_page(vpn) on a mapped [vpn] clears the valid bit
    of the first valid TLB entry for [vpn] (the scan stops there: a second
    entry for [vpn] stays valid), decrements the reference count of the
    frame mapped at [vpn] by one, and sets the [valid] and [writable] fields
    of the entry to false and its frame to 0; the [private] field
    (wasWritable) keeps its value. *)
Theorem free_page_mapped (st : state) (vpn : Z) (e : pte) (m : Z) :
  tlb_ok st →
  pte_of st vpn = Some e → valid e = true →
  sel (mapcounts st) (pfn e) = Some m →
  ∃ st', free_page st vpn = Some st' ∧
    pte_of st' vpn = Some (mk_pte false false 0 (private e)) ∧
    sel (mapcounts st') (pfn e) = Some (u32 (m - 1)) ∧
    (0 < m < 2 ^ 32 → sel (mapcounts st') (pfn e) = Some (m - 1)) ∧
    (∀ j, j ≠ pfn e → sel (mapcounts st') j = sel (mapcounts st) j) ∧
    (∀ k c, (k < Z.to_nat NR_TLB_ENTRIES)%nat →
       tlb st !! k = Some c → caches vpn c = true →
       (∀ j c', (j < k)%nat → tlb st !! j = Some c' → caches vpn c' = false) →
       tlb st' = <[k := invalidated c]> (tlb st)) ∧
    ((∀ j c, (j < Z.to_nat NR_TLB_ENTRIES)%nat → tlb st !! j = Some c →
        caches vpn c = false) →
     tlb st' = tlb st) ∧
    index st' = index st ∧ processes st' = processes st ∧
    current st' = current st ∧ ptbr st' = ptbr st.
Proof.
  intros Ht He Hv Hm. unfold tlb_ok in Ht.
  destruct (pte_of_inv st vpn e He) as (cur & pd & Hcur & Hslot & Hpte).
  destruct (invalidate_tlb_total vpn (Z.to_nat NR_TLB_ENTRIES) (tlb st) 0)
    as (t & Hinv & Hlen); [lia |].
  eexists. split; [by eapply free_page_eq |]. simpl.
  pose proof (sel_lt _ _ _ Hm) as Hf.
  split.
  { eapply pte_of_with_pte; [exact Hcur | exact Hslot | | done..].
    by eapply sel_lt. }
  split; [by apply sel_insert_eq |].
  split; [intros Hpos; rewrite sel_insert_eq by done; by rewrite u32_small by lia |].
  split; [intros j Hj; apply sel_insert_ne; lia |].
  split.
  { intros k c Hk Hc Hhit Hfirst.
    rewrite (invalidate_tlb_hit vpn (tlb st) k c (Z.to_nat NR_TLB_ENTRIES) 0) in Hinv;
      [by simplify_eq | lia | done.. |].
    intros j c' Hj. apply Hfirst. lia. }
  split; [| done].
  intros Hmiss.
  rewrite (invalidate_tlb_miss vpn (tlb st) (Z.to_nat NR_TLB_ENTRIES) 0) in Hinv;
    [by simplify_eq | lia |].
  intros j c Hj. apply Hmiss. lia.
Qed.

(** ** handle_page_fault *)

Lemma handle_page_fault_unfold (o : indet) (st : state) (vpn rw : Z) (e : pte) :
  pte_of st vpn = Some e →
  handle_page_fault o st vpn rw =
    if rw =? RW_WRITE then
      m ← sel (mapcounts st) (pfn e);
      if (1 <=? m) && negb (private e =? 0) then
        st1 ← free_page st vpn;
        r ← alloc_page o st1 vpn rw;
        Some (r.1, true)
      else Some (st, false)
    else Some (st, false).
Proof.
  intros (cur & pd & Hcur & Hslot & He)%pte_of_inv.
  unfold handle_page_fault, ptbr_outer.
  rewrite Hcur. simpl. rewrite Hslot. simpl. rewrite He. simpl.
  destruct (rw =? RW_WRITE); [| done].
  destruct (sel (mapcounts st) (pfn e)) as [m |]; simpl; [| done].
  destruct (Z.ltb_spec 1 m), (Z.eqb_spec m 1), (Z.leb_spec 1 m); try lia;
    simpl; by destruct (negb (private e =? 0)).
Qed.

(** C1 (as amended): a write fault at a [vpn] whose entry is valid, has
    wasWritable set and maps a frame [F] of reference count 1 is resolved by
    free_page followed by alloc_page: the call returns true and the entry of
    [vpn] is valid and writable again, mapping the smallest-numbered frame
    [f] that is free once [F] has been released.  [f] is [F], with its count
    back at 1 and no count changed, exactly when no frame below [F] is free;
    otherwise [f] is a free frame below [F], whose count becomes 1 while the
    count of [F] drops to 0. *)
Theorem handle_page_fault_sole_owner (o : indet) (st : state) (vpn : Z) (e : pte) :
  RW_READ ≠ RW_WRITE →
  tlb_ok st → mapcounts_ok st →
  pd_index_of vpn < NR_PTES_PER_PAGE →
  pte_of st vpn = Some e → valid e = true → private e ≠ 0 →
  0 ≤ pfn e < NR_PAGEFRAMES →
  sel (mapcounts st) (pfn e) = Some 1 →
  ∃ st' f,
    handle_page_fault o st vpn RW_WRITE = Some (st', true) ∧
    pte_of st' vpn = Some (mk_pte true true f 1) ∧
    0 ≤ f ≤ pfn e ∧
    (∀ j, 0 ≤ j < f → sel (mapcounts st) j ≠ Some 0) ∧
    (f = pfn e ∨ sel (mapcounts st) f = Some 0) ∧
    mapcounts st' = <[Z.to_nat f := 1]> (<[Z.to_nat (pfn e) := 0]> (mapcounts st)) ∧
    ((∀ j, 0 ≤ j < pfn e → sel (mapcounts st) j ≠ Some 0) →
     f = pfn e ∧ mapcounts st' = mapcounts st) ∧
    (f ≠ pfn e →
     sel (mapcounts st') (pfn e) = Some 0 ∧ sel (mapcounts st') f = Some 1) ∧
    index st' = index st ∧ processes st' = processes st ∧
    current st' = current st ∧ ptbr st' = ptbr st.
Proof.
  intros Hrw Ht Hmc Hpd He Hv Hpriv HF Hone.
  unfold tlb_ok in Ht. unfold mapcounts_ok in Hmc.
  rewrite (handle_page_fault_unfold o st vpn RW_WRITE e He).
  rewrite Z.eqb_refl, Hone. simpl.
  destruct (Z.eqb_spec (private e) 0) as [| _]; [done |]. simpl.
  destruct (pte_of_inv st vpn e He) as (cur & pd & Hcur & Hslot & Hpte).
  destruct (invalidate_tlb_total vpn (Z.to_nat NR_TLB_ENTRIES) (tlb st) 0)
    as (t & Hinv & Hlen); [lia |].
  rewrite (free_page_eq st vpn t cur pd e 1 Hinv Hcur Hslot Hpte Hone). simpl.
  set (mc1 := <[Z.to_nat (pfn e) := u32 (1 - 1)]> (mapcounts st)).
  set (pd1 := <[Z.to_nat (pte_index_of vpn) := mk_pte false false 0 (private e)]> pd).
  set (st1 := mk_state _ _ _ _ _ _ _).
  pose proof (sel_lt _ _ _ Hone) as HFlen.
  pose proof (sel_lt _ _ _ Hslot) as Hpdlen.
  pose proof (sel_lt _ _ _ Hpte) as Hptelen.
  assert (HF1 : mc1 !! Z.to_nat (pfn e) = Some 0).
  { subst mc1. apply list_lookup_insert_eq. lia. }
  destruct (find_free_total mc1 (Z.to_nat NR_PAGEFRAMES) 0)
    as [(k & Hk & Hz & Hfirst & Hrun) | [Hnone _]];
    [subst mc1; rewrite length_insert; lia | |]; cycle 1.
  { exfalso. eapply (Hnone (Z.to_nat (pfn e))); [lia | done..]. }
  assert (Hkle : (k ≤ Z.to_nat (pfn e))%nat).
  { destruct (decide (k ≤ Z.to_nat (pfn e))%nat) as [| Hgt]; [done |].
    exfalso. eapply (Hfirst (Z.to_nat (pfn e))); [lia | done..]. }
  assert (Hcur1 : procs st1 !! ptbr st1 =
            Some (mk_process (pid cur)
                    (mk_pagetable (<[Z.to_nat (pd_index_of vpn) := Dir pd1]>
                                     (outer_ptes (proc_pagetable cur)))))).
  { simpl. unfold with_pte. apply list_lookup_insert_eq. by eapply lookup_lt_Some. }
  assert (Hsel1 : sel (mapcounts st1) (default (ind_pfn o) (Some (Z.of_nat k)))
                  = Some 0).
  { unfold st1. simpl. by rewrite sel_of_nat. }
  assert (Hslot1 : sel (<[Z.to_nat (pd_index_of vpn) := Dir pd1]>
                          (outer_ptes (proc_pagetable cur))) (pd_index_of vpn)
                   = Some (Dir pd1)) by by apply sel_insert_eq.
  assert (Hin1 : 0 ≤ pte_index_of vpn < Z.of_nat (length pd1)).
  { unfold pd1. by rewrite length_insert. }
  pose proof (alloc_page_eq o st1 vpn RW_WRITE (Some (Z.of_nat k)) 0 _ (Dir pd1) pd1
                Hrun Hpd Hsel1 Hcur1 Hslot1 eq_refl Hin1) as Heq.
  rewrite Heq. simpl.
  destruct (Z.eqb_spec RW_WRITE RW_READ) as [| _]; [congruence |]. simpl.
  eexists _, (Z.of_nat k). split; [done |]. simpl.
  assert (Hlow : ∀ j, 0 ≤ j < Z.of_nat k → sel (mapcounts st) j ≠ Some 0).
  { intros j Hj [_ Hj0]%sel_Some.
    eapply (Hfirst (Z.to_nat j)); [lia | | done].
    subst mc1. rewrite list_lookup_insert_ne by lia. done. }
  assert (Hk0 : Z.of_nat k = pfn e ∨ sel (mapcounts st) (Z.of_nat k) = Some 0).
  { destruct (decide (Z.of_nat k = pfn e)) as [| Hne]; [by left | right].
    rewrite sel_of_nat. subst mc1.
    by rewrite list_lookup_insert_ne in Hz by lia. }
  split.
  { by eapply (pte_of_with_pte st1); [exact Hcur1 | exact Hslot1 | exact Hin1 | ..]. }
  split; [lia |]. split; [done |]. split; [done |].
  rewrite Nat2Z.id. split; [done |].
  split.
  { intros Hused.
    assert (Z.of_nat k = pfn e) as Hkeq.
    { destruct (decide (Z.of_nat k = pfn e)) as [| Hne]; [done |].
      destruct Hk0 as [| Hfree]; [done |]. exfalso.
      eapply (Hused (Z.of_nat k)); [lia | done]. }
    split; [done |]. subst mc1. rewrite <- Hkeq, Nat2Z.id.
    rewrite list_insert_insert_eq. apply list_insert_id.
    apply sel_Some in Hone as [_ Hone]. by rewrite <- Hkeq, Nat2Z.id in Hone. }
  split; [| done].
  intros Hne. split.
  - rewrite <- (Nat2Z.id k). rewrite sel_insert_ne by lia.
    subst mc1. by apply sel_insert_eq.
  - rewrite <- (Nat2Z.id k) at 1. apply sel_insert_eq.
    subst mc1. rewrite length_insert. lia.
Qed.

(** ** fork: the loops that copy the page table *)

Lemma bump_succ (k : nat) (m : Z) : bump k (u32 (m + 1)) = bump (S k) m.
Proof. unfold bump. by rewrite Nat.iter_succ_r. Qed.

Lemma bump_add (a b : nat) (m : Z) : bump b (bump a m) = bump (a + b) m.
Proof. unfold bump. by rewrite (Nat.add_comm a b), Nat.iter_add. Qed.

Lemma bump_exact (k : nat) (m : Z) :
  0 ≤ m → m + Z.of_nat k < 2 ^ 32 → bump k m = m + Z.of_nat k.
Proof.
  revert m. induction k as [| k IH]; intros m Hm Hk.
  - unfold bump. simpl. lia.
  - rewrite <- bump_succ. rewrite u32_small by lia. rewrite IH; lia.
Qed.

Lemma sel_insert {A} (a : list A) (g f : Z) (x : A) :
  0 ≤ g < Z.of_nat (length a) →
  sel (<[Z.to_nat g := x]> a) f = if decide (f = g) then Some x else sel a f.
Proof.
  intros Hg. destruct (decide (f = g)) as [-> | Hne].
  - by apply sel_insert_eq.
  - apply sel_insert_ne; lia.
Qed.

Lemma copy_ptes_spec (n : nat) : ∀ (j : nat) (pd c : list pte) (mc : list Z),
  (j + n ≤ length pd)%nat → length c = length pd →
  (∀ k e, pd !! k = Some e → valid e = true → 0 ≤ pfn e < Z.of_nat (length mc)) →
  ∃ pd' c' mc',
    copy_ptes n j pd (Dir c) mc = Some (pd', Dir c', mc') ∧
    length pd' = length pd ∧ length c' = length c ∧ length mc' = length mc ∧
    (∀ k, pd' !! k =
       (λ e, if bool_decide (j ≤ k < j + n)%nat then downgrade e else e) <$> pd !! k) ∧
    (∀ k, c' !! k =
       match pd !! k with
       | Some e => if bool_decide (j ≤ k < j + n)%nat && valid e
                   then Some (shared e) else c !! k
       | None => c !! k
       end) ∧
    (∀ f, sel mc' f = bump (count_ptes f (take n (drop j pd))) <$> sel mc f).
Proof.
  induction n as [| n IH]; intros j pd c mc Hlen Hc Hrange; simpl.
  { exists pd, c, mc. split_and!; try done.
    - intros k. rewrite bool_decide_eq_false_2 by lia. by destruct (pd !! k).
    - intros k. rewrite bool_decide_eq_false_2 by lia. by destruct (pd !! k).
    - intros f. by destruct (sel mc f). }
  destruct (lookup_lt_is_Some_2 pd j) as [e He]; [lia |].
  rewrite He. simpl.
  rewrite (drop_S pd e j He). simpl.
  destruct (valid e) eqn:Hv.
  - rewrite updn_Some by lia. simpl.
    destruct (sel_is_Some mc (pfn e)) as [m Hm]; [by eapply Hrange |].
    rewrite Hm. simpl.
    rewrite upd_Some by (by eapply Hrange). simpl.
    assert (Hsh : mk_pte true false (pfn e) (private e) = shared e).
    { unfold shared. by rewrite Hv. }
    rewrite !Hsh.
    destruct (IH (S j) (<[j := shared e]> pd) (<[j := shared e]> c)
                (<[Z.to_nat (pfn e) := u32 (m + 1)]> mc))
      as (pd' & c' & mc' & Hrun & Hlpd & Hlc & Hlmc & Hpd & Hcc & Hmc).
    { rewrite length_insert. lia. }
    { by rewrite !length_insert. }
    { intros k e' Hk Hv'. rewrite length_insert.
      destruct (decide (k = j)) as [-> | Hne].
      - rewrite list_lookup_insert_eq in Hk by lia. injection Hk as <-.
        simpl. by eapply Hrange.
      - rewrite list_lookup_insert_ne in Hk by done. by eapply Hrange. }
    exists pd', c', mc'. rewrite !length_insert in *.
    split; [done |]. split_and!; try done.
    + intros k. rewrite Hpd. destruct (decide (k = j)) as [-> | Hne].
      * rewrite list_lookup_insert_eq by lia. rewrite He. simpl.
        rewrite bool_decide_eq_false_2 by lia.
        rewrite bool_decide_eq_true_2 by lia.
        unfold downgrade. by rewrite Hv.
      * rewrite list_lookup_insert_ne by done.
        destruct (pd !! k); [simpl | done].
        repeat case_bool_decide; (done || lia).
    + intros k. rewrite Hcc. destruct (decide (k = j)) as [-> | Hne].
      * rewrite !list_lookup_insert_eq by lia. rewrite He.
        rewrite bool_decide_eq_false_2 by lia.
        rewrite bool_decide_eq_true_2 by lia.
        by rewrite Hv.
      * rewrite !list_lookup_insert_ne by done.
        destruct (pd !! k); [| done].
        repeat case_bool_decide; (done || lia).
    + intros f. rewrite Hmc.
      rewrite drop_insert_lt by lia.
      rewrite sel_insert by (by eapply Hrange).
      unfold maps_frame. rewrite Hv. simpl.
      destruct (decide (f = pfn e)) as [-> | Hne].
      * rewrite Z.eqb_refl, Hm. simpl. by rewrite bump_succ.
      * by destruct (Z.eqb_spec (pfn e) f); [congruence |].
  - destruct (IH (S j) pd c mc)
      as (pd' & c' & mc' & Hrun & Hlpd & Hlc & Hlmc & Hpd & Hcc & Hmc);
      [lia | done | done |].
    exists pd', c', mc'. split; [done |]. split_and!; try done.
    + intros k. rewrite Hpd. destruct (decide (k = j)) as [-> | Hne].
      * rewrite He. simpl.
        rewrite bool_decide_eq_false_2 by lia.
        rewrite bool_decide_eq_true_2 by lia.
        unfold downgrade. by rewrite Hv.
      * destruct (pd !! k); [simpl | done].
        repeat case_bool_decide; (done || lia).
    + intros k. rewrite Hcc. destruct (decide (k = j)) as [-> | Hne].
      * rewrite He. rewrite Hv, !andb_false_r. done.
      * destruct (pd !! k); [| done].
        repeat case_bool_decide; (done || lia).
    + intros f. rewrite Hmc. unfold maps_frame. by rewrite Hv.
Qed.

Lemma copy_ptes_full (o : indet) (i : nat) (pd : list pte) (mc : list Z) :
  length pd = Z.to_nat NR_PTES_PER_PAGE →
  (∀ k e, pd !! k = Some e → valid e = true → 0 ≤ pfn e < Z.of_nat (length mc)) →
  ∃ mc',
    copy_ptes (Z.to_nat NR_PTES_PER_PAGE) 0 pd (Dir (fresh_dir o i)) mc =
      Some (downgrade <$> pd,
            Dir (imap (λ j e, if valid e then shared e else ind_pte o i j) pd),
            mc') ∧
    length mc' = length mc ∧
    ∀ f, sel mc' f = bump (count_ptes f pd) <$> sel mc f.
Proof.
  intros Hlen Hrange.
  destruct (copy_ptes_spec (Z.to_nat NR_PTES_PER_PAGE) 0 pd (fresh_dir o i) mc)
    as (pd' & c' & mc' & Hrun & Hlpd & Hlc & Hlmc & Hpd & Hcc & Hmc);
    [lia | by rewrite length_fresh_dir | done |].
  exists mc'. split; [| split; [done |]].
  - rewrite Hrun. repeat f_equal.
    + apply list_eq. intros k. rewrite Hpd, list_lookup_fmap.
      destruct (pd !! k) eqn:Hk; [simpl | done].
      apply lookup_lt_Some in Hk. by rewrite bool_decide_eq_true_2 by lia.
    + apply list_eq. intros k. rewrite Hcc, list_lookup_imap.
      destruct (pd !! k) as [e |] eqn:Hk; simpl.
      * apply lookup_lt_Some in Hk. rewrite bool_decide_eq_true_2 by lia. simpl.
        destruct (valid e); [done |].
        unfold fresh_dir. rewrite list_lookup_fmap, lookup_seq_lt by lia. done.
      * apply lookup_ge_None in Hk. apply lookup_ge_None.
        rewrite length_fresh_dir. lia.
  - intros f. rewrite Hmc. rewrite drop_0, take_ge by lia. done.
Qed.

Lemma downgrade_valid (e : pte) : valid (downgrade e) = valid e.
Proof. unfold downgrade. by destruct (valid e) eqn:Hv. Qed.

Lemma downgrade_pfn (e : pte) : pfn (downgrade e) = pfn e.
Proof. unfold downgrade. by destruct (valid e). Qed.

Lemma downgrade_private (e : pte) : private (downgrade e) = private e.
Proof. unfold downgrade. by destruct (valid e). Qed.

Lemma copy_dirs_spec (o : indet) (n : nat) :
  ∀ (i : nat) (prev child : list pte_directory) (mc : list Z),
  (i + n ≤ length prev)%nat → length child = length prev →
  Forall wf_dir prev →
  (∀ k, (i ≤ k < i + n)%nat → child !! k = Some NULL) →
  frames_in_range mc prev →
  ∃ prev' child' mc',
    copy_dirs o n i prev child mc = Some (prev', child', mc') ∧
    length prev' = length prev ∧ length child' = length child ∧
    length mc' = length mc ∧
    (∀ k, prev' !! k =
       (λ s, if bool_decide (i ≤ k < i + n)%nat then parent_dir s else s) <$> prev !! k) ∧
    (∀ k, child' !! k =
       if bool_decide (i ≤ k < i + n)%nat then child_dir o k <$> prev !! k
       else child !! k) ∧
    (∀ f, sel mc' f = bump (count_outer f (take n (drop i prev))) <$> sel mc f).
Proof.
  induction n as [| n IH]; intros i prev child mc Hlen Hc Hwf Hnull Hrange; simpl.
  { exists prev, child, mc. split_and!; try done.
    - intros k. rewrite bool_decide_eq_false_2 by lia. by destruct (prev !! k).
    - intros k. by rewrite bool_decide_eq_false_2 by lia.
    - intros f. by destruct (sel mc f). }
  destruct (lookup_lt_is_Some_2 prev i) as [ps Hps]; [lia |].
  rewrite Hps. simpl. rewrite (drop_S prev ps i Hps). simpl.
  pose proof (Forall_lookup_1 _ _ _ _ Hwf Hps) as Hwfi.
  destruct ps as [| pd |]; simpl in Hwfi; [| | done].
  - destruct (IH (S i) prev child mc)
      as (prev' & child' & mc' & Hrun & Hlp & Hlc & Hlmc & Hp & Hcc & Hmc);
      [lia | done | done | intros k Hk; apply Hnull; lia | done |].
    exists prev', child', mc'. split; [done |]. split_and!; try done.
    + intros k. rewrite Hp. destruct (decide (k = i)) as [-> | Hne].
      * rewrite Hps. simpl. by repeat case_bool_decide.
      * destruct (prev !! k); [simpl | done].
        repeat case_bool_decide; (done || lia).
    + intros k. rewrite Hcc. destruct (decide (k = i)) as [-> | Hne].
      * rewrite bool_decide_eq_false_2 by lia.
        rewrite bool_decide_eq_true_2 by lia.
        rewrite Hps. simpl. apply Hnull. lia.
      * repeat case_bool_decide; (done || lia).
  - rewrite (Hnull i) by lia. simpl.
    destruct (copy_ptes_full o i pd mc Hwfi) as (mc1 & Hrun1 & Hlmc1 & Hmc1).
    { intros k e. by eapply Hrange. }
    rewrite Hrun1. simpl.
    set (pd' := downgrade <$> pd).
    set (c' := imap _ pd).
    destruct (IH (S i) (<[i := Dir pd']> prev)
                (<[i := Dir c']> (<[i := Dir (fresh_dir o i)]> child)) mc1)
      as (prev' & child' & mc' & Hrun & Hlp & Hlc & Hlmc & Hp & Hcc & Hmc).
    { rewrite length_insert. lia. }
    { by rewrite !length_insert. }
    { apply Forall_insert; [done |]. simpl. unfold pd'. by rewrite length_fmap. }
    { intros k Hk. rewrite !list_lookup_insert_ne by lia. apply Hnull. lia. }
    { intros k pd0 j e Hk Hj Hv. rewrite Hlmc1.
      destruct (decide (k = i)) as [-> | Hne].
      - rewrite list_lookup_insert_eq in Hk by lia. injection Hk as <-.
        unfold pd' in Hj. rewrite list_lookup_fmap in Hj.
        destruct (pd !! j) as [e0 |] eqn:Hj0; simpl in Hj; [| done].
        injection Hj as <-. rewrite downgrade_valid in Hv.
        rewrite downgrade_pfn. by eapply Hrange.
      - rewrite list_lookup_insert_ne in Hk by done. by eapply Hrange. }
    exists prev', child', mc'. rewrite !length_insert in *.
    split; [done |]. split_and!; try congruence.
    + intros k. rewrite Hp. destruct (decide (k = i)) as [-> | Hne].
      * rewrite list_lookup_insert_eq by lia. rewrite Hps. simpl.
        rewrite bool_decide_eq_false_2 by lia.
        by rewrite bool_decide_eq_true_2 by lia.
      * rewrite list_lookup_insert_ne by done.
        destruct (prev !! k); [simpl | done].
        repeat case_bool_decide; (done || lia).
    + intros k. rewrite Hcc. destruct (decide (k = i)) as [-> | Hne].
      * rewrite bool_decide_eq_false_2 by lia.
        rewrite bool_decide_eq_true_2 by lia.
        rewrite list_lookup_insert_eq by (rewrite length_insert; lia).
        by rewrite Hps.
      * rewrite !list_lookup_insert_ne by done.
        repeat case_bool_decide; (done || lia).
    + intros f. rewrite Hmc, Hmc1.
      rewrite drop_insert_lt by lia.
      destruct (sel mc f); [simpl | done]. by rewrite bump_add.
Qed.

Lemma fresh_pagetable_null (o : indet) (k : nat) :
  fresh_null o → (k < Z.to_nat NR_PTES_PER_PAGE)%nat →
  fresh_pagetable o !! k = Some NULL.
Proof.
  intros Ho Hk. unfold fresh_pagetable.
  rewrite list_lookup_fmap, lookup_seq_lt by done. simpl.
  by rewrite Ho.
Qed.

Lemma fork_eq (o : indet) (st : state) (p : Z) (parent : process) :
  procs st !! current st = Some parent →
  wf_outer (outer_ptes (proc_pagetable parent)) →
  frames_in_range (mapcounts st) (outer_ptes (proc_pagetable parent)) →
  fresh_null o →
  fork o st p =
    Some (mk_state
            (<[current st :=
                 mk_process (pid parent)
                   (mk_pagetable (parent_dir <$> outer_ptes (proc_pagetable parent)))]>
               (procs st)
             ++ [mk_process p
                   (mk_pagetable
                      (imap (child_dir o) (outer_ptes (proc_pagetable parent))))])
            (processes st ++ [current st])
            (length (procs st)) (length (procs st))
            (tlb st) (index st)
            (add_refs (outer_ptes (proc_pagetable parent)) (mapcounts st))).
Proof.
  intros Hcur [Hlen Hwf] Hrange Ho.
  set (outer := outer_ptes (proc_pagetable parent)) in *.
  destruct (copy_dirs_spec o (Z.to_nat NR_PTES_PER_PAGE) 0 outer
              (fresh_pagetable o) (mapcounts st))
    as (prev' & child' & mc' & Hrun & Hlp & Hlc & Hlmc & Hp & Hcc & Hmc);
    [lia | | done | | done |].
  { unfold fresh_pagetable. by rewrite length_fmap, length_seq. }
  { intros k Hk. apply fresh_pagetable_null; [done | lia]. }
  assert (prev' = parent_dir <$> outer) as ->.
  { apply list_eq. intros k. rewrite Hp, list_lookup_fmap.
    destruct (outer !! k) eqn:Hk; [simpl | done].
    apply lookup_lt_Some in Hk. by rewrite bool_decide_eq_true_2 by lia. }
  assert (child' = imap (child_dir o) outer) as ->.
  { apply list_eq. intros k. rewrite Hcc, list_lookup_imap.
    case_bool_decide as Hk; [done |].
    rewrite (lookup_ge_None_2 outer) by lia.
    apply lookup_ge_None_2. unfold fresh_pagetable.
    rewrite length_fmap, length_seq. lia. }
  assert (mc' = add_refs outer (mapcounts st)) as ->.
  { apply list_eq. intros k. unfold add_refs. rewrite list_lookup_imap.
    rewrite <- !sel_of_nat, Hmc, drop_0, take_ge by lia. done. }
  unfold fork. rewrite Hcur. simpl. fold outer. rewrite Hrun. simpl.
  unfold set_outer. rewrite Hcur. done.
Qed.

Lemma switch_process_flushed (o : indet) (st st' : state) (p : Z) :
  tlb_ok st →
  switch_process o st p = Some st' →
  (∀ k e, (k < Z.to_nat NR_TLB_ENTRIES)%nat → tlb st' !! k = Some e →
     tlb_valid e = false) ∧
  ∀ vpn, lookup_tlb st' vpn = Some None.
Proof.
  intros Ht. unfold switch_process.
  destruct (find_process _ _ _) as [found |]; simpl; [| done].
  intros Hrun.
  assert (∃ st1, tlb st1 = tlb st ∧
            (t ← flush_tlb (tlb st1) (Z.to_nat NR_TLB_ENTRIES) 0;
             Some (mk_state (procs st1) (processes st1) (current st1) (ptbr st1)
                     t (index st1) (mapcounts st1))) = Some st')
    as (st1 & Htlb & Hrun1).
  { destruct found as [pos |]; simpl in Hrun.
    - by exists (resume st pos).
    - destruct (fork o st p) as [st1 |] eqn:Hfork; simpl in Hrun; [| done].
      exists st1. split; [by eapply fork_tlb | done]. }
  rewrite Htlb in Hrun1.
  destruct (flush_tlb _ _ _) as [t |] eqn:Hflush; simpl in Hrun1; [| done].
  injection Hrun1 as <-. simpl.
  destruct (flushed_tlb (tlb st) t Ht Hflush) as (_ & _ & Hinv & Hmiss).
  by split.
Qed.

(** C7: after switch_process, in the branch that resumes a process of the
    ready queue as in the branch that forks, every entry of the TLB is
    invalid, so a lookup of any [vpn] misses. *)
Theorem switch_process_flushes_tlb (o : indet) (st : state) (p : Z) (parent : process) :
  queue_ok st → tlb_ok st →
  procs st !! current st = Some parent →
  wf_outer (outer_ptes (proc_pagetable parent)) →
  frames_in_range (mapcounts st) (outer_ptes (proc_pagetable parent)) →
  fresh_null o →
  ∃ st', switch_process o st p = Some st' ∧
    (∀ k e, (k < Z.to_nat NR_TLB_ENTRIES)%nat → tlb st' !! k = Some e →
       tlb_valid e = false) ∧
    ∀ vpn, lookup_tlb st' vpn = Some None.
Proof.
  intros Hq Ht Hcur Hwf Hrange Ho.
  assert (∃ st', switch_process o st p = Some st') as [st' Hrun].
  { destruct (flush_tlb_spec (Z.to_nat NR_TLB_ENTRIES) (tlb st) 0)
      as (t & Hflush & _); [unfold tlb_ok in Ht; lia |].
    unfold switch_process.
    destruct (find_process_total (procs st) p (processes st) Hq)
      as [-> | (pos & _ & ->)]; simpl.
    - rewrite (fork_eq o st p parent) by done. simpl. rewrite Hflush. by eexists.
    - rewrite Hflush. by eexists. }
  exists st'. split; [done |]. by eapply switch_process_flushed.
Qed.

Lemma sel_fmap {A B} (g : A → B) (a : list A) (i : Z) :
  sel (g <$> a) i = g <$> sel a i.
Proof. unfold sel. destruct (0 <=? i); [apply list_lookup_fmap | done]. Qed.

Lemma sel_imap {A B} (g : nat → A → B) (a : list A) (i : Z) :
  sel (imap g a) i = g (Z.to_nat i) <$> sel a i.
Proof. unfold sel. destruct (0 <=? i); [apply list_lookup_imap | done]. Qed.

Lemma sel_add_refs (outer : list pte_directory) (mc : list Z) (f : Z) :
  sel (add_refs outer mc) f = bump (count_outer f outer) <$> sel mc f.
Proof.
  unfold add_refs. rewrite sel_imap. unfold sel.
  destruct (Z.leb_spec 0 f); [| done]. by rewrite Z2Nat.id.
Qed.

Lemma walk_inv (outer : list pte_directory) (vpn : Z) (e : pte) :
  walk outer vpn = Some e →
  ∃ pd, sel outer (pd_index_of vpn) = Some (Dir pd) ∧
        sel pd (pte_index_of vpn) = Some e.
Proof.
  unfold walk.
  destruct (sel outer (pd_index_of vpn)) as [[| pd |] |] eqn:Hslot; simpl;
    try done.
  intros He. by exists pd.
Qed.

Lemma walk_parent (outer : list pte_directory) (vpn : Z) (e : pte) :
  walk outer vpn = Some e →
  walk (parent_dir <$> outer) vpn = Some (downgrade e).
Proof.
  intros (pd & Hslot & He)%walk_inv. unfold walk.
  rewrite sel_fmap, Hslot. simpl. by rewrite sel_fmap, He.
Qed.

Lemma walk_child (o : indet) (outer : list pte_directory) (vpn : Z) (e : pte) :
  walk outer vpn = Some e →
  walk (imap (child_dir o) outer) vpn =
    Some (if valid e then shared e
          else ind_pte o (Z.to_nat (pd_index_of vpn)) (Z.to_nat (pte_index_of vpn))).
Proof.
  intros (pd & Hslot & He)%walk_inv. unfold walk.
  rewrite sel_imap, Hslot. simpl. by rewrite sel_imap, He.
Qed.

(** C8: when [pid] names no process of the ready queue, switch_process
    forks: the parent is appended to the ready queue and the new process,
    with that [pid], becomes current.  For every valid entry of the parent
    the child has, at the same slot, an entry for the same frame with the
    same wasWritable value; the entry is not writable in the child nor, from
    then on, in the parent; and the reference count of every frame is
    incremented once for each valid entry of the parent that maps it. *)
Theorem switch_process_fork (o : indet) (st : state) (p : Z) (parent : process) :
  Forall (λ h, ∃ r, procs st !! h = Some r ∧ pid r ≠ p) (processes st) →
  tlb_ok st →
  procs st !! current st = Some parent →
  wf_outer (outer_ptes (proc_pagetable parent)) →
  frames_in_range (mapcounts st) (outer_ptes (proc_pagetable parent)) →
  fresh_null o →
  ∃ st' parent' child,
    switch_process o st p = Some st' ∧
    current st' = length (procs st) ∧ ptbr st' = length (procs st) ∧
    processes st' = processes st ++ [current st] ∧
    procs st' !! current st = Some parent' ∧ pid parent' = pid parent ∧
    procs st' !! length (procs st) = Some child ∧ pid child = p ∧
    (∀ h, h ≠ current st → (h < length (procs st))%nat →
       procs st' !! h = procs st !! h) ∧
    outer_ptes (proc_pagetable parent') =
      parent_dir <$> outer_ptes (proc_pagetable parent) ∧
    outer_ptes (proc_pagetable child) =
      imap (child_dir o) (outer_ptes (proc_pagetable parent)) ∧
    (∀ vpn e,
       walk (outer_ptes (proc_pagetable parent)) vpn = Some e → valid e = true →
       walk (outer_ptes (proc_pagetable parent')) vpn =
         Some (mk_pte true false (pfn e) (private e)) ∧
       walk (outer_ptes (proc_pagetable child)) vpn =
         Some (mk_pte true false (pfn e) (private e))) ∧
    (∀ f m, sel (mapcounts st) f = Some m →
       sel (mapcounts st') f =
         Some (bump (count_outer f (outer_ptes (proc_pagetable parent))) m)) ∧
    (∀ f m, sel (mapcounts st) f = Some m → 0 ≤ m →
       m + Z.of_nat (count_outer f (outer_ptes (proc_pagetable parent))) < 2 ^ 32 →
       sel (mapcounts st') f =
         Some (m + Z.of_nat (count_outer f (outer_ptes (proc_pagetable parent))))).
Proof.
  intros Hq Ht Hcur Hwf Hrange Ho.
  destruct (flush_tlb_spec (Z.to_nat NR_TLB_ENTRIES) (tlb st) 0)
    as (t & Hflush & _); [unfold tlb_ok in Ht; lia |].
  pose proof (lookup_lt_Some _ _ _ Hcur) as Hlt.
  set (outer := outer_ptes (proc_pagetable parent)) in *.
  unfold switch_process.
  rewrite (find_process_none _ _ _ Hq). simpl.
  rewrite (fork_eq o st p parent) by done. simpl. fold outer.
  rewrite Hflush. simpl.
  eexists _, (mk_process (pid parent) (mk_pagetable (parent_dir <$> outer))),
    (mk_process p (mk_pagetable (imap (child_dir o) outer))).
  split; [done |]. simpl.
  assert (Hsel : ∀ f m, sel (mapcounts st) f = Some m →
            sel (add_refs outer (mapcounts st)) f =
              Some (bump (count_outer f outer) m)).
  { intros f m Hm. by rewrite sel_add_refs, Hm. }
  split_and!; try done.
  - rewrite lookup_app_l by (rewrite length_insert; lia).
    by apply list_lookup_insert_eq.
  - apply list_lookup_middle. by rewrite length_insert.
  - intros h Hne Hh. rewrite lookup_app_l by (rewrite length_insert; lia).
    by apply list_lookup_insert_ne.
  - intros vpn e He Hv. split.
    + rewrite (walk_parent outer vpn e He). unfold downgrade, shared.
      by rewrite Hv.
    + rewrite (walk_child o outer vpn e He). unfold shared. by rewrite Hv.
  - intros f m Hm Hpos Hbound. rewrite (Hsel f m Hm). by rewrite bump_exact.
Qed.

Lemma handle_page_fault_never_writable (o : indet) (st : state) (vpn rw : Z)
    (e : pte) (m : Z) :
  pte_of st vpn = Some e → private e = 0 →
  sel (mapcounts st) (pfn e) = Some m →
  handle_page_fault o st vpn rw = Some (st, false).
Proof.
  intros He Hp Hm. rewrite (handle_page_fault_unfold o st vpn rw e He).
  rewrite Hm, Hp. simpl. rewrite andb_false_r. by destruct (rw =? RW_WRITE).
Qed.

Lemma handle_page_fault_read (o : indet) (st : state) (vpn rw : Z) (e : pte) :
  pte_of st vpn = Some e → rw ≠ RW_WRITE →
  handle_page_fault o st vpn rw = Some (st, false).
Proof.
  intros He Hrw. rewrite (handle_page_fault_unfold o st vpn rw e He).
  by destruct (Z.eqb_spec rw RW_WRITE).
Qed.

(** The directory pointer is dereferenced before it is tested. *)
Lemma handle_page_fault_null_directory (o : indet) (st : state) (vpn rw : Z)
    (cur : process) :
  procs st !! ptbr st = Some cur →
  sel (outer_ptes (proc_pagetable cur)) (pd_index_of vpn) = Some NULL →
  handle_page_fault o st vpn rw = None.
Proof.
  intros Hcur Hslot. unfold handle_page_fault, ptbr_outer.
  rewrite Hcur. simpl. by rewrite Hslot.
Qed.

Lemma frames_in_rangeb_sound (mc : list Z) (outer : list pte_directory) :
  frames_in_rangeb mc outer = true → frames_in_range mc outer.
Proof.
  unfold frames_in_rangeb. intros Hb i pd j e Hi Hj Hv.
  rewrite forallb_forall in Hb.
  specialize (Hb (Dir pd)). simpl in Hb.
  rewrite forallb_forall in Hb.
  assert (Hin : In (Dir pd) outer).
  { apply list_elem_of_In, list_elem_of_lookup. by exists i. }
  assert (Hin' : In e pd).
  { apply list_elem_of_In, list_elem_of_lookup. by exists j. }
  specialize (Hb Hin e Hin'). rewrite Hv in Hb. simpl in Hb.
  apply andb_true_iff in Hb as [H1 H2].
  apply Z.leb_le in H1. apply Z.ltb_lt in H2. lia.
Qed.

Lemma wf_outerb_sound (outer : list pte_directory) :
  wf_outerb outer = true → wf_outer outer.
Proof.
  unfold wf_outerb, wf_outer. intros [Hlen Hall]%andb_true_iff.
  apply Nat.eqb_eq in Hlen. split; [done |].
  apply Forall_forall. intros s Hs.
  rewrite forallb_forall in Hall.
  specialize (Hall s Hs).
  destruct s as [| pd |]; simpl; [done | by apply Nat.eqb_eq | done].
Qed.

(** alloc_page when the search for a free frame finds none: the local [pfn]
    is used as it was left, uninitialised. *)
Lemma alloc_page_exhausted (o : indet) (st : state) (vpn rw : Z) :
  pd_index_of vpn < NR_PTES_PER_PAGE →
  find_free (mapcounts st) (Z.to_nat NR_PAGEFRAMES) 0 = Some None →
  alloc_page o st vpn rw = None ∨
  ∃ st',
    alloc_page o st vpn rw = Some (st', ind_pfn o) ∧
    pte_of st' vpn =
      Some (mk_pte true (negb (rw =? RW_READ)) (ind_pfn o)
              (Z.b2z (negb (rw =? RW_READ)))).
Proof.
  intros Hpd Hfind.
  destruct (alloc_page o st vpn rw) as [[st' r] |] eqn:Hrun; [right | by left].
  pose proof (alloc_page_installs o st vpn rw st' r Hpd Hrun) as Hpte.
  destruct (alloc_page_inv o st vpn rw st' r Hpd Hrun)
    as (found & m & cur & slot & pd & Hfind' & -> & _).
  rewrite Hfind in Hfind'. injection Hfind' as <-.
  exists st'. by split.
Qed.

(** * Further properties *)

(** ** lookup_tlb *)

Lemma lookup_tlb_loop_hit (vpn : Z) (t : list tlb_entry) (k : nat) (e : tlb_entry)
    (n : nat) : ∀ i : nat,
  (i ≤ k < i + n)%nat →
  t !! k = Some e → caches vpn e = true →
  (∀ j e', (i ≤ j < k)%nat → t !! j = Some e' → caches vpn e' = false) →
  lookup_tlb_loop t vpn n i = Some (Some (tlb_pfn e)).
Proof.
  induction n as [| n IH]; intros i Hk He Hc Hfirst; simpl; [lia |].
  destruct (decide (i = k)) as [-> | Hne].
  - rewrite He. simpl. unfold caches in Hc.
    apply andb_true_iff in Hc as [-> ->]. done.
  - destruct (lookup_lt_is_Some_2 t i) as [e' He'].
    { apply lookup_lt_Some in He. lia. }
    rewrite He'. simpl.
    specialize (Hfirst i e' ltac:(lia) He') as Hc'. unfold caches in Hc'.
    assert (Hrest : lookup_tlb_loop t vpn n (S i) = Some (Some (tlb_pfn e))).
    { apply IH; [lia | done.. |]. intros j e'' Hj. apply Hfirst. lia. }
    destruct (tlb_valid e'); simpl in *; [by rewrite Hc' | done].
Qed.

(** The scan of the slots [i .. i+n): the first valid entry for [vpn], or
    none. *)
Lemma tlb_scan (vpn : Z) (t : list tlb_entry) (n : nat) : ∀ i : nat,
  (i + n ≤ length t)%nat →
  (∃ k e, (i ≤ k < i + n)%nat ∧ t !! k = Some e ∧ caches vpn e = true ∧
     ∀ j e', (i ≤ j < k)%nat → t !! j = Some e' → caches vpn e' = false) ∨
  (∀ j e, (i ≤ j < i + n)%nat → t !! j = Some e → caches vpn e = false).
Proof.
  induction n as [| n IH]; intros i Hlen.
  { right. intros; lia. }
  destruct (lookup_lt_is_Some_2 t i) as [e He]; [lia |].
  destruct (caches vpn e) eqn:Hc.
  - left. exists i, e. split; [lia |]. split; [done |]. split; [done |].
    intros; lia.
  - destruct (IH (S i)) as [(k & e' & Hk & He' & Hc' & Hfirst) | Hnone]; [lia | |].
    + left. exists k, e'. split; [lia |]. split; [done |]. split; [done |].
      intros j e'' Hj Hj'. destruct (decide (j = i)) as [-> | ?]; [congruence |].
      eapply Hfirst; [| done]. lia.
    + right. intros j e' Hj Hj'.
      destruct (decide (j = i)) as [-> | ?]; [congruence |].
      eapply Hnone; [| done]. lia.
Qed.

(** X1: lookup_tlb returns a frame exactly when one of the first
    [NR_TLB_ENTRIES] slots holds a valid entry for [vpn], and the frame is
    that of the lowest such slot. *)
Theorem lookup_tlb_hit_iff (st : state) (vpn f : Z) :
  tlb_ok st →
  lookup_tlb st vpn = Some (Some f) ↔
  ∃ k e, (k < Z.to_nat NR_TLB_ENTRIES)%nat ∧ tlb st !! k = Some e ∧
    caches vpn e = true ∧ tlb_pfn e = f ∧
    ∀ j e', (j < k)%nat → tlb st !! j = Some e' → caches vpn e' = false.
Proof.
  intros Ht. unfold tlb_ok in Ht. unfold lookup_tlb. split.
  - intros Hrun.
    destruct (tlb_scan vpn (tlb st) (Z.to_nat NR_TLB_ENTRIES) 0)
      as [(k & e & Hk & He & Hc & Hfirst) | Hnone]; [lia | |].
    + rewrite (lookup_tlb_loop_hit vpn (tlb st) k e _ 0 Hk He Hc Hfirst) in Hrun.
      injection Hrun as <-.
      exists k, e. split; [lia |]. split; [done |]. split; [done |].
      split; [done |]. intros j e' Hj. apply Hfirst. lia.
    + rewrite lookup_tlb_loop_miss in Hrun; [done | lia | done].
  - intros (k & e & Hk & He & Hc & <- & Hfirst).
    apply lookup_tlb_loop_hit with (k := k); [lia | done.. |].
    intros j e' Hj. apply Hfirst. lia.
Qed.

(** X2: lookup_tlb misses exactly when none of the first [NR_TLB_ENTRIES]
    slots holds a valid entry for [vpn]; entries whose valid bit is clear
    are skipped whatever their [vpn]. *)
Theorem lookup_tlb_miss_iff (st : state) (vpn : Z) :
  tlb_ok st →
  lookup_tlb st vpn = Some None ↔
  ∀ j e, (j < Z.to_nat NR_TLB_ENTRIES)%nat → tlb st !! j = Some e →
    tlb_valid e = false ∨ tlb_vpn e ≠ vpn.
Proof.
  intros Ht. unfold tlb_ok in Ht. unfold lookup_tlb.
  assert (Hcaches : ∀ e, caches vpn e = false ↔
            tlb_valid e = false ∨ tlb_vpn e ≠ vpn).
  { intros e. unfold caches. destruct (tlb_valid e); simpl.
    - destruct (Z.eqb_spec (tlb_vpn e) vpn) as [Heq | Hne].
      + split; [done | intros [? | ?]; done].
      + split; [by right | done].
    - split; [by left | done]. }
  split.
  - intros Hrun j e Hj He. apply Hcaches.
    destruct (tlb_scan vpn (tlb st) (Z.to_nat NR_TLB_ENTRIES) 0)
      as [(k & e' & Hk & He' & Hc & Hfirst) | Hnone]; [lia | |].
    + by rewrite (lookup_tlb_loop_hit vpn (tlb st) k e' _ 0 Hk He' Hc Hfirst) in Hrun.
    + eapply Hnone; [| done]. lia.
  - intros Hnone. apply lookup_tlb_loop_miss; [lia |].
    intros k e Hk He. apply Hcaches. eapply Hnone; [| done]. lia.
Qed.

Lemma lookup_tlb_loop_ext (vpn : Z) (t t' : list tlb_entry) (n : nat) : ∀ i : nat,
  (∀ k, (i ≤ k < i + n)%nat →
     t !! k = t' !! k ∨
     ∃ e e', t !! k = Some e ∧ t' !! k = Some e' ∧
       caches vpn e = false ∧ caches vpn e' = false) →
  lookup_tlb_loop t vpn n i = lookup_tlb_loop t' vpn n i.
Proof.
  induction n as [| n IH]; intros i Hsame; simpl; [done |].
  assert (Hrest : lookup_tlb_loop t vpn n (S i) = lookup_tlb_loop t' vpn n (S i)).
  { apply IH. intros k Hk. apply Hsame. lia. }
  destruct (Hsame i ltac:(lia)) as [<- | (e & e' & -> & -> & Hc & Hc')].
  - destruct (t !! i) as [e |]; simpl; [| done].
    destruct (tlb_valid e); simpl; [| done].
    by destruct (tlb_vpn e =? vpn).
  - simpl. unfold caches in Hc, Hc'.
    destruct (tlb_valid e), (tlb_valid e'); simpl in *;
      rewrite ?Hc, ?Hc'; done.
Qed.

(** X3: insert_tlb then lookup_tlb.  While the cursor is below
    [NR_TLB_ENTRIES] and no slot below the cursor holds a valid entry for
    [vpn] (as after a miss), the lookup of [vpn] that follows
    insert_tlb(vpn, pfn) returns [pfn]. *)
Theorem insert_tlb_then_lookup (st : state) (vpn pfn : Z) :
  0 ≤ index st < NR_TLB_ENTRIES →
  tlb_ok st →
  (∀ j e, (j < Z.to_nat (index st))%nat → tlb st !! j = Some e →
     caches vpn e = false) →
  ∃ st', insert_tlb st vpn pfn = Some st' ∧
    lookup_tlb st' vpn = Some (Some pfn).
Proof.
  intros Hi Ht Hbelow. unfold tlb_ok in Ht. unfold insert_tlb.
  rewrite upd_Some by lia. simpl.
  eexists. split; [done |]. unfold lookup_tlb. simpl.
  apply (lookup_tlb_loop_hit vpn _ (Z.to_nat (index st)) (mk_tlb true vpn pfn));
    [lia | | |].
  - apply list_lookup_insert_eq. lia.
  - unfold caches. simpl. by rewrite Z.eqb_refl.
  - intros j e Hj. rewrite list_lookup_insert_ne by lia. apply Hbelow. lia.
Qed.

(** X4: insert_tlb(vpn, pfn) leaves the translation of every other page
    [vpn'] as it was, unless the slot at the cursor held a valid entry for
    [vpn'] (which the call evicts). *)
Theorem insert_tlb_keeps_other (st : state) (vpn pfn vpn' : Z) (c : tlb_entry) :
  0 ≤ index st < NR_TLB_ENTRIES →
  tlb_ok st →
  vpn' ≠ vpn →
  tlb st !! Z.to_nat (index st) = Some c → caches vpn' c = false →
  ∃ st', insert_tlb st vpn pfn = Some st' ∧
    lookup_tlb st' vpn' = lookup_tlb st vpn'.
Proof.
  intros Hi Ht Hne Hc Hcc. unfold tlb_ok in Ht. unfold insert_tlb.
  rewrite upd_Some by lia. simpl.
  eexists. split; [done |]. unfold lookup_tlb. simpl.
  apply lookup_tlb_loop_ext. intros k Hk.
  destruct (decide (k = Z.to_nat (index st))) as [-> | Hk'].
  - right. exists (mk_tlb true vpn pfn), c.
    rewrite list_lookup_insert_eq by lia.
    split; [done |]. split; [done |]. split; [| done].
    unfold caches. simpl. by destruct (Z.eqb_spec vpn vpn'); [congruence |].
  - left. by apply list_lookup_insert_ne.
Qed.

(** X5: free_page then lookup_tlb.  When at most one of the first
    [NR_TLB_ENTRIES] slots holds a valid entry for [vpn], the lookup of
    [vpn] that follows free_page(vpn) misses. *)
Theorem free_page_then_lookup (st : state) (vpn : Z) (e : pte) (m : Z) :
  tlb_ok st →
  pte_of st vpn = Some e →
  sel (mapcounts st) (pfn e) = Some m →
  (∀ i j c c', (i < Z.to_nat NR_TLB_ENTRIES)%nat → (j < Z.to_nat NR_TLB_ENTRIES)%nat →
     tlb st !! i = Some c → tlb st !! j = Some c' →
     caches vpn c = true → caches vpn c' = true → i = j) →
  ∃ st', free_page st vpn = Some st' ∧ lookup_tlb st' vpn = Some None.
Proof.
  intros Ht He Hm Huniq. unfold tlb_ok in Ht.
  destruct (pte_of_inv st vpn e He) as (cur & pd & Hcur & Hslot & Hpte).
  destruct (tlb_scan vpn (tlb st) (Z.to_nat NR_TLB_ENTRIES) 0)
    as [(k & c & Hk & Hc & Hhit & Hfirst) | Hnone]; [lia | |].
  - pose proof (invalidate_tlb_hit vpn (tlb st) k c _ 0 Hk Hc Hhit Hfirst) as Hinv.
    eexists. split; [by eapply free_page_eq |].
    unfold lookup_tlb. simpl.
    apply lookup_tlb_loop_miss; [rewrite length_insert; lia |].
    intros j c' Hj Hc'. destruct (decide (j = k)) as [-> | Hne].
    + rewrite list_lookup_insert_eq in Hc' by (apply lookup_lt_Some in Hc; lia).
      by injection Hc' as <-.
    + rewrite list_lookup_insert_ne in Hc' by done.
      destruct (caches vpn c') eqn:Hcc; [| done].
      exfalso. apply Hne. eapply (Huniq j k); (lia || done).
  - pose proof (invalidate_tlb_miss vpn (tlb st) (Z.to_nat NR_TLB_ENTRIES) 0
                  ltac:(lia) Hnone) as Hinv.
    eexists. split; [by eapply free_page_eq |].
    unfold lookup_tlb. simpl.
    apply lookup_tlb_loop_miss; [lia | done].
Qed.

(** ** alloc_page and free_page: what they leave alone *)

Lemma pd_index_far (vpn : Z) :
  2 ≤ NR_PTES_PER_PAGE →
  NR_PTES_PER_PAGE * NR_PTES_PER_PAGE ≤ vpn < 2 ^ 32 →
  NR_PTES_PER_PAGE ≤ pd_index_of vpn.
Proof.
  intros Hnr Hvpn. unfold pd_index_of.
  assert (NR_PTES_PER_PAGE ≤ vpn / NR_PTES_PER_PAGE)
    by (apply Z.div_le_lower_bound; lia).
  assert (vpn / NR_PTES_PER_PAGE < 2 ^ 31)
    by (apply Z.div_lt_upper_bound; lia).
  rewrite to_int_small; lia.
Qed.

Lemma pte_of_with_pte_far (st : state) (cur : process) (slot : pte_directory)
    (pd : list pte) (vpn : Z) (p : pte) (st' : state) (vpn' : Z) :
  procs st !! ptbr st = Some cur →
  sel (outer_ptes (proc_pagetable cur)) (pd_index_of vpn) = Some slot →
  procs st' = with_pte st cur pd vpn p → ptbr st' = ptbr st →
  pd_index_of vpn' ≠ pd_index_of vpn →
  pte_of st' vpn' = pte_of st vpn'.
Proof.
  intros Hcur Hslot Hps Hptbr Hne.
  pose proof (sel_lt _ _ _ Hslot).
  unfold pte_of, ptbr_outer, with_pte in *. rewrite Hps, Hptbr, Hcur.
  rewrite list_lookup_insert_eq by (by eapply lookup_lt_Some).
  simpl. unfold walk. by rewrite sel_insert_ne by lia.
Qed.

Lemma pte_of_with_pte_near (st : state) (cur : process) (slot : pte_directory)
    (pd : list pte) (vpn : Z) (p : pte) (st' : state) (vpn' : Z) :
  procs st !! ptbr st = Some cur →
  sel (outer_ptes (proc_pagetable cur)) (pd_index_of vpn) = Some slot →
  0 ≤ pte_index_of vpn →
  procs st' = with_pte st cur pd vpn p → ptbr st' = ptbr st →
  pd_index_of vpn' = pd_index_of vpn →
  pte_index_of vpn' ≠ pte_index_of vpn →
  pte_of st' vpn' = sel pd (pte_index_of vpn').
Proof.
  intros Hcur Hslot Hpte Hps Hptbr Heq Hne.
  pose proof (sel_lt _ _ _ Hslot).
  unfold pte_of, ptbr_outer, with_pte in *. rewrite Hps, Hptbr.
  rewrite list_lookup_insert_eq by (by eapply lookup_lt_Some).
  simpl. unfold walk. rewrite Heq, sel_insert_eq by done. simpl.
  by rewrite sel_insert_ne by lia.
Qed.

Lemma pte_of_slot (st : state) (cur : process) (pd : list pte) (vpn : Z) :
  procs st !! ptbr st = Some cur →
  sel (outer_ptes (proc_pagetable cur)) (pd_index_of vpn) = Some (Dir pd) →
  pte_of st vpn = sel pd (pte_index_of vpn).
Proof.
  intros Hcur Hslot. unfold pte_of, ptbr_outer, walk.
  rewrite Hcur. simpl. by rewrite Hslot.
Qed.

Lemma with_pte_other_process (st : state) (cur : process) (pd : list pte)
    (vpn : Z) (p : pte) (h : nat) :
  h ≠ ptbr st → with_pte st cur pd vpn p !! h = procs st !! h.
Proof. intros Hne. unfold with_pte. by apply list_lookup_insert_ne. Qed.

(** X6: alloc_page rejects a page beyond the two levels of the table.  For
    a radix of at least 2 and [vpn] ≥ NR_PTES_PER_PAGE², the call returns
    (unsigned) -1 and leaves the whole state as it was, whether or not a
    frame is free. *)
Theorem alloc_page_out_of_range (o : indet) (st : state) (vpn rw : Z) :
  2 ≤ NR_PTES_PER_PAGE →
  mapcounts_ok st →
  NR_PTES_PER_PAGE * NR_PTES_PER_PAGE ≤ vpn < 2 ^ 32 →
  alloc_page o st vpn rw = Some (st, 2 ^ 32 - 1).
Proof.
  intros Hnr Hmc Hvpn. apply alloc_page_bad_index; [done |].
  by apply pd_index_far.
Qed.

(** X7: alloc_page(vpn, rw) changes the page table of the current process
    only.  The other processes are untouched; in the current table, the
    pages of the other directories are as they were and, in the directory of
    [vpn], every entry that existed is as it was. *)
Theorem alloc_page_frame (o : indet) (st : state) (vpn rw : Z)
    (cur : process) (g : Z) :
  mapcounts_ok st →
  procs st !! ptbr st = Some cur →
  wf_outer (outer_ptes (proc_pagetable cur)) →
  0 ≤ pd_index_of vpn < NR_PTES_PER_PAGE →
  0 ≤ g < NR_PAGEFRAMES → sel (mapcounts st) g = Some 0 →
  ∃ st' f,
    alloc_page o st vpn rw = Some (st', f) ∧
    length (procs st') = length (procs st) ∧
    (∀ h, h ≠ ptbr st → procs st' !! h = procs st !! h) ∧
    (∃ cur', procs st' !! ptbr st = Some cur' ∧ pid cur' = pid cur) ∧
    (∀ vpn', pd_index_of vpn' ≠ pd_index_of vpn →
       pte_of st' vpn' = pte_of st vpn') ∧
    (∀ vpn' e', pte_index_of vpn' ≠ pte_index_of vpn →
       pte_of st vpn' = Some e' → pte_of st' vpn' = Some e').
Proof.
  intros Hmc Hcur Hwf Hpd Hg Hfree. unfold mapcounts_ok in Hmc.
  destruct (find_free_total (mapcounts st) (Z.to_nat NR_PAGEFRAMES) 0)
    as [(k & Hk & Hz & Hfirst & Hrun) | [Hnone _]]; [lia | |]; cycle 1.
  { apply sel_Some in Hfree as [_ Hfree].
    exfalso. eapply (Hnone (Z.to_nat g)); [lia | done..]. }
  destruct (wf_outer_slot _ _ Hwf Hpd) as (slot & Hslot & Hwfs).
  destruct (dir_of_wf o vpn slot Hwfs) as (pd & Hdir & Hlen).
  assert (Hsel : sel (mapcounts st) (Z.of_nat k) = Some 0) by by rewrite sel_of_nat.
  pose proof (pte_index_range vpn) as Hpte.
  assert (Hin : 0 ≤ pte_index_of vpn < Z.of_nat (length pd)) by lia.
  pose proof (alloc_page_eq o st vpn rw (Some (Z.of_nat k)) 0 cur slot pd
                Hrun ltac:(lia) Hsel Hcur Hslot Hdir Hin) as Heq.
  simpl in Heq.
  eexists _, (Z.of_nat k). split; [exact Heq |]. simpl.
  split; [unfold with_pte; apply length_insert |].
  split; [intros h Hh; by apply with_pte_other_process |].
  split.
  { eexists. split;
      [unfold with_pte; apply list_lookup_insert_eq; by eapply lookup_lt_Some
      | reflexivity]. }
  split.
  { intros vpn' Hne. by eapply pte_of_with_pte_far. }
  intros vpn' e' Hne He'.
  destruct (decide (pd_index_of vpn' = pd_index_of vpn)) as [Heq' | Hne'].
  - erewrite pte_of_with_pte_near;
      [| exact Hcur | exact Hslot | lia | done | done | done | done].
    destruct (pte_of_inv st vpn' e' He') as (cur0 & pd0 & Hcur0 & Hslot0 & He0).
    rewrite Hcur in Hcur0. injection Hcur0 as <-.
    rewrite Heq', Hslot in Hslot0. injection Hslot0 as ->.
    simpl in Hdir. by injection Hdir as <-.
  - erewrite pte_of_with_pte_far; [done | exact Hcur | exact Hslot | done..].
Qed.

(** X8: free_page(vpn) changes one entry.  The other processes (a process
    sharing the frame among them) are untouched, and every other page of
    the current process keeps its entry. *)
Theorem free_page_frame (st : state) (vpn : Z) (e : pte) (m : Z) :
  tlb_ok st →
  pte_of st vpn = Some e →
  sel (mapcounts st) (pfn e) = Some m →
  ∃ st', free_page st vpn = Some st' ∧
    length (procs st') = length (procs st) ∧
    (∀ h, h ≠ ptbr st → procs st' !! h = procs st !! h) ∧
    (∃ cur cur', procs st !! ptbr st = Some cur ∧
       procs st' !! ptbr st = Some cur' ∧ pid cur' = pid cur) ∧
    (∀ vpn',
       pd_index_of vpn' ≠ pd_index_of vpn ∨ pte_index_of vpn' ≠ pte_index_of vpn →
       pte_of st' vpn' = pte_of st vpn').
Proof.
  intros Ht He Hm. unfold tlb_ok in Ht.
  destruct (pte_of_inv st vpn e He) as (cur & pd & Hcur & Hslot & Hpte).
  destruct (invalidate_tlb_total vpn (Z.to_nat NR_TLB_ENTRIES) (tlb st) 0)
    as (t & Hinv & Hlen); [lia |].
  eexists. split; [by eapply free_page_eq |]. simpl.
  split; [unfold with_pte; apply length_insert |].
  split; [intros h Hh; by apply with_pte_other_process |].
  split.
  { exists cur. eexists. split; [done |].
    split;
      [unfold with_pte; apply list_lookup_insert_eq; by eapply lookup_lt_Some
      | reflexivity]. }
  intros vpn' Hne.
  destruct (decide (pd_index_of vpn' = pd_index_of vpn)) as [Heq' | Hne'].
  - destruct Hne as [? | Hne]; [done |].
    erewrite pte_of_with_pte_near;
      [| exact Hcur | exact Hslot | by eapply sel_lt | done | done | done | done].
    symmetry. apply pte_of_slot with (cur := cur); [done |]. by rewrite Heq'.
  - by eapply pte_of_with_pte_far.
Qed.

(** X9: alloc_page followed by free_page of the same page gives the frame
    back: every reference count is as it was before the allocation, the
    entry of the page is invalid, and the frame is again the one the next
    allocation takes. *)
Theorem alloc_page_then_free (o : indet) (st : state) (vpn rw : Z)
    (cur : process) (g : Z) :
  tlb_ok st → mapcounts_ok st →
  procs st !! ptbr st = Some cur →
  wf_outer (outer_ptes (proc_pagetable cur)) →
  0 ≤ pd_index_of vpn < NR_PTES_PER_PAGE →
  0 ≤ g < NR_PAGEFRAMES → sel (mapcounts st) g = Some 0 →
  ∃ st1 f st2 e,
    alloc_page o st vpn rw = Some (st1, f) ∧
    free_page st1 vpn = Some st2 ∧
    mapcounts st2 = mapcounts st ∧
    pte_of st2 vpn = Some e ∧ valid e = false ∧ writable e = false ∧ pfn e = 0 ∧
    find_free (mapcounts st2) (Z.to_nat NR_PAGEFRAMES) 0 = Some (Some f).
Proof.
  intros Ht Hmc Hcur Hwf Hpd Hg Hfree.
  unfold mapcounts_ok in Hmc. unfold tlb_ok in Ht.
  destruct (find_free_total (mapcounts st) (Z.to_nat NR_PAGEFRAMES) 0)
    as [(k & Hk & Hz & Hfirst & Hrun) | [Hnone _]]; [lia | |]; cycle 1.
  { apply sel_Some in Hfree as [_ Hfree].
    exfalso. eapply (Hnone (Z.to_nat g)); [lia | done..]. }
  destruct (wf_outer_slot _ _ Hwf Hpd) as (slot & Hslot & Hwfs).
  destruct (dir_of_wf o vpn slot Hwfs) as (pd & Hdir & Hlen).
  assert (Hsel : sel (mapcounts st) (Z.of_nat k) = Some 0) by by rewrite sel_of_nat.
  pose proof (pte_index_range vpn) as Hpte.
  assert (Hin : 0 ≤ pte_index_of vpn < Z.of_nat (length pd)) by lia.
  pose proof (alloc_page_eq o st vpn rw (Some (Z.of_nat k)) 0 cur slot pd
                Hrun ltac:(lia) Hsel Hcur Hslot Hdir Hin) as Heq.
  simpl in Heq.
  set (p := mk_pte true (negb (rw =? RW_READ)) (Z.of_nat k)
              (Z.b2z (negb (rw =? RW_READ)))) in *.
  set (st1 := mk_state _ _ _ _ _ _ _) in Heq.
  destruct (invalidate_tlb_total vpn (Z.to_nat NR_TLB_ENTRIES) (tlb st) 0)
    as (t & Hinv & _); [lia |].
  assert (Hcur1 : procs st1 !! ptbr st1 =
            Some (mk_process (pid cur)
                    (mk_pagetable
                       (<[Z.to_nat (pd_index_of vpn) :=
                            Dir (<[Z.to_nat (pte_index_of vpn) := p]> pd)]>
                          (outer_ptes (proc_pagetable cur)))))).
  { unfold st1, with_pte. simpl.
    apply list_lookup_insert_eq. by eapply lookup_lt_Some. }
  pose proof (sel_lt _ _ _ Hslot) as Hpdlen.
  pose proof (free_page_eq st1 vpn t _ (<[Z.to_nat (pte_index_of vpn) := p]> pd) p 1
                Hinv Hcur1 ltac:(by apply sel_insert_eq)
                ltac:(by apply sel_insert_eq)) as Hfree1.
  simpl in Hfree1. rewrite Nat2Z.id in Hfree1.
  specialize (Hfree1 ltac:(rewrite sel_of_nat; apply list_lookup_insert_eq; lia)).
  eexists st1, (Z.of_nat k), _, _. split; [exact Heq |].
  split; [exact Hfree1 |]. simpl.
  assert (Hmc2 : <[k := u32 (1 - 1)]> (<[k := u32 (0 + 1)]> (mapcounts st))
                 = mapcounts st).
  { rewrite list_insert_insert_eq. by apply list_insert_id. }
  split; [exact Hmc2 |].
  split.
  { eapply (pte_of_with_pte st1);
      [exact Hcur1 | by apply sel_insert_eq | | done..].
    by rewrite length_insert. }
  simpl. split; [done |]. split; [done |]. split; [done |].
  by rewrite Hmc2.
Qed.

(** ** Counting the valid entries of a frame *)

Lemma count_ptes_insert (f : Z) (p : pte) : ∀ (pd : list pte) (j : nat) (old : pte),
  pd !! j = Some old →
  (count_ptes f (<[j := p]> pd) + Nat.b2n (maps_frame f old) =
   count_ptes f pd + Nat.b2n (maps_frame f p))%nat.
Proof.
  induction pd as [| e pd IH]; intros j old Hj; [done |].
  destruct j as [| j]; simpl in *.
  - injection Hj as ->. destruct (maps_frame f old), (maps_frame f p); simpl; lia.
  - specialize (IH j old Hj). destruct (maps_frame f e); simpl; lia.
Qed.

Lemma count_outer_insert (f : Z) (s' : pte_directory) :
  ∀ (outer : list pte_directory) (i : nat) (s : pte_directory),
  outer !! i = Some s →
  (count_outer f (<[i := s']> outer) + count_dir f s =
   count_outer f outer + count_dir f s')%nat.
Proof.
  induction outer as [| s0 outer IH]; intros i s Hi; [done |].
  destruct i as [| i]; simpl in *.
  - injection Hi as ->. lia.
  - specialize (IH i s Hi). lia.
Qed.

Lemma count_refs_insert (f : Z) (q' : process) :
  ∀ (ps : list process) (h : nat) (q : process),
  ps !! h = Some q →
  (count_refs f (<[h := q']> ps) + count_outer f (outer_ptes (proc_pagetable q)) =
   count_refs f ps + count_outer f (outer_ptes (proc_pagetable q')))%nat.
Proof.
  induction ps as [| q0 ps IH]; intros h q Hh; [done |].
  destruct h as [| h]; simpl in *.
  - injection Hh as ->. lia.
  - specialize (IH h q Hh). lia.
Qed.

Lemma count_refs_app (f : Z) (ps : list process) (q : process) :
  count_refs f (ps ++ [q]) =
    (count_refs f ps + count_outer f (outer_ptes (proc_pagetable q)))%nat.
Proof. induction ps as [| q0 ps IH]; simpl; lia. Qed.

Lemma count_refs_with_pte (f : Z) (st : state) (cur : process)
    (slot : pte_directory) (pd : list pte) (vpn : Z) (old p : pte) :
  procs st !! ptbr st = Some cur →
  sel (outer_ptes (proc_pagetable cur)) (pd_index_of vpn) = Some slot →
  count_dir f slot = count_ptes f pd →
  sel pd (pte_index_of vpn) = Some old →
  (count_refs f (with_pte st cur pd vpn p) + Nat.b2n (maps_frame f old) =
   count_refs f (procs st) + Nat.b2n (maps_frame f p))%nat.
Proof.
  intros Hcur [_ Hslot]%sel_Some Hdir [_ Hold]%sel_Some. unfold with_pte.
  pose proof (count_refs_insert f
                (mk_process (pid cur)
                   (mk_pagetable
                      (<[Z.to_nat (pd_index_of vpn) :=
                           Dir (<[Z.to_nat (pte_index_of vpn) := p]> pd)]>
                         (outer_ptes (proc_pagetable cur)))))
                (procs st) (ptbr st) cur Hcur) as H1.
  pose proof (count_outer_insert f
                (Dir (<[Z.to_nat (pte_index_of vpn) := p]> pd))
                (outer_ptes (proc_pagetable cur)) _ slot Hslot) as H2.
  pose proof (count_ptes_insert f p pd _ old Hold) as H3.
  simpl in *. lia.
Qed.

Lemma count_ptes_invalid (f : Z) (pd : list pte) :
  Forall (λ e, valid e = false) pd → count_ptes f pd = O.
Proof.
  induction 1 as [| e pd He _ IH]; [done |].
  simpl. unfold maps_frame. by rewrite He.
Qed.

Lemma fresh_dir_invalid (o : indet) (i : nat) :
  fresh_invalid o → Forall (λ e, valid e = false) (fresh_dir o i).
Proof.
  intros Ho. unfold fresh_dir. apply Forall_fmap.
  apply Forall_true. intros j. apply Ho.
Qed.

Lemma dir_of_count (o : indet) (vpn f : Z) (slot : pte_directory) (pd : list pte) :
  fresh_invalid o → dir_of o vpn slot = Some pd →
  count_dir f slot = count_ptes f pd.
Proof.
  intros Ho Hdir. destruct slot as [| pd' |]; simpl in *; simplify_eq; [| done].
  symmetry. apply count_ptes_invalid. by apply fresh_dir_invalid.
Qed.

(** The invariant after the writes of alloc_page: the entry [old] that is
    replaced is not valid, the frame [k] had count 0. *)
Lemma exact_after_alloc (st : state) (cur : process) (slot : pte_directory)
    (pd : list pte) (vpn : Z) (old : pte) (k : nat) (w : bool) (pr : Z)
    (t : list tlb_entry) (ix : Z) :
  refcounts_exact NR_PAGEFRAMES st →
  procs st !! ptbr st = Some cur →
  sel (outer_ptes (proc_pagetable cur)) (pd_index_of vpn) = Some slot →
  (∀ f, count_dir f slot = count_ptes f pd) →
  sel pd (pte_index_of vpn) = Some old → valid old = false →
  mapcounts st !! k = Some 0 →
  refcounts_exact NR_PAGEFRAMES
    (mk_state (with_pte st cur pd vpn (mk_pte true w (Z.of_nat k) pr))
       (processes st) (current st) (ptbr st) t ix
       (<[k := u32 (0 + 1)]> (mapcounts st))).
Proof.
  intros Hinv Hcur Hslot Hdir Hold Hv Hk x Hx. simpl.
  pose proof (count_refs_with_pte x st cur slot pd vpn old
                (mk_pte true w (Z.of_nat k) pr) Hcur Hslot (Hdir x) Hold) as Hbal.
  unfold maps_frame in Hbal. rewrite Hv in Hbal. simpl in Hbal.
  specialize (Hinv x Hx) as Hx0.
  pose proof (lookup_lt_Some _ _ _ Hk) as Hklen.
  rewrite <- (Nat2Z.id k) at 1. rewrite sel_insert by lia.
  destruct (decide (x = Z.of_nat k)) as [-> | Hne].
  - rewrite Z.eqb_refl in Hbal. simpl in Hbal.
    rewrite sel_of_nat, Hk in Hx0. injection Hx0 as Hx0.
    f_equal. change (u32 (0 + 1)) with 1. lia.
  - destruct (Z.eqb_spec (Z.of_nat k) x) as [| _]; [congruence |].
    simpl in Hbal. rewrite Hx0. f_equal. lia.
Qed.

(** The invariant after the writes of free_page on a valid entry. *)
Lemma exact_after_free (st : state) (cur : process) (pd : list pte) (vpn : Z)
    (e : pte) (t : list tlb_entry) (ix : Z) :
  refcounts_exact NR_PAGEFRAMES st →
  procs st !! ptbr st = Some cur →
  sel (outer_ptes (proc_pagetable cur)) (pd_index_of vpn) = Some (Dir pd) →
  sel pd (pte_index_of vpn) = Some e → valid e = true →
  0 ≤ pfn e < NR_PAGEFRAMES →
  Z.of_nat (count_refs (pfn e) (procs st)) < 2 ^ 32 →
  refcounts_exact NR_PAGEFRAMES
    (mk_state (with_pte st cur pd vpn (mk_pte false false 0 (private e)))
       (processes st) (current st) (ptbr st) t ix
       (<[Z.to_nat (pfn e) :=
            u32 (Z.of_nat (count_refs (pfn e) (procs st)) - 1)]> (mapcounts st))).
Proof.
  intros Hinv Hcur Hslot He Hv HF Hfit x Hx. simpl.
  pose proof (count_refs_with_pte x st cur (Dir pd) pd vpn e
                (mk_pte false false 0 (private e)) Hcur Hslot eq_refl He) as Hbal.
  unfold maps_frame in Hbal. rewrite Hv in Hbal. simpl in Hbal.
  specialize (Hinv x Hx) as Hx0.
  pose proof (sel_lt _ _ _ (Hinv (pfn e) HF)) as HFlen.
  rewrite sel_insert by lia.
  destruct (decide (x = pfn e)) as [-> | Hne].
  - rewrite Z.eqb_refl in Hbal. simpl in Hbal.
    f_equal. rewrite u32_small; lia.
  - destruct (Z.eqb_spec (pfn e) x) as [| _]; [congruence |].
    simpl in Hbal. rewrite Hx0. f_equal. lia.
Qed.

(** X10: alloc_page keeps the reference counts exact.  If every count is
    the number of valid entries that map its frame, [vpn] is not mapped, a
    frame is free and the storage malloc returns holds no valid entry, the
    same is true after alloc_page(vpn, rw). *)
Theorem alloc_page_keeps_refcounts (o : indet) (st : state) (vpn rw : Z)
    (cur : process) (g : Z) :
  mapcounts_ok st →
  procs st !! ptbr st = Some cur →
  wf_outer (outer_ptes (proc_pagetable cur)) →
  0 ≤ pd_index_of vpn < NR_PTES_PER_PAGE →
  0 ≤ g < NR_PAGEFRAMES → sel (mapcounts st) g = Some 0 →
  refcounts_exact NR_PAGEFRAMES st →
  (∀ e, pte_of st vpn = Some e → valid e = false) →
  fresh_invalid o →
  ∃ st' f,
    alloc_page o st vpn rw = Some (st', f) ∧
    refcounts_exact NR_PAGEFRAMES st'.
Proof.
  intros Hmc Hcur Hwf Hpd Hg Hfree Hinv Hunmapped Ho. unfold mapcounts_ok in Hmc.
  destruct (find_free_total (mapcounts st) (Z.to_nat NR_PAGEFRAMES) 0)
    as [(k & Hk & Hz & Hfirst & Hrun) | [Hnone _]]; [lia | |]; cycle 1.
  { apply sel_Some in Hfree as [_ Hfree].
    exfalso. eapply (Hnone (Z.to_nat g)); [lia | done..]. }
  destruct (wf_outer_slot _ _ Hwf Hpd) as (slot & Hslot & Hwfs).
  destruct (dir_of_wf o vpn slot Hwfs) as (pd & Hdir & Hlen).
  assert (Hsel : sel (mapcounts st) (Z.of_nat k) = Some 0) by by rewrite sel_of_nat.
  pose proof (pte_index_range vpn) as Hpte.
  assert (Hin : 0 ≤ pte_index_of vpn < Z.of_nat (length pd)) by lia.
  pose proof (alloc_page_eq o st vpn rw (Some (Z.of_nat k)) 0 cur slot pd
                Hrun ltac:(lia) Hsel Hcur Hslot Hdir Hin) as Heq.
  simpl in Heq. rewrite Nat2Z.id in Heq.
  destruct (sel_is_Some pd (pte_index_of vpn) Hin) as [old Hold].
  assert (Hv : valid old = false).
  { destruct slot as [| pd' |]; simpl in Hdir; simplify_eq.
    - apply sel_Some in Hold as [_ Hold].
      by eapply (Forall_lookup_1 _ _ _ _ (fresh_dir_invalid o _ Ho)) in Hold.
    - apply Hunmapped. by rewrite (pte_of_slot st cur pd vpn Hcur Hslot). }
  eexists _, _. split; [exact Heq |].
  eapply exact_after_alloc; [done | exact Hcur | exact Hslot | | exact Hold | done..].
  intros f. by eapply dir_of_count.
Qed.

(** X11: free_page keeps the reference counts exact.  If every count is
    the number of valid entries that map its frame, the same is true after
    free_page of a mapped page. *)
Theorem free_page_keeps_refcounts (st : state) (vpn : Z) (e : pte) :
  tlb_ok st →
  pte_of st vpn = Some e → valid e = true →
  0 ≤ pfn e < NR_PAGEFRAMES →
  refcounts_exact NR_PAGEFRAMES st →
  Z.of_nat (count_refs (pfn e) (procs st)) < 2 ^ 32 →
  ∃ st', free_page st vpn = Some st' ∧ refcounts_exact NR_PAGEFRAMES st'.
Proof.
  intros Ht He Hv HF Hinv Hfit. unfold tlb_ok in Ht.
  destruct (pte_of_inv st vpn e He) as (cur & pd & Hcur & Hslot & Hpte).
  destruct (invalidate_tlb_total vpn (Z.to_nat NR_TLB_ENTRIES) (tlb st) 0)
    as (t & Hinval & Hlen); [lia |].
  eexists. split; [eapply free_page_eq; [done.. | exact (Hinv (pfn e) HF)] |].
  by eapply exact_after_free.
Qed.

(** ** handle_page_fault: copy on write *)

(** The state a resolved write fault leaves, [k] being the frame the search
    finds once the old frame has been released. *)
Lemma handle_page_fault_eq (o : indet) (st : state) (vpn : Z) (e : pte) (m : Z)
    (cur : process) (pd : list pte) (t : list tlb_entry) (k : nat) :
  RW_READ ≠ RW_WRITE →
  pd_index_of vpn < NR_PTES_PER_PAGE →
  procs st !! ptbr st = Some cur →
  sel (outer_ptes (proc_pagetable cur)) (pd_index_of vpn) = Some (Dir pd) →
  sel pd (pte_index_of vpn) = Some e →
  private e ≠ 0 →
  sel (mapcounts st) (pfn e) = Some m → 1 ≤ m →
  invalidate_tlb (tlb st) vpn (Z.to_nat NR_TLB_ENTRIES) 0 = Some t →
  let mc1 := <[Z.to_nat (pfn e) := u32 (m - 1)]> (mapcounts st) in
  let pd1 := <[Z.to_nat (pte_index_of vpn) := mk_pte false false 0 (private e)]> pd in
  let st1 := mk_state (with_pte st cur pd vpn (mk_pte false false 0 (private e)))
               (processes st) (current st) (ptbr st) t (index st) mc1 in
  let cur1 := mk_process (pid cur)
                (mk_pagetable (<[Z.to_nat (pd_index_of vpn) := Dir pd1]>
                                 (outer_ptes (proc_pagetable cur)))) in
  find_free mc1 (Z.to_nat NR_PAGEFRAMES) 0 = Some (Some (Z.of_nat k)) →
  mc1 !! k = Some 0 →
  procs st1 !! ptbr st1 = Some cur1 ∧
  sel (outer_ptes (proc_pagetable cur1)) (pd_index_of vpn) = Some (Dir pd1) ∧
  sel pd1 (pte_index_of vpn) = Some (mk_pte false false 0 (private e)) ∧
  handle_page_fault o st vpn RW_WRITE =
    Some (mk_state (with_pte st1 cur1 pd1 vpn (mk_pte true true (Z.of_nat k) 1))
            (processes st) (current st) (ptbr st) t (index st)
            (<[k := u32 (0 + 1)]> mc1), true).
Proof.
  intros Hrw Hpd Hcur Hslot Hpte Hpriv Hm Hm1 Hinv mc1 pd1 st1 cur1 Hfind Hk.
  pose proof (sel_lt _ _ _ Hslot) as Hpdlen.
  pose proof (sel_lt _ _ _ Hpte) as Hptelen.
  assert (Hcur1 : procs st1 !! ptbr st1 = Some cur1).
  { unfold st1, with_pte. simpl. apply list_lookup_insert_eq.
    by eapply lookup_lt_Some. }
  assert (Hslot1 : sel (outer_ptes (proc_pagetable cur1)) (pd_index_of vpn)
                   = Some (Dir pd1)) by by apply sel_insert_eq.
  assert (Hpte1 : sel pd1 (pte_index_of vpn)
                  = Some (mk_pte false false 0 (private e))) by by apply sel_insert_eq.
  split; [done |]. split; [done |]. split; [done |].
  rewrite (handle_page_fault_unfold o st vpn RW_WRITE e)
    by (by rewrite (pte_of_slot st cur pd vpn Hcur Hslot)).
  rewrite Z.eqb_refl, Hm. simpl.
  destruct (Z.leb_spec 1 m); [| lia].
  destruct (Z.eqb_spec (private e) 0) as [| _]; [done |]. simpl.
  rewrite (free_page_eq st vpn t cur pd e m Hinv Hcur Hslot Hpte Hm). simpl.
  fold mc1. fold st1.
  assert (Hin1 : 0 ≤ pte_index_of vpn < Z.of_nat (length pd1)).
  { unfold pd1. by rewrite length_insert. }
  assert (Hsel1 : sel (mapcounts st1) (default (ind_pfn o) (Some (Z.of_nat k)))
                  = Some 0).
  { unfold st1. simpl. by rewrite sel_of_nat. }
  pose proof (alloc_page_eq o st1 vpn RW_WRITE (Some (Z.of_nat k)) 0 cur1 (Dir pd1) pd1
                Hfind Hpd Hsel1 Hcur1 Hslot1 eq_refl Hin1) as Heq.
  rewrite Heq. simpl.
  destruct (Z.eqb_spec RW_WRITE RW_READ) as [| _]; [congruence |]. simpl.
  by rewrite Nat2Z.id.
Qed.

(** X12: copy on write.  A write fault at a page whose entry is valid, has
    wasWritable set and maps a frame [F] shared by [m] > 1 entries is
    resolved, when a frame is free, by giving the page the smallest-numbered
    free frame [f]: the call returns true, the entry becomes valid and
    writable for [f], the count of [f] goes from 0 to 1 and the count of [F]
    from [m] to [m - 1]; no other count changes and no other process is
    touched, so the other owners keep their mapping of [F]. *)
Theorem handle_page_fault_copy_on_write (o : indet) (st : state) (vpn : Z)
    (e : pte) (m g : Z) :
  RW_READ ≠ RW_WRITE →
  tlb_ok st → mapcounts_ok st →
  pd_index_of vpn < NR_PTES_PER_PAGE →
  pte_of st vpn = Some e → valid e = true → private e ≠ 0 →
  sel (mapcounts st) (pfn e) = Some m → 1 < m < 2 ^ 32 →
  0 ≤ g < NR_PAGEFRAMES → sel (mapcounts st) g = Some 0 →
  ∃ st' f,
    handle_page_fault o st vpn RW_WRITE = Some (st', true) ∧
    pte_of st' vpn = Some (mk_pte true true f 1) ∧
    f ≠ pfn e ∧ 0 ≤ f ≤ g ∧
    sel (mapcounts st) f = Some 0 ∧
    (∀ j, 0 ≤ j < f → sel (mapcounts st) j ≠ Some 0) ∧
    sel (mapcounts st') f = Some 1 ∧
    sel (mapcounts st') (pfn e) = Some (m - 1) ∧
    (∀ j, j ≠ f → j ≠ pfn e → sel (mapcounts st') j = sel (mapcounts st) j) ∧
    (∀ h, h ≠ ptbr st → procs st' !! h = procs st !! h) ∧
    index st' = index st ∧ processes st' = processes st ∧
    current st' = current st ∧ ptbr st' = ptbr st.
Proof.
  intros Hrw Ht Hmc Hpd He Hv Hpriv Hm Hm1 Hg Hfree.
  unfold tlb_ok in Ht. unfold mapcounts_ok in Hmc.
  destruct (pte_of_inv st vpn e He) as (cur & pd & Hcur & Hslot & Hpte).
  destruct (invalidate_tlb_total vpn (Z.to_nat NR_TLB_ENTRIES) (tlb st) 0)
    as (t & Hinv & Hlen); [lia |].
  pose proof (sel_lt _ _ _ Hm) as HFlen.
  pose proof (sel_lt _ _ _ Hfree) as Hglen.
  set (mc1 := <[Z.to_nat (pfn e) := u32 (m - 1)]> (mapcounts st)).
  assert (HF1 : sel mc1 (pfn e) = Some (m - 1)).
  { unfold mc1. rewrite sel_insert_eq by done. by rewrite u32_small by lia. }
  assert (Hother : ∀ j, j ≠ pfn e → sel mc1 j = sel (mapcounts st) j).
  { intros j Hj. unfold mc1. apply sel_insert_ne; lia. }
  assert (Hneq : g ≠ pfn e) by (intros ->; rewrite Hm in Hfree; simplify_eq; lia).
  destruct (find_free_total mc1 (Z.to_nat NR_PAGEFRAMES) 0)
    as [(k & Hk & Hz & Hfirst & Hrun) | [Hnone _]];
    [unfold mc1; rewrite length_insert; lia | |]; cycle 1.
  { exfalso. eapply (Hnone (Z.to_nat g)); [lia | | done].
    pose proof (Hother g Hneq) as Hg1. rewrite Hfree in Hg1.
    by apply sel_Some in Hg1 as [_ Hg1]. }
  assert (Hkg : (k ≤ Z.to_nat g)%nat).
  { destruct (decide (k ≤ Z.to_nat g)%nat) as [| Hgt]; [done |].
    exfalso. eapply (Hfirst (Z.to_nat g)); [lia | | done].
    pose proof (Hother g Hneq) as Hg1. rewrite Hfree in Hg1.
    by apply sel_Some in Hg1 as [_ Hg1]. }
  assert (HkF : Z.of_nat k ≠ pfn e).
  { intros Heq. rewrite <- sel_of_nat, Heq, HF1 in Hz. simplify_eq. lia. }
  destruct (handle_page_fault_eq o st vpn e m cur pd t k Hrw Hpd Hcur Hslot Hpte
              Hpriv Hm ltac:(lia) Hinv Hrun Hz)
    as (Hcur1 & Hslot1 & Hpte1 & Hrun').
  fold mc1 in Hrun', Hcur1.
  eexists _, (Z.of_nat k). split; [exact Hrun' |]. simpl.
  assert (Hklen : (k < length mc1)%nat) by (by eapply lookup_lt_Some).
  split.
  { eapply pte_of_with_pte; [exact Hcur1 | exact Hslot1 | | done..].
    by eapply sel_lt. }
  split; [done |]. split; [lia |].
  split; [rewrite <- Hother by done; by rewrite sel_of_nat |].
  split.
  { intros j Hj [_ Hj0]%sel_Some.
    assert (Hje : j ≠ pfn e).
    { intros ->. apply sel_Some in Hm as [_ Hm']. rewrite Hm' in Hj0.
      simplify_eq. lia. }
    eapply (Hfirst (Z.to_nat j) 0); [lia | | done].
    unfold mc1. rewrite list_lookup_insert_ne by lia. done. }
  split; [rewrite sel_of_nat; apply list_lookup_insert_eq; lia |].
  split.
  { rewrite <- (Nat2Z.id k). rewrite sel_insert_ne by lia. done. }
  split.
  { intros j Hjk HjF. rewrite <- (Nat2Z.id k). rewrite sel_insert_ne by lia.
    by apply Hother. }
  split; [| done].
  intros h Hh. rewrite with_pte_other_process by done. simpl.
  by apply with_pte_other_process.
Qed.

(** X13: the faults handle_page_fault refuses.  When the entry of the page
    and the count of its frame can be read, the call returns false and
    leaves the whole state as it was for every access that is not RW_WRITE,
    for a write to an entry whose wasWritable is 0, and for a write to an
    entry whose frame has count 0. *)
Theorem handle_page_fault_refuses (o : indet) (st : state) (vpn rw : Z)
    (e : pte) (m : Z) :
  pte_of st vpn = Some e →
  sel (mapcounts st) (pfn e) = Some m →
  rw ≠ RW_WRITE ∨ private e = 0 ∨ m ≤ 0 →
  handle_page_fault o st vpn rw = Some (st, false).
Proof.
  intros He Hm Hcase. rewrite (handle_page_fault_unfold o st vpn rw e He).
  destruct (Z.eqb_spec rw RW_WRITE) as [-> | Hne]; [| done].
  rewrite Hm. simpl.
  destruct Hcase as [? | [Hp | Hm0]]; [done | |].
  - rewrite Hp. by rewrite andb_false_r.
  - by destruct (Z.leb_spec 1 m); [lia |].
Qed.

(** X14: a resolved write fault keeps the reference counts exact.  If every
    count is the number of valid entries that map its frame, the faulting
    entry is valid with wasWritable set, and a frame [g] is free or is the
    page's own frame with this entry as its only reference, then
    handle_page_fault returns true and the counts are exact again. *)
Theorem handle_page_fault_keeps_refcounts (o : indet) (st : state) (vpn : Z)
    (e : pte) (g : Z) :
  RW_READ ≠ RW_WRITE →
  tlb_ok st → mapcounts_ok st →
  pd_index_of vpn < NR_PTES_PER_PAGE →
  pte_of st vpn = Some e → valid e = true → private e ≠ 0 →
  0 ≤ pfn e < NR_PAGEFRAMES →
  refcounts_exact NR_PAGEFRAMES st →
  Z.of_nat (count_refs (pfn e) (procs st)) < 2 ^ 32 →
  0 ≤ g < NR_PAGEFRAMES →
  sel (mapcounts st) g = Some 0 ∨ (g = pfn e ∧ sel (mapcounts st) g = Some 1) →
  ∃ st',
    handle_page_fault o st vpn RW_WRITE = Some (st', true) ∧
    refcounts_exact NR_PAGEFRAMES st'.
Proof.
  intros Hrw Ht Hmc Hpd He Hv Hpriv HF Hinv Hfit Hg Hfree.
  unfold tlb_ok in Ht. unfold mapcounts_ok in Hmc.
  destruct (pte_of_inv st vpn e He) as (cur & pd & Hcur & Hslot & Hpte).
  destruct (invalidate_tlb_total vpn (Z.to_nat NR_TLB_ENTRIES) (tlb st) 0)
    as (t & Hinval & Hlen); [lia |].
  set (c := count_refs (pfn e) (procs st)) in *.
  pose proof (Hinv (pfn e) HF) as Hm. fold c in Hm.
  pose proof (sel_lt _ _ _ Hm) as HFlen.
  assert (Hc1 : (1 ≤ c)%nat).
  { pose proof (count_refs_with_pte (pfn e) st cur (Dir pd) pd vpn e
                  (mk_pte false false 0 (private e)) Hcur Hslot eq_refl Hpte) as Hbal.
    unfold maps_frame in Hbal. rewrite Hv, Z.eqb_refl in Hbal. simpl in Hbal.
    fold c in Hbal. lia. }
  set (mc1 := <[Z.to_nat (pfn e) := u32 (Z.of_nat c - 1)]> (mapcounts st)).
  assert (Hg1 : mc1 !! Z.to_nat g = Some 0).
  { unfold mc1. destruct Hfree as [Hfree | [-> Hone]].
    - assert (g ≠ pfn e) by (intros ->; rewrite Hm in Hfree; simplify_eq; lia).
      rewrite list_lookup_insert_ne by lia.
      by apply sel_Some in Hfree as [_ Hfree].
    - rewrite Hm in Hone. injection Hone as ->.
      rewrite list_lookup_insert_eq by lia. done. }
  destruct (find_free_total mc1 (Z.to_nat NR_PAGEFRAMES) 0)
    as [(k & Hk & Hz & Hfirst & Hrun) | [Hnone _]];
    [unfold mc1; rewrite length_insert; lia | |]; cycle 1.
  { exfalso. eapply (Hnone (Z.to_nat g)); [lia | done..]. }
  destruct (handle_page_fault_eq o st vpn e (Z.of_nat c) cur pd t k Hrw Hpd Hcur
              Hslot Hpte Hpriv Hm ltac:(lia) Hinval Hrun Hz)
    as (Hcur1 & Hslot1 & Hpte1 & Hrun').
  eexists. split; [exact Hrun' |].
  pose proof (exact_after_free st cur pd vpn e t (index st)
                Hinv Hcur Hslot Hpte Hv HF Hfit) as Hinv1.
  fold c in Hinv1.
  exact (exact_after_alloc _ _ _ _ vpn _ k true 1 t (index st)
           Hinv1 Hcur1 Hslot1 (λ f, eq_refl) Hpte1 eq_refl Hz).
Qed.

(** ** fork: the two tables *)

Lemma maps_frame_downgrade (f : Z) (e : pte) :
  maps_frame f (downgrade e) = maps_frame f e.
Proof. unfold maps_frame. by rewrite downgrade_valid, downgrade_pfn. Qed.

Lemma count_ptes_downgrade (f : Z) (pd : list pte) :
  count_ptes f (downgrade <$> pd) = count_ptes f pd.
Proof.
  induction pd as [| e pd IH]; [done |].
  csimpl. by rewrite maps_frame_downgrade, IH.
Qed.

Lemma count_outer_parent (f : Z) (outer : list pte_directory) :
  count_outer f (parent_dir <$> outer) = count_outer f outer.
Proof.
  induction outer as [| s outer IH]; [done |].
  csimpl. rewrite IH. f_equal.
  destruct s as [| pd |]; simpl; [done | apply count_ptes_downgrade | done].
Qed.

Lemma count_ptes_imap (f : Z) (pd : list pte) : ∀ h : nat → pte → pte,
  (∀ j e, maps_frame f (h j e) = maps_frame f e) →
  count_ptes f (imap h pd) = count_ptes f pd.
Proof.
  induction pd as [| e pd IH]; intros h Hh; [done |].
  simpl. rewrite Hh. rewrite (IH (h ∘ S)); [done |].
  intros j e'. apply Hh.
Qed.

Lemma count_ptes_child (f : Z) (pd : list pte) (g : nat → pte) :
  (∀ j, valid (g j) = false) →
  count_ptes f (imap (λ j e, if valid e then shared e else g j) pd) =
    count_ptes f pd.
Proof.
  intros Hg. apply count_ptes_imap. intros j e.
  unfold maps_frame. destruct (valid e) eqn:Hv; simpl.
  - by rewrite Hv.
  - by rewrite Hg.
Qed.

Lemma count_outer_imap (f : Z) (outer : list pte_directory) :
  ∀ h : nat → pte_directory → pte_directory,
  (∀ i s, count_dir f (h i s) = count_dir f s) →
  count_outer f (imap h outer) = count_outer f outer.
Proof.
  induction outer as [| s outer IH]; intros h Hh; [done |].
  simpl. rewrite Hh. f_equal. apply IH. intros i s'. apply Hh.
Qed.

Lemma count_outer_child (o : indet) (f : Z) (outer : list pte_directory) :
  fresh_invalid o →
  count_outer f (imap (child_dir o) outer) = count_outer f outer.
Proof.
  intros Ho. apply count_outer_imap. intros i [| pd |]; simpl; [done | | done].
  apply count_ptes_child. intros j. apply Ho.
Qed.

(** X15: switch_process keeps the reference counts exact, when it resumes
    a process as when it forks one (the storage malloc returns holding no
    valid entry, and no count passing 2^32). *)
Theorem switch_process_keeps_refcounts (o : indet) (st : state) (p : Z)
    (parent : process) :
  queue_ok st → tlb_ok st →
  procs st !! current st = Some parent →
  wf_outer (outer_ptes (proc_pagetable parent)) →
  frames_in_range (mapcounts st) (outer_ptes (proc_pagetable parent)) →
  fresh_null o → fresh_invalid o →
  refcounts_exact NR_PAGEFRAMES st →
  (∀ f, 0 ≤ f < NR_PAGEFRAMES →
     Z.of_nat (count_refs f (procs st)) +
     Z.of_nat (count_outer f (outer_ptes (proc_pagetable parent))) < 2 ^ 32) →
  ∃ st', switch_process o st p = Some st' ∧ refcounts_exact NR_PAGEFRAMES st'.
Proof.
  intros Hq Ht Hcur Hwf Hrange Ho Hoi Hinv Hfit.
  destruct (flush_tlb_spec (Z.to_nat NR_TLB_ENTRIES) (tlb st) 0)
    as (t & Hflush & _); [unfold tlb_ok in Ht; lia |].
  unfold switch_process.
  destruct (find_process_total (procs st) p (processes st) Hq)
    as [-> | (pos & _ & ->)]; simpl.
  - rewrite (fork_eq o st p parent) by done. simpl. rewrite Hflush. simpl.
    eexists. split; [done |]. intros f Hf. simpl.
    set (outer := outer_ptes (proc_pagetable parent)) in *.
    rewrite sel_add_refs, (Hinv f Hf). simpl. f_equal.
    rewrite bump_exact by (specialize (Hfit f Hf); lia).
    rewrite count_refs_app. simpl.
    pose proof (count_refs_insert f
                  (mk_process (pid parent) (mk_pagetable (parent_dir <$> outer)))
                  (procs st) (current st) parent Hcur) as Hbal.
    simpl in Hbal. fold outer in Hbal.
    rewrite count_outer_parent in Hbal.
    rewrite count_outer_child by done. lia.
  - rewrite Hflush. simpl. eexists. split; [done |]. exact Hinv.
Qed.

(** X16: the child of a fork has the mappings of its parent and no other.
    When the storage malloc returns holds no valid entry, every valid entry
    of the child is the copy of a valid entry of the parent at the same
    page, and for every frame the two tables hold the same number of valid
    entries. *)
Theorem fork_child_only_parent_mappings (o : indet) (st : state) (p : Z)
    (parent : process) :
  Forall (λ h, ∃ r, procs st !! h = Some r ∧ pid r ≠ p) (processes st) →
  tlb_ok st →
  procs st !! current st = Some parent →
  wf_outer (outer_ptes (proc_pagetable parent)) →
  frames_in_range (mapcounts st) (outer_ptes (proc_pagetable parent)) →
  fresh_null o → fresh_invalid o →
  ∃ st' child,
    switch_process o st p = Some st' ∧
    procs st' !! current st' = Some child ∧ pid child = p ∧
    (∀ vpn e,
       walk (outer_ptes (proc_pagetable child)) vpn = Some e → valid e = true →
       ∃ e0, walk (outer_ptes (proc_pagetable parent)) vpn = Some e0 ∧
         valid e0 = true ∧ e = mk_pte true false (pfn e0) (private e0)) ∧
    (∀ f, count_outer f (outer_ptes (proc_pagetable child)) =
          count_outer f (outer_ptes (proc_pagetable parent))).
Proof.
  intros Hq Ht Hcur Hwf Hrange Ho Hoi.
  destruct (flush_tlb_spec (Z.to_nat NR_TLB_ENTRIES) (tlb st) 0)
    as (t & Hflush & _); [unfold tlb_ok in Ht; lia |].
  set (outer := outer_ptes (proc_pagetable parent)) in *.
  unfold switch_process.
  rewrite (find_process_none _ _ _ Hq). simpl.
  rewrite (fork_eq o st p parent) by done. simpl. fold outer.
  rewrite Hflush. simpl.
  eexists _, (mk_process p (mk_pagetable (imap (child_dir o) outer))).
  split; [done |]. simpl.
  split; [apply list_lookup_middle; by rewrite length_insert |].
  split; [done |]. split; [| intros f; by apply count_outer_child].
  intros vpn e He Hv.
  destruct (walk_inv _ _ _ He) as (cd & Hslot & Hpte).
  rewrite sel_imap in Hslot.
  destruct (sel outer (pd_index_of vpn)) as [[| pd |] |] eqn:Hps;
    simpl in Hslot; try done.
  injection Hslot as <-. rewrite sel_imap in Hpte.
  destruct (sel pd (pte_index_of vpn)) as [e0 |] eqn:He0; simpl in Hpte; [| done].
  injection Hpte as <-.
  destruct (valid e0) eqn:Hv0; [| by rewrite Hoi in Hv].
  exists e0. split; [| split; [done |]].
  - unfold walk. rewrite Hps. done.
  - unfold shared. by rewrite Hv0.
Qed.

Lemma find_process_app (ps : list process) (p : Z) (h : nat) (r : process)
    (q2 : list nat) : ∀ q1 : list nat,
  Forall (λ h', ∃ r', ps !! h' = Some r' ∧ pid r' ≠ p) q1 →
  ps !! h = Some r → pid r = p →
  find_process ps (q1 ++ h :: q2) p = Some (Some h).
Proof.
  induction 1 as [| h' q1 (r' & Hr' & Hp') _ IH]; intros Hr Hp; simpl.
  - rewrite Hr. simpl. by destruct (Z.eqb_spec (pid r) p).
  - rewrite Hr'. simpl. destruct (Z.eqb_spec (pid r') p); [done |]. by apply IH.
Qed.

Lemma list_del_app_last (h : nat) : ∀ q : list nat,
  Forall (λ h', h' ≠ h) q → list_del h (q ++ [h]) = q.
Proof.
  induction 1 as [| h' q Hne _ IH]; simpl.
  - by rewrite Nat.eqb_refl.
  - destruct (Nat.eqb_spec h' h); [done |]. by rewrite IH.
Qed.

(** X17: fork, then switch back.  When no process of the ready queue has
    the new [pid] or the [pid] of the current process, switch_process(pid)
    followed by switch_process of the parent's pid makes the parent current
    again, with [ptbr] at its table, and leaves the child at the tail of the
    ready queue; the second call changes no page table and no reference
    count. *)
Theorem fork_then_switch_back (o o' : indet) (st : state) (p : Z)
    (parent : process) :
  Forall (λ h, ∃ r, procs st !! h = Some r ∧ pid r ≠ p ∧ pid r ≠ pid parent)
    (processes st) →
  tlb_ok st →
  procs st !! current st = Some parent →
  wf_outer (outer_ptes (proc_pagetable parent)) →
  frames_in_range (mapcounts st) (outer_ptes (proc_pagetable parent)) →
  fresh_null o →
  ∃ st1 st2 parent',
    switch_process o st p = Some st1 ∧
    switch_process o' st1 (pid parent) = Some st2 ∧
    current st1 = length (procs st) ∧
    current st2 = current st ∧ ptbr st2 = current st ∧
    processes st2 = processes st ++ [current st1] ∧
    procs st2 = procs st1 ∧ mapcounts st2 = mapcounts st1 ∧
    procs st2 !! current st = Some parent' ∧ pid parent' = pid parent ∧
    outer_ptes (proc_pagetable parent') =
      parent_dir <$> outer_ptes (proc_pagetable parent).
Proof.
  intros Hq Ht Hcur Hwf Hrange Ho. unfold tlb_ok in Ht.
  destruct (flush_tlb_spec (Z.to_nat NR_TLB_ENTRIES) (tlb st) 0)
    as (t & Hflush & Htlen & _); [lia |].
  destruct (flush_tlb_spec (Z.to_nat NR_TLB_ENTRIES) t 0)
    as (t' & Hflush' & _); [lia |].
  pose proof (lookup_lt_Some _ _ _ Hcur) as Hlt.
  set (outer := outer_ptes (proc_pagetable parent)) in *.
  set (parent' := mk_process (pid parent) (mk_pagetable (parent_dir <$> outer))).
  set (child := mk_process p (mk_pagetable (imap (child_dir o) outer))).
  set (procs1 := <[current st := parent']> (procs st) ++ [child]).
  assert (Hq0 : Forall (λ h, ∃ r, procs st !! h = Some r ∧ pid r ≠ p) (processes st)).
  { eapply Forall_impl; [| exact Hq]. intros h (r & Hr & Hp & _). by exists r. }
  assert (Hparent' : procs1 !! current st = Some parent').
  { unfold procs1. rewrite lookup_app_l by (rewrite length_insert; lia).
    apply list_lookup_insert_eq. lia. }
  assert (Hq1 : Forall (λ h, ∃ r, procs1 !! h = Some r ∧ pid r ≠ pid parent)
                  (processes st)).
  { eapply Forall_impl; [| exact Hq]. intros h (r & Hr & _ & Hp).
    exists r. split; [| done]. unfold procs1.
    rewrite lookup_app_l
      by (rewrite length_insert; by eapply lookup_lt_Some).
    rewrite list_lookup_insert_ne; [done |]. intros <-. congruence. }
  assert (Hnot : Forall (λ h, h ≠ current st) (processes st)).
  { eapply Forall_impl; [| exact Hq]. intros h (r & Hr & _ & Hp) ->. congruence. }
  exists (mk_state procs1 (processes st ++ [current st])
            (length (procs st)) (length (procs st)) t (index st)
            (add_refs outer (mapcounts st))).
  eexists. exists parent'.
  split.
  { unfold switch_process. rewrite (find_process_none _ _ _ Hq0). simpl.
    rewrite (fork_eq o st p parent) by done. simpl. fold outer.
    by rewrite Hflush. }
  split.
  { unfold switch_process. simpl.
    rewrite (find_process_app procs1 (pid parent) (current st) parent' []
               (processes st) Hq1 Hparent' eq_refl).
    simpl. rewrite Hflush'. simpl. done. }
  simpl. split_and!; try done.
  by rewrite list_del_app_last.
Qed.

(** ** The condition a disciplined driver maintains *)

Lemma u32_range (x : Z) : 0 ≤ u32 x < 2 ^ 32.
Proof. unfold u32. apply Z.mod_pos_bound. lia. Qed.

Lemma frames_valid_in_range (mc : list Z) (outer : list pte_directory) :
  (Z.to_nat NR_PAGEFRAMES ≤ length mc)%nat →
  frames_valid outer → frames_in_range mc outer.
Proof.
  intros Hlen Hv i pd j e Hi Hj He. specialize (Hv i pd j e Hi Hj He). lia.
Qed.

(** The part of [good] that is about sizes and shapes, after the entry of
    [vpn] has been written and the counts updated. *)
Lemma good_with_pte (st : state) (cur : process) (slot : pte_directory)
    (pd : list pte) (vpn : Z) (p : pte) (t : list tlb_entry) (mc' : list Z) :
  good st →
  procs st !! ptbr st = Some cur →
  sel (outer_ptes (proc_pagetable cur)) (pd_index_of vpn) = Some slot →
  length pd = Z.to_nat NR_PTES_PER_PAGE →
  (∀ j e, pd !! j = Some e → valid e = true → 0 ≤ pfn e < NR_PAGEFRAMES) →
  (valid p = true → 0 ≤ pfn p < NR_PAGEFRAMES) →
  (Z.to_nat NR_TLB_ENTRIES ≤ length t)%nat →
  length mc' = length (mapcounts st) →
  Forall (λ m, 0 ≤ m < 2 ^ 32) mc' →
  refcounts_exact NR_PAGEFRAMES
    (mk_state (with_pte st cur pd vpn p) (processes st) (current st) (ptbr st)
       t (index st) mc') →
  good (mk_state (with_pte st cur pd vpn p) (processes st) (current st) (ptbr st)
          t (index st) mc').
Proof.
  intros (Hptbr & Hcurrent & Hq & Ht & Hmc & Hu32 & Hall & Hinv)
    Hcur Hslot Hlen Hpd Hp Htlen Hmclen Hu32' Hinv'.
  pose proof (Forall_lookup_1 _ _ _ _ Hall Hcur) as [[Holen Hwf] Hfr].
  pose proof (sel_lt _ _ _ Hslot) as Hpdi.
  unfold good. simpl.
  assert (Hplen : length (with_pte st cur pd vpn p) = length (procs st)).
  { unfold with_pte. apply length_insert. }
  split; [done |].
  split; [apply lookup_lt_is_Some; rewrite Hplen; by apply lookup_lt_is_Some |].
  split.
  { unfold queue_ok in *. simpl. eapply Forall_impl; [| exact Hq].
    intros h Hh. apply lookup_lt_is_Some. rewrite Hplen.
    by apply lookup_lt_is_Some. }
  split; [done |].
  split; [unfold mapcounts_ok in *; simpl; lia |].
  split; [done |].
  split; [| done].
  unfold with_pte. apply Forall_insert; [done |]. split; simpl.
  - split; [by rewrite length_insert |].
    apply Forall_insert; [done |]. simpl. by rewrite length_insert.
  - intros i pd0 j e Hi Hj Hv.
    destruct (decide (i = Z.to_nat (pd_index_of vpn))) as [-> | Hne].
    + rewrite list_lookup_insert_eq in Hi by lia. injection Hi as <-.
      destruct (decide (j = Z.to_nat (pte_index_of vpn))) as [-> | Hnej].
      * rewrite list_lookup_insert_eq in Hj by (by eapply lookup_lt_Some in Hj;
          rewrite length_insert in Hj).
        injection Hj as <-. by apply Hp.
      * rewrite list_lookup_insert_ne in Hj by done. by eapply Hpd.
    + rewrite list_lookup_insert_ne in Hi by done. by eapply Hfr.
Qed.

Lemma good_after_alloc (st : state) (cur : process) (slot : pte_directory)
    (pd : list pte) (vpn : Z) (old : pte) (k : nat) (w : bool) (pr : Z) :
  good st →
  procs st !! ptbr st = Some cur →
  sel (outer_ptes (proc_pagetable cur)) (pd_index_of vpn) = Some slot →
  (∀ f, count_dir f slot = count_ptes f pd) →
  length pd = Z.to_nat NR_PTES_PER_PAGE →
  (∀ j e, pd !! j = Some e → valid e = true → 0 ≤ pfn e < NR_PAGEFRAMES) →
  sel pd (pte_index_of vpn) = Some old → valid old = false →
  mapcounts st !! k = Some 0 → (k < Z.to_nat NR_PAGEFRAMES)%nat →
  good (mk_state (with_pte st cur pd vpn (mk_pte true w (Z.of_nat k) pr))
          (processes st) (current st) (ptbr st) (tlb st) (index st)
          (<[k := u32 (0 + 1)]> (mapcounts st))).
Proof.
  intros Hgood Hcur Hslot Hdir Hlen Hpd Hold Hv Hk HkF.
  pose proof Hgood as (_ & _ & _ & Ht & _ & Hu32 & _ & Hinv).
  eapply good_with_pte; try done.
  - simpl. lia.
  - apply length_insert.
  - apply Forall_insert; [done | apply u32_range].
  - by eapply exact_after_alloc.
Qed.

Lemma good_after_free (st : state) (cur : process) (pd : list pte) (vpn : Z)
    (e : pte) (t : list tlb_entry) :
  good st →
  procs st !! ptbr st = Some cur →
  sel (outer_ptes (proc_pagetable cur)) (pd_index_of vpn) = Some (Dir pd) →
  sel pd (pte_index_of vpn) = Some e → valid e = true →
  (Z.to_nat NR_TLB_ENTRIES ≤ length t)%nat →
  0 ≤ pfn e < NR_PAGEFRAMES ∧
  sel (mapcounts st) (pfn e) = Some (Z.of_nat (count_refs (pfn e) (procs st))) ∧
  good (mk_state (with_pte st cur pd vpn (mk_pte false false 0 (private e)))
          (processes st) (current st) (ptbr st) t (index st)
          (<[Z.to_nat (pfn e) :=
               u32 (Z.of_nat (count_refs (pfn e) (procs st)) - 1)]> (mapcounts st))).
Proof.
  intros Hgood Hcur Hslot Hpte Hv Htlen.
  pose proof Hgood as (_ & _ & _ & _ & _ & Hu32 & Hall & Hinv).
  pose proof (Forall_lookup_1 _ _ _ _ Hall Hcur) as [[Holen Hwf] Hfr].
  pose proof Hslot as [_ Hslot']%sel_Some.
  pose proof Hpte as [_ Hpte']%sel_Some.
  pose proof (Hfr _ _ _ _ Hslot' Hpte' Hv) as HF.
  pose proof (Hinv (pfn e) HF) as Hm.
  assert (Hfit : Z.of_nat (count_refs (pfn e) (procs st)) < 2 ^ 32).
  { apply sel_Some in Hm as [_ Hm'].
    pose proof (Forall_lookup_1 _ _ _ _ Hu32 Hm'). simpl in *. lia. }
  split; [done |]. split; [done |].
  eapply good_with_pte; try done.
  - by eapply (Forall_lookup_1 _ _ _ _ Hwf Hslot').
  - intros j e' Hj. by eapply Hfr.
  - apply length_insert.
  - apply Forall_insert; [done | apply u32_range].
  - by eapply exact_after_free.
Qed.

Lemma good_current (st : state) :
  good st →
  ∃ cur, procs st !! ptbr st = Some cur ∧ procs st !! current st = Some cur ∧
    wf_outer (outer_ptes (proc_pagetable cur)) ∧
    frames_valid (outer_ptes (proc_pagetable cur)).
Proof.
  intros (Hptbr & [cur Hcur] & _ & _ & _ & _ & Hall & _).
  pose proof (Forall_lookup_1 _ _ _ _ Hall Hcur) as [Hwf Hfr].
  exists cur. by rewrite Hptbr.
Qed.

Lemma alloc_page_good (o : indet) (st : state) (vpn rw : Z) :
  fresh_invalid o → good st → guard st (Alloc vpn rw) →
  ∃ st' f, alloc_page o st vpn rw = Some (st', f) ∧ good st'.
Proof.
  intros Ho Hgood (Hpd & Hunmapped & g & Hg & Hfree).
  destruct (good_current st Hgood) as (cur & Hcur & _ & Hwf & Hfr).
  pose proof Hgood as (_ & _ & _ & _ & Hmc & _).
  unfold mapcounts_ok in Hmc.
  destruct (find_free_total (mapcounts st) (Z.to_nat NR_PAGEFRAMES) 0)
    as [(k & Hk & Hz & Hfirst & Hrun) | [Hnone _]]; [lia | |]; cycle 1.
  { apply sel_Some in Hfree as [_ Hfree].
    exfalso. eapply (Hnone (Z.to_nat g)); [lia | done..]. }
  destruct (wf_outer_slot _ _ Hwf Hpd) as (slot & Hslot & Hwfs).
  destruct (dir_of_wf o vpn slot Hwfs) as (pd & Hdir & Hlen).
  assert (Hsel : sel (mapcounts st) (Z.of_nat k) = Some 0) by by rewrite sel_of_nat.
  pose proof (pte_index_range vpn) as Hpte.
  assert (Hin : 0 ≤ pte_index_of vpn < Z.of_nat (length pd)) by lia.
  pose proof (alloc_page_eq o st vpn rw (Some (Z.of_nat k)) 0 cur slot pd
                Hrun ltac:(lia) Hsel Hcur Hslot Hdir Hin) as Heq.
  simpl in Heq. rewrite Nat2Z.id in Heq.
  destruct (sel_is_Some pd (pte_index_of vpn) Hin) as [old Hold].
  assert (Hentries : ∀ j e, pd !! j = Some e → valid e = true →
            0 ≤ pfn e < NR_PAGEFRAMES).
  { intros j e Hj Hv. destruct slot as [| pd' |]; simpl in Hdir; simplify_eq.
    - eapply (Forall_lookup_1 _ _ _ _ (fresh_dir_invalid o _ Ho)) in Hj.
      simpl in Hj. congruence.
    - apply sel_Some in Hslot as [_ Hslot]. by eapply Hfr. }
  assert (Hv : valid old = false).
  { destruct slot as [| pd' |]; simpl in Hdir; simplify_eq.
    - apply sel_Some in Hold as [_ Hold].
      by eapply (Forall_lookup_1 _ _ _ _ (fresh_dir_invalid o _ Ho)) in Hold.
    - apply Hunmapped. by rewrite (pte_of_slot st cur pd vpn Hcur Hslot). }
  eexists _, _. split; [exact Heq |].
  eapply good_after_alloc;
    [done | exact Hcur | exact Hslot | | done | done | exact Hold | done | done | lia].
  intros f. by eapply dir_of_count.
Qed.

Lemma free_page_good (st : state) (vpn : Z) :
  good st → guard st (Free vpn) →
  ∃ st', free_page st vpn = Some st' ∧ good st'.
Proof.
  intros Hgood (e & He & Hv).
  pose proof Hgood as (_ & _ & _ & Ht & _). unfold tlb_ok in Ht.
  destruct (pte_of_inv st vpn e He) as (cur & pd & Hcur & Hslot & Hpte).
  destruct (invalidate_tlb_total vpn (Z.to_nat NR_TLB_ENTRIES) (tlb st) 0)
    as (t & Hinval & Hlen); [lia |].
  destruct (good_after_free st cur pd vpn e t Hgood Hcur Hslot Hpte Hv ltac:(lia))
    as (HF & Hm & Hgood').
  eexists. split; [by eapply free_page_eq |]. exact Hgood'.
Qed.

Lemma fault_good (o : indet) (st : state) (vpn rw : Z) :
  RW_READ ≠ RW_WRITE →
  good st → guard st (Fault vpn rw) →
  ∃ st' b, handle_page_fault o st vpn rw = Some (st', b) ∧ good st'.
Proof.
  intros Hrw Hgood (e & He & Hv & Hres).
  pose proof Hgood as (_ & _ & _ & Ht & Hmc & _).
  unfold tlb_ok in Ht. unfold mapcounts_ok in Hmc.
  destruct (pte_of_inv st vpn e He) as (cur & pd & Hcur & Hslot & Hpte).
  destruct (invalidate_tlb_total vpn (Z.to_nat NR_TLB_ENTRIES) (tlb st) 0)
    as (t & Hinval & Hlen); [lia |].
  destruct (good_after_free st cur pd vpn e t Hgood Hcur Hslot Hpte Hv ltac:(lia))
    as (HF & Hm & Hgood1).
  set (c := count_refs (pfn e) (procs st)) in *.
  destruct (decide (rw = RW_WRITE ∧ private e ≠ 0)) as [[-> Hpriv] | Hno].
  - pose proof (sel_lt _ _ _ Hm) as HFlen.
    assert (Hc1 : (1 ≤ c)%nat).
    { pose proof (count_refs_with_pte (pfn e) st cur (Dir pd) pd vpn e
                    (mk_pte false false 0 (private e)) Hcur Hslot eq_refl Hpte) as Hbal.
      unfold maps_frame in Hbal. rewrite Hv, Z.eqb_refl in Hbal. simpl in Hbal.
      fold c in Hbal. lia. }
    set (mc1 := <[Z.to_nat (pfn e) := u32 (Z.of_nat c - 1)]> (mapcounts st)) in *.
    assert (∃ g, (g < Z.to_nat NR_PAGEFRAMES)%nat ∧ mc1 !! g = Some 0)
      as (g & Hg & Hg1).
    { destruct (Hres eq_refl Hpriv) as [(g & Hg & Hfree) | Hone].
      - exists (Z.to_nat g). split; [lia |]. unfold mc1.
        assert (g ≠ pfn e) by (intros ->; rewrite Hm in Hfree; simplify_eq; lia).
        rewrite list_lookup_insert_ne by lia.
        by apply sel_Some in Hfree as [_ Hfree].
      - exists (Z.to_nat (pfn e)). split; [lia |]. unfold mc1.
        rewrite Hm in Hone. injection Hone as ->.
        rewrite list_lookup_insert_eq by lia. done. }
    destruct (find_free_total mc1 (Z.to_nat NR_PAGEFRAMES) 0)
      as [(k & Hk & Hz & Hfirst & Hrun) | [Hnone _]];
      [unfold mc1; rewrite length_insert; lia | |]; cycle 1.
    { exfalso. eapply (Hnone g); [lia | done..]. }
    pose proof Hgood as (_ & _ & _ & _ & _ & _ & Hall & _).
    pose proof (Forall_lookup_1 _ _ _ _ Hall Hcur) as [[Holen _] _].
    assert (Hpd : pd_index_of vpn < NR_PTES_PER_PAGE).
    { apply sel_lt in Hslot. lia. }
    destruct (handle_page_fault_eq o st vpn e (Z.of_nat c) cur pd t k Hrw Hpd Hcur
                Hslot Hpte Hpriv Hm ltac:(lia) Hinval Hrun Hz)
      as (Hcur1 & Hslot1 & Hpte1 & Hrun').
    eexists _, _. split; [exact Hrun' |].
    pose proof Hgood1 as (_ & _ & _ & _ & _ & _ & Hall1 & _).
    pose proof (Forall_lookup_1 _ _ _ _ Hall1 Hcur1) as [[_ Hwf1] Hfr1].
    pose proof Hslot1 as [_ Hslot1']%sel_Some.
    exact (good_after_alloc _ _ _ _ vpn _ k true 1 Hgood1 Hcur1 Hslot1
             (λ f, eq_refl)
             (Forall_lookup_1 _ _ _ _ Hwf1 Hslot1')
             (λ j e' Hj Hv', Hfr1 _ _ _ _ Hslot1' Hj Hv')
             Hpte1 eq_refl Hz ltac:(lia)).
  - exists st, false. split; [| done].
    destruct (decide (rw = RW_WRITE)) as [Heq | Hne];
      [| by eapply handle_page_fault_read].
    destruct (decide (private e = 0)) as [Hp | Hp];
      [by eapply handle_page_fault_never_writable |].
    exfalso. by apply Hno.
Qed.

Lemma bump_range (k : nat) (m : Z) : 0 ≤ m < 2 ^ 32 → 0 ≤ bump k m < 2 ^ 32.
Proof.
  intros Hm. destruct k as [| k]; [done |].
  unfold bump. simpl. apply u32_range.
Qed.

Lemma count_ptes_le (f : Z) (pd : list pte) : (count_ptes f pd ≤ length pd)%nat.
Proof.
  induction pd as [| e pd IH]; simpl; [lia |].
  destruct (maps_frame f e); lia.
Qed.

Lemma count_outer_le (f : Z) (outer : list pte_directory) :
  Forall wf_dir outer →
  (count_outer f outer ≤ length outer * Z.to_nat NR_PTES_PER_PAGE)%nat.
Proof.
  induction 1 as [| s outer Hs _ IH]; simpl; [lia |].
  assert (count_dir f s ≤ Z.to_nat NR_PTES_PER_PAGE)%nat.
  { destruct s as [| pd |]; simpl in *; [lia | | lia].
    rewrite <- Hs. apply count_ptes_le. }
  lia.
Qed.

Lemma count_proc_le (f : Z) (q : process) :
  proc_ok q →
  Z.of_nat (count_outer f (outer_ptes (proc_pagetable q)))
    ≤ NR_PTES_PER_PAGE * NR_PTES_PER_PAGE.
Proof.
  intros [[Hlen Hwf] _].
  pose proof (count_outer_le f _ Hwf) as Hle. rewrite Hlen in Hle. nia.
Qed.

Lemma count_refs_le (f : Z) (ps : list process) :
  Forall proc_ok ps →
  Z.of_nat (count_refs f ps)
    ≤ Z.of_nat (length ps) * (NR_PTES_PER_PAGE * NR_PTES_PER_PAGE).
Proof.
  induction 1 as [| q ps Hq _ IH]; simpl; [lia |].
  pose proof (count_proc_le f q Hq). nia.
Qed.

Lemma Forall_list_del (P : nat → Prop) (h : nat) (q : list nat) :
  Forall P q → Forall P (list_del h q).
Proof.
  induction 1 as [| h' q Hh' Hq IH]; simpl; [constructor |].
  destruct (h' =? h)%nat; [done | by constructor].
Qed.

Lemma proc_ok_parent (i : Z) (parent : process) :
  proc_ok parent →
  proc_ok (mk_process i
             (mk_pagetable (parent_dir <$> outer_ptes (proc_pagetable parent)))).
Proof.
  intros [[Hlen Hwf] Hfr]. split; simpl.
  - split; [by rewrite length_fmap |].
    apply Forall_fmap. eapply Forall_impl; [| exact Hwf].
    intros [| pd |]; simpl; [done | | done]. by rewrite length_fmap.
  - intros k pd j e Hk Hj Hv.
    rewrite list_lookup_fmap in Hk.
    destruct (outer_ptes (proc_pagetable parent) !! k) as [[| pd0 |] |] eqn:Hk0;
      simpl in Hk; try done.
    injection Hk as <-. rewrite list_lookup_fmap in Hj.
    destruct (pd0 !! j) as [e0 |] eqn:Hj0; simpl in Hj; [| done].
    injection Hj as <-. rewrite downgrade_valid in Hv. rewrite downgrade_pfn.
    by eapply Hfr.
Qed.

Lemma proc_ok_child (o : indet) (i : Z) (parent : process) :
  fresh_invalid o →
  proc_ok parent →
  proc_ok (mk_process i
             (mk_pagetable
                (imap (child_dir o) (outer_ptes (proc_pagetable parent))))).
Proof.
  intros Ho [[Hlen Hwf] Hfr]. split; simpl.
  - split; [by rewrite length_imap |].
    apply Forall_lookup_2. intros k s Hk. rewrite list_lookup_imap in Hk.
    destruct (outer_ptes (proc_pagetable parent) !! k) as [s0 |] eqn:Hk0;
      simpl in Hk; [| done].
    injection Hk as <-.
    pose proof (Forall_lookup_1 _ _ _ _ Hwf Hk0) as Hs0.
    destruct s0 as [| pd |]; simpl in *; [done | | done].
    by rewrite length_imap.
  - intros k pd j e Hk Hj Hv.
    rewrite list_lookup_imap in Hk.
    destruct (outer_ptes (proc_pagetable parent) !! k) as [[| pd0 |] |] eqn:Hk0;
      simpl in Hk; try done.
    injection Hk as <-. rewrite list_lookup_imap in Hj.
    destruct (pd0 !! j) as [e0 |] eqn:Hj0; simpl in Hj; [| done].
    injection Hj as <-.
    destruct (valid e0) eqn:Hv0; [| by rewrite Ho in Hv].
    simpl. by eapply Hfr.
Qed.

Lemma switch_good (o : indet) (st : state) (p : Z) :
  fresh_null o → fresh_invalid o →
  good st → guard st (Switch p) →
  ∃ st', switch_process o st p = Some st' ∧ good st'.
Proof.
  intros Ho Hoi Hgood Hfit. simpl in Hfit.
  destruct (good_current st Hgood) as (parent & _ & Hcur & Hwf & Hfr).
  pose proof Hgood as (Hptbr & _ & Hq & Ht & Hmc & Hu32 & Hall & Hinv).
  unfold tlb_ok in Ht. unfold mapcounts_ok in Hmc.
  destruct (flush_tlb_spec (Z.to_nat NR_TLB_ENTRIES) (tlb st) 0)
    as (t & Hflush & Htlen & _); [lia |].
  pose proof (lookup_lt_Some _ _ _ Hcur) as Hlt.
  unfold switch_process.
  destruct (find_process_total (procs st) p (processes st) Hq)
    as [-> | (pos & Hpos & ->)]; simpl.
  - rewrite (fork_eq o st p parent Hcur Hwf
               (frames_valid_in_range _ _ Hmc Hfr) Ho).
    simpl. rewrite Hflush. simpl.
    set (outer := outer_ptes (proc_pagetable parent)) in *.
    eexists. split; [done |]. unfold good. simpl.
    assert (Hplen : length (<[current st :=
                       mk_process (pid parent) (mk_pagetable (parent_dir <$> outer))]>
                     (procs st)) = length (procs st)) by apply length_insert.
    split; [done |].
    split; [eexists; apply list_lookup_middle; by rewrite Hplen |].
    split.
    { unfold queue_ok in *. simpl. apply Forall_app. split.
      - eapply Forall_impl; [| exact Hq]. intros h Hh.
        apply lookup_lt_is_Some. rewrite length_app, Hplen.
        apply lookup_lt_is_Some in Hh. lia.
      - constructor; [| constructor].
        apply lookup_lt_is_Some. rewrite length_app, Hplen. lia. }
    split; [unfold tlb_ok; simpl; lia |].
    split; [unfold mapcounts_ok, add_refs; simpl; rewrite length_imap; lia |].
    split.
    { apply Forall_lookup_2. intros k m Hk. unfold add_refs in Hk.
      rewrite list_lookup_imap in Hk.
      destruct (mapcounts st !! k) as [m0 |] eqn:Hk0; simpl in Hk; [| done].
      injection Hk as <-. apply bump_range.
      by eapply (Forall_lookup_1 _ _ _ _ Hu32 Hk0). }
    pose proof (Forall_lookup_1 _ _ _ _ Hall Hcur) as Hparent.
    split.
    { apply Forall_app. split.
      - apply Forall_insert; [done |]. by apply proc_ok_parent.
      - constructor; [| constructor]. by apply proc_ok_child. }
    intros f Hf. simpl.
    rewrite sel_add_refs, (Hinv f Hf). simpl. f_equal.
    pose proof (count_refs_le f (procs st) Hall) as Hb1.
    pose proof (count_proc_le f parent Hparent) as Hb2. fold outer in Hb2.
    rewrite bump_exact by lia.
    rewrite count_refs_app. simpl.
    pose proof (count_refs_insert f
                  (mk_process (pid parent) (mk_pagetable (parent_dir <$> outer)))
                  (procs st) (current st) parent Hcur) as Hbal.
    simpl in Hbal. fold outer in Hbal.
    rewrite count_outer_parent in Hbal.
    rewrite count_outer_child by done. lia.
  - rewrite Hflush. simpl. eexists. split; [done |]. unfold good. simpl.
    unfold queue_ok in Hq.
    assert (Hpos' : is_Some (procs st !! pos)).
    { rewrite Forall_forall in Hq. apply Hq. by apply list_elem_of_In. }
    split; [done |]. split; [done |].
    split.
    { unfold queue_ok. simpl. apply Forall_app. split.
      - by apply Forall_list_del.
      - constructor; [by exists parent | constructor]. }
    split; [unfold tlb_ok; simpl; lia |].
    by split_and!.
Qed.

Lemma step_good (o : indet) (st : state) (c : op) :
  RW_READ ≠ RW_WRITE → fresh_null o → fresh_invalid o →
  good st → guard st c →
  ∃ st', step o st c = Some st' ∧ good st'.
Proof.
  intros Hrw Ho Hoi Hgood Hguard. destruct c as [vpn rw | vpn | vpn rw | p]; simpl.
  - destruct (alloc_page_good o st vpn rw Hoi Hgood Hguard) as (st' & f & -> & H').
    by exists st'.
  - by apply free_page_good.
  - destruct (fault_good o st vpn rw Hrw Hgood Hguard) as (st' & b & -> & H').
    by exists st'.
  - by apply switch_good.
Qed.


Lemma count_outer_null (f : Z) (n : nat) : count_outer f (replicate n NULL) = O.
Proof. induction n as [| n IH]; simpl; [done | by rewrite IH]. Qed.

(** The start state meets the condition. *)
Lemma init_state_good :
  good (init_state NR_PTES_PER_PAGE NR_PAGEFRAMES NR_TLB_ENTRIES).
Proof.
  unfold good, init_state. simpl.
  split; [done |]. split; [by eexists |].
  split; [constructor |].
  split; [unfold tlb_ok; simpl; by rewrite length_replicate |].
  split; [unfold mapcounts_ok; simpl; by rewrite length_replicate |].
  split; [apply Forall_replicate; lia |].
  split.
  - constructor; [| constructor]. split; simpl.
    + split; [by rewrite length_replicate | by apply Forall_replicate].
    + intros i pd j e Hi. apply lookup_replicate in Hi as [? _]. done.
  - intros f Hf. simpl. rewrite count_outer_null. simpl.
    unfold sel. destruct (Z.leb_spec 0 f); [| lia].
    apply lookup_replicate_2. lia.
Qed.

Lemma guarded_app (o : indet) (cs1 cs2 : list op) : ∀ st : state,
  guarded o st (cs1 ++ cs2) → guarded o st cs1.
Proof.
  induction cs1 as [| c cs1 IH]; intros st Hcs; simpl in *; [done |].
  destruct Hcs as [Hguard Hrest]. split; [done |].
  intros st' Hstep. apply IH. by apply Hrest.
Qed.

Lemma good_after_run (o : indet) (cs : list op) : ∀ st : state,
  RW_READ ≠ RW_WRITE → fresh_null o → fresh_invalid o →
  good st → guarded o st cs →
  ∃ st', run o st cs = Some st' ∧ good st'.
Proof.
  induction cs as [| c cs IH]; intros st Hrw Ho Hoi Hgood Hcs; simpl.
  - by exists st.
  - destruct Hcs as [Hguard Hrest].
    destruct (step_good o st c Hrw Ho Hoi Hgood Hguard) as (st1 & Hstep & Hgood1).
    rewrite Hstep. simpl. apply IH; [done.. |]. by apply Hrest.
Qed.

End Properties.

(** * Concrete evaluations

    The constants of [Sample] are those of a radix of 16: 256 pages, 256
    slots in the TLB, 128 frames. *)

(** Closed facts about numerals and concrete states. *)
Local Ltac evaluate :=
  vm_compute; repeat split; first [reflexivity | discriminate | lia].

(** C1 (the claim as stated fails): the parent of [Sample.sole_owner] is the
    sole owner of frame 1, mapped at page 1 by a valid entry with
    wasWritable set, and frame 0 is free.  The write fault at page 1 is not
    resolved in place: the entry is given frame 0, and the count of frame 1
    drops to 0. *)
Lemma handle_page_fault_moves_frame :
  ∃ st e st' e',
    Sample.run Sample.init Sample.sole_owner = Some st ∧
    Sample.pte_of st 1 = Some e ∧
    valid e = true ∧ writable e = false ∧ private e = 1 ∧ pfn e = 1 ∧
    sel (mapcounts st) (pfn e) = Some 1 ∧
    sel (mapcounts st) 0 = Some 0 ∧
    Sample.handle_page_fault (zeroed 0) st 1 Sample.RW_WRITE = Some (st', true) ∧
    Sample.pte_of st' 1 = Some e' ∧
    writable e' = true ∧ pfn e' = 0 ∧ pfn e' ≠ pfn e ∧
    sel (mapcounts st') (pfn e) = Some 0 ∧
    sel (mapcounts st') (pfn e') = Some 1.
Proof.
  exists (Sample.after Sample.sole_owner), (mk_pte true false 1 1).
  eexists. exists (mk_pte true true 0 1).
  split; [vm_compute; reflexivity |].
  split; [vm_compute; reflexivity |].
  do 6 (split; [vm_compute; reflexivity |]).
  split; [vm_compute; reflexivity |].
  split; [vm_compute; reflexivity |].
  split; [reflexivity |]. split; [reflexivity |].
  split; [simpl; lia |].
  split; vm_compute; reflexivity.
Qed.

Lemma handle_page_fault_sole_owner_witness :
  ∃ st' f,
    Sample.handle_page_fault (zeroed 0) (Sample.after [Alloc 0 Sample.RW_WRITE]) 0
      Sample.RW_WRITE = Some (st', true) ∧
    Sample.pte_of st' 0 = Some (mk_pte true true f 1) ∧
    0 ≤ f ≤ 0.
Proof.
  destruct (handle_page_fault_sole_owner
              Sample.NR_PTES_PER_PAGE Sample.NR_PAGEFRAMES Sample.NR_TLB_ENTRIES
              Sample.RW_READ Sample.RW_WRITE (zeroed 0)
              (Sample.after [Alloc 0 Sample.RW_WRITE]) 0 (mk_pte true true 0 1))
    as (st' & f & Hrun & Hpte & Hf & _).
  - evaluate.
  - unfold tlb_ok. evaluate.
  - unfold mapcounts_ok. evaluate.
  - evaluate.
  - evaluate.
  - evaluate.
  - evaluate.
  - evaluate.
  - evaluate.
  - exists st', f. split; [exact Hrun |]. split; [exact Hpte | exact Hf].
Defined.

(** C2 (the claim as stated fails): two calls of insert_tlb for page 5 leave
    two valid entries for page 5, in slots 0 and 1; the entry that existed
    is not overwritten, and a lookup returns its frame. *)
Lemma insert_tlb_duplicate_entries :
  ∃ st1 st2,
    insert_tlb Sample.init 5 1 = Some st1 ∧
    insert_tlb st1 5 2 = Some st2 ∧
    tlb st2 !! 0%nat = Some (mk_tlb true 5 1) ∧
    tlb st2 !! 1%nat = Some (mk_tlb true 5 2) ∧
    Sample.lookup_tlb st2 5 = Some (Some 1).
Proof.
  do 2 eexists.
  split; [vm_compute; reflexivity |].
  split; [vm_compute; reflexivity |].
  split; [vm_compute; reflexivity |].
  split; vm_compute; reflexivity.
Qed.

Lemma insert_tlb_at_cursor_witness :
  ∃ st', insert_tlb Sample.init 5 1 = Some st' ∧
    tlb st' !! 0%nat = Some (mk_tlb true 5 1) ∧ index st' = 1.
Proof.
  destruct (insert_tlb_at_cursor Sample.NR_TLB_ENTRIES Sample.init 5 1)
    as (st' & Hrun & _ & Hslot & _ & _ & Hidx & _).
  - evaluate.
  - unfold tlb_ok. evaluate.
  - exists st'. split; [exact Hrun |]. split; [exact Hslot | exact Hidx].
Defined.

(** The cursor after [n] calls of insert_tlb. *)
Lemma insert_tlb_overrun :
  ∃ st,
    foldl (λ s v, s ≫= λ st, insert_tlb st (Z.of_nat v) 0) (Some Sample.init)
      (seq 0 (Z.to_nat Sample.NR_TLB_ENTRIES)) = Some st ∧
    index st = Sample.NR_TLB_ENTRIES ∧
    length (tlb st) = Z.to_nat Sample.NR_TLB_ENTRIES ∧
    insert_tlb st 0 0 = None.
Proof.
  eexists. split; [vm_compute; reflexivity |].
  split; [reflexivity |]. split; vm_compute; reflexivity.
Qed.

(** C3 (the code at the failing input): after [Sample.exhaust] every frame
    has reference count 1 and page 128, whose directory index 8 is valid, is
    not mapped.  alloc_page(128, RW_READ) has no test for "no free frame":
    whatever its uninitialised local [pfn] holds, a call that returns has
    returned that value, not -1, and has installed a valid entry for page
    128; reading the local as 5, it returns 5 and takes the count of frame 5
    to 2. *)
Theorem alloc_page_no_free_frame :
  Sample.run Sample.init Sample.exhaust = Some (Sample.after Sample.exhaust) ∧
  mapcounts (Sample.after Sample.exhaust) =
    replicate (Z.to_nat Sample.NR_PAGEFRAMES) 1 ∧
  pd_index_of Sample.NR_PTES_PER_PAGE 128 = 8 ∧
  Sample.pte_of (Sample.after Sample.exhaust) 128 = None ∧
  (∀ o,
     Sample.alloc_page o (Sample.after Sample.exhaust) 128 Sample.RW_READ = None ∨
     ∃ st',
       Sample.alloc_page o (Sample.after Sample.exhaust) 128 Sample.RW_READ
         = Some (st', ind_pfn o) ∧
       Sample.pte_of st' 128 = Some (mk_pte true false (ind_pfn o) 0)) ∧
  ∃ st',
    Sample.alloc_page (zeroed 5) (Sample.after Sample.exhaust) 128 Sample.RW_READ
      = Some (st', 5) ∧
    sel (mapcounts st') 5 = Some 2.
Proof.
  split; [vm_compute; reflexivity |].
  split; [vm_compute; reflexivity |].
  split; [vm_compute; reflexivity |].
  split; [vm_compute; reflexivity |].
  split.
  - intros o.
    apply (alloc_page_exhausted Sample.NR_PTES_PER_PAGE Sample.NR_PAGEFRAMES
             Sample.RW_READ o (Sample.after Sample.exhaust) 128 Sample.RW_READ).
    + evaluate.
    + vm_compute. reflexivity.
  - eexists. split; vm_compute; reflexivity.
Qed.

(** C4 (the code at failing inputs): three sequences of calls from the start
    state after which the count of frame 0 is not the number of valid
    entries that map it.  A write fault at a page that was freed is
    "resolved" (two valid entries, count 1); an allocation at a mapped page
    leaves the count of the frame it replaces (no entry, count 1); a release
    of a page that is not mapped decrements the count of frame 0 (one entry,
    count 0). *)
Theorem refcounts_not_exact :
  (∃ st,
     Sample.run Sample.init (Sample.stale_entry ++ [Fault 0 Sample.RW_WRITE])
       = Some st ∧
     sel (mapcounts st) 0 = Some 1 ∧ count_refs 0 (procs st) = 2%nat ∧
     ¬ refcounts_exact Sample.NR_PAGEFRAMES st) ∧
  (∃ st,
     Sample.run Sample.init [Alloc 0 Sample.RW_WRITE; Alloc 0 Sample.RW_WRITE]
       = Some st ∧
     sel (mapcounts st) 0 = Some 1 ∧ count_refs 0 (procs st) = 0%nat ∧
     ¬ refcounts_exact Sample.NR_PAGEFRAMES st) ∧
  (∃ st,
     Sample.run Sample.init [Alloc 0 Sample.RW_WRITE; Free 1] = Some st ∧
     sel (mapcounts st) 0 = Some 0 ∧ count_refs 0 (procs st) = 1%nat ∧
     ¬ refcounts_exact Sample.NR_PAGEFRAMES st).
Proof.
  split_and!; eexists;
    (split; [vm_compute; reflexivity |]);
    (split; [vm_compute; reflexivity |]);
    (split; [vm_compute; reflexivity |]);
    intros Hinv; specialize (Hinv 0 ltac:(evaluate));
    vm_compute in Hinv; discriminate Hinv.
Qed.

(** C9 (the code at failing inputs).  In the start state page 0 is not
    mapped and its directory pointer is null: handle_page_fault dereferences
    the pointer, and the behaviour is undefined where the claim has the call
    return false.  After [Sample.stale_entry] the entry of page 0 is invalid,
    with frame 0 and the wasWritable of the freed mapping, and frame 0
    belongs to page 1: the write fault at page 0 returns true, having
    released frame 0 and mapped it at page 0 as well. *)
Theorem handle_page_fault_unmapped :
  Sample.pte_of Sample.init 0 = None ∧
  Sample.handle_page_fault (zeroed 0) Sample.init 0 Sample.RW_READ = None ∧
  ∃ st st',
    Sample.run Sample.init Sample.stale_entry = Some st ∧
    Sample.pte_of st 0 = Some (mk_pte false false 0 1) ∧
    Sample.pte_of st 1 = Some (mk_pte true true 0 1) ∧
    sel (mapcounts st) 0 = Some 1 ∧
    Sample.handle_page_fault (zeroed 0) st 0 Sample.RW_WRITE = Some (st', true) ∧
    st' ≠ st ∧
    Sample.pte_of st' 0 = Some (mk_pte true true 0 1) ∧
    Sample.pte_of st' 1 = Some (mk_pte true true 0 1) ∧
    sel (mapcounts st') 0 = Some 1.
Proof.
  split; [vm_compute; reflexivity |].
  split; [vm_compute; reflexivity |].
  exists (Sample.after Sample.stale_entry). eexists.
  split; [vm_compute; reflexivity |].
  split; [vm_compute; reflexivity |].
  split; [vm_compute; reflexivity |].
  split; [vm_compute; reflexivity |].
  split; [vm_compute; reflexivity |].
  split.
  { intros Heq. apply (f_equal (λ s, Sample.pte_of s 0)) in Heq.
    vm_compute in Heq. discriminate Heq. }
  split; [vm_compute; reflexivity |].
  split; vm_compute; reflexivity.
Qed.

Lemma alloc_page_lowest_free_witness :
  ∃ st' f e,
    Sample.alloc_page (zeroed 0) Sample.init 0 Sample.RW_WRITE = Some (st', f) ∧
    0 ≤ f ≤ 0 ∧
    Sample.pte_of st' 0 = Some e ∧ valid e = true ∧ pfn e = f ∧
    sel (mapcounts st') f = Some 1.
Proof.
  destruct (alloc_page_lowest_free
              Sample.NR_PTES_PER_PAGE Sample.NR_PAGEFRAMES Sample.RW_READ
              Sample.RW_WRITE ltac:(evaluate) (zeroed 0) Sample.init 0
              Sample.RW_WRITE (Sample.current_proc Sample.init) 0)
    as (st' & f & e & Hrun & Hf & _ & _ & Hpte & Hv & Hpfn & _ & _ & _ & Hcount & _).
  - unfold mapcounts_ok. evaluate.
  - evaluate.
  - apply wf_outerb_sound. evaluate.
  - evaluate.
  - evaluate.
  - evaluate.
  - exists st', f, e.
    split; [exact Hrun |]. split; [exact Hf |]. split; [exact Hpte |].
    split; [exact Hv |]. split; [exact Hpfn | exact Hcount].
Defined.

(** C6 (the claim as stated fails): page 0 is mapped writable at frame 0
    and the TLB holds two entries for it.  free_page(0) leaves the
    wasWritable field of the entry at 1, and leaves the second TLB entry
    valid, so that a lookup of page 0 still hits. *)
Lemma free_page_keeps_private :
  ∃ st0 st1 st2 st3 e,
    Sample.run Sample.init [Alloc 0 Sample.RW_WRITE] = Some st0 ∧
    insert_tlb st0 0 0 = Some st1 ∧
    insert_tlb st1 0 0 = Some st2 ∧
    Sample.pte_of st2 0 = Some (mk_pte true true 0 1) ∧
    Sample.free_page st2 0 = Some st3 ∧
    Sample.pte_of st3 0 = Some e ∧
    e ≠ mk_pte false false 0 0 ∧ private e = 1 ∧
    tlb st3 !! 1%nat = Some (mk_tlb true 0 0) ∧
    Sample.lookup_tlb st3 0 = Some (Some 0).
Proof.
  do 4 eexists. exists (mk_pte false false 0 1).
  do 6 (split; [vm_compute; reflexivity |]).
  split; [discriminate |].
  split; [reflexivity |].
  split; vm_compute; reflexivity.
Qed.

Lemma free_page_mapped_witness :
  ∃ st',
    Sample.free_page (Sample.after [Alloc 0 Sample.RW_WRITE]) 0 = Some st' ∧
    Sample.pte_of st' 0 = Some (mk_pte false false 0 1) ∧
    sel (mapcounts st') 0 = Some 0.
Proof.
  destruct (free_page_mapped Sample.NR_PTES_PER_PAGE Sample.NR_TLB_ENTRIES
              (Sample.after [Alloc 0 Sample.RW_WRITE]) 0 (mk_pte true true 0 1) 1)
    as (st' & Hrun & Hpte & Hcount & _).
  - unfold tlb_ok. evaluate.
  - evaluate.
  - evaluate.
  - evaluate.
  - exists st'. split; [exact Hrun |]. split; [exact Hpte | exact Hcount].
Defined.

Lemma switch_process_flushes_tlb_witness :
  ∃ st',
    Sample.switch_process (zeroed 0) (Sample.after Sample.two_pages) 1 = Some st' ∧
    Sample.lookup_tlb st' 0 = Some None.
Proof.
  destruct (switch_process_flushes_tlb
              Sample.NR_PTES_PER_PAGE Sample.NR_TLB_ENTRIES ltac:(evaluate)
              (zeroed 0) (Sample.after Sample.two_pages) 1
              (Sample.current_proc (Sample.after Sample.two_pages)))
    as (st' & Hrun & _ & Hmiss).
  - unfold queue_ok. vm_compute. constructor.
  - unfold tlb_ok. evaluate.
  - evaluate.
  - apply wf_outerb_sound. evaluate.
  - apply frames_in_rangeb_sound. evaluate.
  - intros i Hi. reflexivity.
  - exists st'. split; [exact Hrun | exact (Hmiss 0)].
Defined.

Lemma switch_process_fork_witness :
  ∃ st' child,
    Sample.switch_process (zeroed 0) (Sample.after Sample.two_pages) 1 = Some st' ∧
    current st' = 1%nat ∧ processes st' = [0%nat] ∧
    procs st' !! 1%nat = Some child ∧ pid child = 1 ∧
    Sample.walk (outer_ptes (proc_pagetable child)) 0 = Some (mk_pte true false 0 1) ∧
    Sample.walk (outer_ptes (proc_pagetable child)) 1 = Some (mk_pte true false 1 1) ∧
    sel (mapcounts st') 0 = Some 2 ∧ sel (mapcounts st') 1 = Some 2.
Proof.
  destruct (switch_process_fork
              Sample.NR_PTES_PER_PAGE Sample.NR_TLB_ENTRIES ltac:(evaluate)
              (zeroed 0) (Sample.after Sample.two_pages) 1
              (Sample.current_proc (Sample.after Sample.two_pages)))
    as (st' & parent' & child & Hrun & Hcur & _ & Hq & _ & _ & Hchild & Hpid
        & _ & _ & _ & Hwalk & _ & Hcount).
  - vm_compute. constructor.
  - unfold tlb_ok. evaluate.
  - evaluate.
  - apply wf_outerb_sound. evaluate.
  - apply frames_in_rangeb_sound. evaluate.
  - intros i Hi. reflexivity.
  - exists st', child.
    split; [exact Hrun |]. split; [exact Hcur |]. split; [exact Hq |].
    split; [exact Hchild |]. split; [exact Hpid |].
    split; [exact (proj2 (Hwalk 0 (mk_pte true true 0 1) ltac:(evaluate) eq_refl)) |].
    split; [exact (proj2 (Hwalk 1 (mk_pte true true 1 1) ltac:(evaluate) eq_refl)) |].
    split.
    + exact (Hcount 0 1 ltac:(evaluate) ltac:(evaluate) ltac:(evaluate)).
    + exact (Hcount 1 1 ltac:(evaluate) ltac:(evaluate) ltac:(evaluate)).
Defined.

Lemma switch_process_resume_witness :
  ∃ st',
    Sample.switch_process (zeroed 0)
      (Sample.after (Sample.two_pages ++ [Switch 1])) 0 = Some st' ∧
    procs st' = procs (Sample.after (Sample.two_pages ++ [Switch 1])) ∧
    mapcounts st' = mapcounts (Sample.after (Sample.two_pages ++ [Switch 1])).
Proof.
  destruct (switch_process_resume
              Sample.NR_PTES_PER_PAGE Sample.NR_TLB_ENTRIES (zeroed 0)
              (Sample.after (Sample.two_pages ++ [Switch 1])) 0 0%nat
              (Sample.proc_at (Sample.after (Sample.two_pages ++ [Switch 1])) 0))
    as (st' & q1 & pos & q2 & r' & Hrun & _ & _ & _ & _ & _ & _ & _ & Hprocs
        & Hcounts & _).
  - unfold queue_ok. vm_compute. constructor; [by eexists | constructor].
  - unfold tlb_ok. evaluate.
  - vm_compute. apply list_elem_of_here.
  - evaluate.
  - evaluate.
  - exists st'. split; [exact Hrun |]. split; [exact Hprocs | exact Hcounts].
Defined.


(** * Concrete evaluations of the further properties *)

Local Ltac next :=
  let st' := fresh "st" in
  let H := fresh "Hstep" in
  intros st' H; vm_compute in H; injection H as <-.

Local Ltac free_frame g :=
  exists g; split; [evaluate | vm_compute; reflexivity].

Local Ltac not_mapped :=
  let e := fresh "e" in
  let H := fresh "He" in
  intros e H; vm_compute in H;
  first [discriminate H | injection H as <-; reflexivity].

Local Ltac mapped :=
  eexists; split; [vm_compute; reflexivity |]; split; [reflexivity |].

Lemma zeroed_null (n g : Z) : fresh_null n (zeroed g).
Proof. intros i Hi. reflexivity. Qed.

Lemma zeroed_invalid (g : Z) : fresh_invalid (zeroed g).
Proof. intros i j. reflexivity. Qed.

Lemma sample_guarded :
  guarded Sample.NR_PTES_PER_PAGE Sample.NR_PAGEFRAMES Sample.NR_TLB_ENTRIES
    Sample.RW_READ Sample.RW_WRITE (zeroed 0) Sample.init disciplined_calls.
Proof.
  split; [split; [evaluate |]; split; [not_mapped | free_frame 0] |]. next.
  split; [split; [evaluate |]; split; [not_mapped | free_frame 1] |]. next.
  split; [evaluate |]. next.
  split; [mapped; intros _ _; left; free_frame 2 |]. next.
  split; [eexists; split; [vm_compute; reflexivity | reflexivity] |]. next.
  split; [evaluate |]. next.
  split; [eexists; split; [vm_compute; reflexivity | reflexivity] |]. next.
  split; [mapped; intros _ _; left; free_frame 0 |]. next.
  exact I.
Qed.

(** The states along [disciplined_calls] meet the condition. *)
Lemma sample_good (cs cs' : list op) :
  disciplined_calls = cs ++ cs' →
  good Sample.NR_PTES_PER_PAGE Sample.NR_PAGEFRAMES Sample.NR_TLB_ENTRIES
    (Sample.after cs).
Proof.
  intros Hcs.
  pose proof sample_guarded as Hg. rewrite Hcs in Hg.
  apply guarded_app in Hg.
  destruct (good_after_run Sample.NR_PTES_PER_PAGE Sample.NR_PAGEFRAMES
              Sample.NR_TLB_ENTRIES Sample.RW_READ Sample.RW_WRITE
              ltac:(evaluate) (zeroed 0) cs Sample.init ltac:(evaluate)
              (zeroed_null _ 0) (zeroed_invalid 0)
              (init_state_good _ _ _) Hg) as (st' & Hrun & Hgood).
  unfold Sample.after, Sample.run. by rewrite Hrun.
Qed.

Lemma sample_exact (cs cs' : list op) :
  disciplined_calls = cs ++ cs' →
  refcounts_exact Sample.NR_PAGEFRAMES (Sample.after cs).
Proof. intros Hcs. apply (sample_good cs cs' Hcs). Qed.

(** The reference counts along [disciplined_calls] are far from wrapping. *)
Lemma sample_fits (cs cs' : list op) (parent : process) (f : Z) :
  disciplined_calls = cs ++ cs' →
  procs (Sample.after cs) !! current (Sample.after cs) = Some parent →
  (length (procs (Sample.after cs)) ≤ 2)%nat →
  Z.of_nat (count_refs f (procs (Sample.after cs)))
  + Z.of_nat (count_outer f (outer_ptes (proc_pagetable parent))) < 2 ^ 32.
Proof.
  intros Hcs Hcur Hlen.
  destruct (sample_good cs cs' Hcs) as (_ & _ & _ & _ & _ & _ & Hall & _).
  pose proof (count_refs_le Sample.NR_PTES_PER_PAGE Sample.NR_PAGEFRAMES
                ltac:(evaluate) f _ Hall) as Hrefs.
  assert (Hok : proc_ok Sample.NR_PTES_PER_PAGE Sample.NR_PAGEFRAMES parent).
  { rewrite List.Forall_forall in Hall. apply Hall.
    apply list_elem_of_In. by eapply list_elem_of_lookup_2. }
  pose proof (count_proc_le Sample.NR_PTES_PER_PAGE Sample.NR_PAGEFRAMES
                ltac:(evaluate) f parent Hok) as Hproc.
  unfold Sample.NR_PTES_PER_PAGE in Hrefs, Hproc. nia.
Qed.

Lemma lookup_cons_replicate {A} (x y z : A) (n i : nat) :
  (x :: replicate n y) !! S i = Some z → z = y.
Proof. rewrite lookup_cons. by intros [-> _]%lookup_replicate. Qed.

Lemma lookup_tlb_hit_iff_witness :
  Sample.lookup_tlb tlb_sample 7 = Some (Some 2).
Proof.
  apply (proj2 (lookup_tlb_hit_iff Sample.NR_TLB_ENTRIES tlb_sample 7 2
                  ltac:(unfold tlb_ok; evaluate))).
  exists 1%nat, (mk_tlb true 7 2).
  split; [vm_compute; lia |].
  split; [vm_compute; reflexivity |].
  split; [reflexivity |]. split; [reflexivity |].
  intros j e' Hj He'. destruct j as [| j]; [| lia].
  vm_compute in He'. injection He' as <-. reflexivity.
Defined.

Lemma lookup_tlb_miss_iff_witness :
  Sample.lookup_tlb tlb_sample 9 = Some None.
Proof.
  apply (proj2 (lookup_tlb_miss_iff Sample.NR_TLB_ENTRIES tlb_sample 9
                  ltac:(unfold tlb_ok; evaluate))).
  assert (Ht : tlb tlb_sample
               = mk_tlb true 5 1 :: mk_tlb true 7 2
                 :: replicate 254 (mk_tlb false 0 0))
    by (vm_compute; reflexivity).
  intros j e _ He. rewrite Ht in He. destruct j as [| [| j]].
  - injection He as <-. right. discriminate.
  - injection He as <-. right. discriminate.
  - change ((mk_tlb true 7 2 :: replicate 254 (mk_tlb false 0 0)) !! S j
            = Some e) in He.
    apply lookup_cons_replicate in He as ->. left. reflexivity.
Defined.

Lemma insert_tlb_then_lookup_witness :
  ∃ st', insert_tlb tlb_sample 9 4 = Some st' ∧
    Sample.lookup_tlb st' 9 = Some (Some 4).
Proof.
  apply (insert_tlb_then_lookup Sample.NR_TLB_ENTRIES tlb_sample 9 4).
  - evaluate.
  - unfold tlb_ok. evaluate.
  - intros j e Hj He. destruct j as [| [| j]].
    + vm_compute in He. injection He as <-. reflexivity.
    + vm_compute in He. injection He as <-. reflexivity.
    + vm_compute in Hj. lia.
Defined.

Lemma insert_tlb_keeps_other_witness :
  ∃ st', insert_tlb tlb_sample 9 4 = Some st' ∧
    Sample.lookup_tlb st' 5 = Sample.lookup_tlb tlb_sample 5.
Proof.
  apply (insert_tlb_keeps_other Sample.NR_TLB_ENTRIES tlb_sample 9 4 5
           (mk_tlb false 0 0)).
  - evaluate.
  - unfold tlb_ok. evaluate.
  - discriminate.
  - vm_compute. reflexivity.
  - reflexivity.
Defined.

Lemma free_page_then_lookup_witness :
  Sample.lookup_tlb cached_page 0 = Some (Some 0) ∧
  ∃ st', Sample.free_page cached_page 0 = Some st' ∧
    Sample.lookup_tlb st' 0 = Some None.
Proof.
  split; [vm_compute; reflexivity |].
  apply (free_page_then_lookup Sample.NR_PTES_PER_PAGE Sample.NR_TLB_ENTRIES
           cached_page 0 (mk_pte true true 0 1) 1).
  - unfold tlb_ok. evaluate.
  - vm_compute. reflexivity.
  - vm_compute. reflexivity.
  - assert (Ht : tlb cached_page
                 = mk_tlb true 0 0 :: replicate 255 (mk_tlb false 0 0))
      by (vm_compute; reflexivity).
    intros i j c c' _ _ Hi Hj Hc Hc'. rewrite Ht in Hi, Hj.
    destruct i as [| i], j as [| j]; [reflexivity | | |].
    + apply lookup_cons_replicate in Hj as ->. discriminate Hc'.
    + apply lookup_cons_replicate in Hi as ->. discriminate Hc.
    + apply lookup_cons_replicate in Hi as ->. discriminate Hc.
Defined.

Lemma alloc_page_out_of_range_witness :
  Sample.alloc_page (zeroed 0) Sample.init 256 Sample.RW_WRITE
    = Some (Sample.init, 2 ^ 32 - 1).
Proof.
  apply (alloc_page_out_of_range Sample.NR_PTES_PER_PAGE Sample.NR_PAGEFRAMES
           Sample.RW_READ ltac:(evaluate) (zeroed 0) Sample.init 256
           Sample.RW_WRITE).
  - evaluate.
  - unfold mapcounts_ok. evaluate.
  - evaluate.
Defined.

Lemma alloc_page_frame_witness :
  ∃ st' f,
    Sample.alloc_page (zeroed 0) (Sample.after Sample.two_pages) 2 Sample.RW_READ
      = Some (st', f) ∧
    Sample.pte_of st' 0 = Some (mk_pte true true 0 1) ∧
    Sample.pte_of st' 16 = None.
Proof.
  destruct (alloc_page_frame
              Sample.NR_PTES_PER_PAGE Sample.NR_PAGEFRAMES Sample.RW_READ
              ltac:(evaluate) (zeroed 0) (Sample.after Sample.two_pages) 2
              Sample.RW_READ (Sample.current_proc (Sample.after Sample.two_pages)) 2)
    as (st' & f & Hrun & _ & _ & _ & Hfar & Hnear).
  - unfold mapcounts_ok. evaluate.
  - evaluate.
  - apply wf_outerb_sound. evaluate.
  - evaluate.
  - evaluate.
  - evaluate.
  - exists st', f. split; [exact Hrun |]. split.
    + apply (Hnear 0); [evaluate | vm_compute; reflexivity].
    + unfold Sample.pte_of.
      rewrite (Hfar 16); [vm_compute; reflexivity | evaluate].
Defined.

Lemma free_page_frame_witness :
  ∃ st',
    Sample.free_page (Sample.after Sample.two_pages) 0 = Some st' ∧
    Sample.pte_of st' 1 = Some (mk_pte true true 1 1).
Proof.
  destruct (free_page_frame Sample.NR_PTES_PER_PAGE Sample.NR_TLB_ENTRIES
              (Sample.after Sample.two_pages) 0 (mk_pte true true 0 1) 1)
    as (st' & Hrun & _ & _ & _ & Hframe).
  - unfold tlb_ok. evaluate.
  - evaluate.
  - evaluate.
  - exists st'. split; [exact Hrun |].
    unfold Sample.pte_of.
    rewrite (Hframe 1); [vm_compute; reflexivity | right; evaluate].
Defined.

Lemma alloc_page_then_free_witness :
  ∃ st1 f st2 e,
    Sample.alloc_page (zeroed 0) (Sample.after Sample.two_pages) 2 Sample.RW_WRITE
      = Some (st1, f) ∧
    Sample.free_page st1 2 = Some st2 ∧
    mapcounts st2 = mapcounts (Sample.after Sample.two_pages) ∧
    Sample.pte_of st2 2 = Some e ∧ valid e = false ∧ pfn e = 0.
Proof.
  destruct (alloc_page_then_free
              Sample.NR_PTES_PER_PAGE Sample.NR_PAGEFRAMES Sample.NR_TLB_ENTRIES
              Sample.RW_READ ltac:(evaluate) (zeroed 0)
              (Sample.after Sample.two_pages) 2 Sample.RW_WRITE
              (Sample.current_proc (Sample.after Sample.two_pages)) 2)
    as (st1 & f & st2 & e & Halloc & Hfree & Hcounts & Hpte & Hv & _ & Hpfn & _).
  - unfold tlb_ok. evaluate.
  - unfold mapcounts_ok. evaluate.
  - evaluate.
  - apply wf_outerb_sound. evaluate.
  - evaluate.
  - evaluate.
  - evaluate.
  - exists st1, f, st2, e.
    split; [exact Halloc |]. split; [exact Hfree |]. split; [exact Hcounts |].
    split; [exact Hpte |]. split; [exact Hv | exact Hpfn].
Defined.

Lemma alloc_page_keeps_refcounts_witness :
  ∃ st' f,
    Sample.alloc_page (zeroed 0) (Sample.after Sample.two_pages) 2 Sample.RW_READ
      = Some (st', f) ∧
    refcounts_exact Sample.NR_PAGEFRAMES st'.
Proof.
  apply (alloc_page_keeps_refcounts
           Sample.NR_PTES_PER_PAGE Sample.NR_PAGEFRAMES Sample.RW_READ
           ltac:(evaluate) (zeroed 0) (Sample.after Sample.two_pages) 2
           Sample.RW_READ (Sample.current_proc (Sample.after Sample.two_pages)) 2).
  - unfold mapcounts_ok. evaluate.
  - evaluate.
  - apply wf_outerb_sound. evaluate.
  - evaluate.
  - evaluate.
  - evaluate.
  - apply (sample_exact Sample.two_pages
             [Switch 1; Fault 1 Sample.RW_WRITE; Free 0; Switch 0; Free 0;
              Fault 1 Sample.RW_WRITE]).
    reflexivity.
  - not_mapped.
  - apply zeroed_invalid.
Defined.

Lemma free_page_keeps_refcounts_witness :
  ∃ st',
    Sample.free_page (Sample.after Sample.two_pages) 0 = Some st' ∧
    refcounts_exact Sample.NR_PAGEFRAMES st'.
Proof.
  apply (free_page_keeps_refcounts
           Sample.NR_PTES_PER_PAGE Sample.NR_PAGEFRAMES Sample.NR_TLB_ENTRIES
           (Sample.after Sample.two_pages) 0 (mk_pte true true 0 1)).
  - unfold tlb_ok. evaluate.
  - evaluate.
  - reflexivity.
  - evaluate.
  - apply (sample_exact Sample.two_pages
             [Switch 1; Fault 1 Sample.RW_WRITE; Free 0; Switch 0; Free 0;
              Fault 1 Sample.RW_WRITE]).
    reflexivity.
  - evaluate.
Defined.

Lemma handle_page_fault_copy_on_write_witness :
  ∃ st' f,
    Sample.handle_page_fault (zeroed 0)
      (Sample.after (Sample.two_pages ++ [Switch 1])) 1 Sample.RW_WRITE
      = Some (st', true) ∧
    Sample.pte_of st' 1 = Some (mk_pte true true f 1) ∧
    f ≠ 1 ∧ 0 ≤ f ≤ 2 ∧
    sel (mapcounts st') f = Some 1 ∧ sel (mapcounts st') 1 = Some 1.
Proof.
  destruct (handle_page_fault_copy_on_write
              Sample.NR_PTES_PER_PAGE Sample.NR_PAGEFRAMES Sample.NR_TLB_ENTRIES
              Sample.RW_READ Sample.RW_WRITE (zeroed 0)
              (Sample.after (Sample.two_pages ++ [Switch 1])) 1
              (mk_pte true false 1 1) 2 2)
    as (st' & f & Hrun & Hpte & Hne & Hf & _ & _ & Hnew & Hold & _).
  - evaluate.
  - unfold tlb_ok. evaluate.
  - unfold mapcounts_ok. evaluate.
  - evaluate.
  - evaluate.
  - reflexivity.
  - evaluate.
  - evaluate.
  - evaluate.
  - evaluate.
  - evaluate.
  - exists st', f.
    split; [exact Hrun |]. split; [exact Hpte |]. split; [exact Hne |].
    split; [exact Hf |]. split; [exact Hnew | exact Hold].
Defined.

Lemma handle_page_fault_refuses_witness :
  Sample.handle_page_fault (zeroed 0) (Sample.after Sample.two_pages) 0
    Sample.RW_READ
  = Some (Sample.after Sample.two_pages, false).
Proof.
  apply (handle_page_fault_refuses
           Sample.NR_PTES_PER_PAGE Sample.NR_PAGEFRAMES Sample.NR_TLB_ENTRIES
           Sample.RW_READ Sample.RW_WRITE (zeroed 0)
           (Sample.after Sample.two_pages) 0 Sample.RW_READ
           (mk_pte true true 0 1) 1).
  - evaluate.
  - evaluate.
  - left. evaluate.
Defined.

Lemma handle_page_fault_keeps_refcounts_witness :
  ∃ st',
    Sample.handle_page_fault (zeroed 0)
      (Sample.after (Sample.two_pages ++ [Switch 1])) 1 Sample.RW_WRITE
      = Some (st', true) ∧
    refcounts_exact Sample.NR_PAGEFRAMES st'.
Proof.
  apply (handle_page_fault_keeps_refcounts
           Sample.NR_PTES_PER_PAGE Sample.NR_PAGEFRAMES Sample.NR_TLB_ENTRIES
           Sample.RW_READ Sample.RW_WRITE (zeroed 0)
           (Sample.after (Sample.two_pages ++ [Switch 1])) 1
           (mk_pte true false 1 1) 2).
  - evaluate.
  - unfold tlb_ok. evaluate.
  - unfold mapcounts_ok. evaluate.
  - evaluate.
  - evaluate.
  - reflexivity.
  - evaluate.
  - evaluate.
  - apply (sample_exact (Sample.two_pages ++ [Switch 1])
             [Fault 1 Sample.RW_WRITE; Free 0; Switch 0; Free 0;
              Fault 1 Sample.RW_WRITE]).
    reflexivity.
  - evaluate.
  - evaluate.
  - left. evaluate.
Defined.

Lemma switch_process_keeps_refcounts_witness :
  ∃ st',
    Sample.switch_process (zeroed 0) (Sample.after Sample.two_pages) 1 = Some st' ∧
    refcounts_exact Sample.NR_PAGEFRAMES st'.
Proof.
  apply (switch_process_keeps_refcounts
           Sample.NR_PTES_PER_PAGE Sample.NR_PAGEFRAMES Sample.NR_TLB_ENTRIES
           ltac:(evaluate) (zeroed 0) (Sample.after Sample.two_pages) 1
           (Sample.current_proc (Sample.after Sample.two_pages))).
  - unfold queue_ok. vm_compute. constructor.
  - unfold tlb_ok. evaluate.
  - evaluate.
  - apply wf_outerb_sound. evaluate.
  - apply frames_in_rangeb_sound. evaluate.
  - apply zeroed_null.
  - apply zeroed_invalid.
  - apply (sample_exact Sample.two_pages
             [Switch 1; Fault 1 Sample.RW_WRITE; Free 0; Switch 0; Free 0;
              Fault 1 Sample.RW_WRITE]).
    reflexivity.
  - intros f _.
    apply (sample_fits Sample.two_pages
             [Switch 1; Fault 1 Sample.RW_WRITE; Free 0; Switch 0; Free 0;
              Fault 1 Sample.RW_WRITE]).
    + reflexivity.
    + vm_compute. reflexivity.
    + vm_compute. lia.
Defined.

Lemma fork_child_only_parent_mappings_witness :
  ∃ st' child,
    Sample.switch_process (zeroed 0) (Sample.after Sample.two_pages) 1 = Some st' ∧
    procs st' !! current st' = Some child ∧ pid child = 1 ∧
    count_outer 0 (outer_ptes (proc_pagetable child)) = 1%nat ∧
    count_outer 2 (outer_ptes (proc_pagetable child)) = 0%nat.
Proof.
  destruct (fork_child_only_parent_mappings
              Sample.NR_PTES_PER_PAGE Sample.NR_TLB_ENTRIES ltac:(evaluate)
              (zeroed 0) (Sample.after Sample.two_pages) 1
              (Sample.current_proc (Sample.after Sample.two_pages)))
    as (st' & child & Hrun & Hchild & Hpid & _ & Hcount).
  - vm_compute. constructor.
  - unfold tlb_ok. evaluate.
  - evaluate.
  - apply wf_outerb_sound. evaluate.
  - apply frames_in_rangeb_sound. evaluate.
  - apply zeroed_null.
  - apply zeroed_invalid.
  - exists st', child.
    split; [exact Hrun |]. split; [exact Hchild |]. split; [exact Hpid |].
    rewrite !Hcount. split; vm_compute; reflexivity.
Defined.

Lemma fork_then_switch_back_witness :
  ∃ st1 st2,
    Sample.switch_process (zeroed 0) (Sample.after Sample.two_pages) 1 = Some st1 ∧
    Sample.switch_process (zeroed 0) st1 0 = Some st2 ∧
    current st2 = 0%nat ∧ ptbr st2 = 0%nat ∧ processes st2 = [1%nat] ∧
    procs st2 = procs st1 ∧ mapcounts st2 = mapcounts st1.
Proof.
  destruct (fork_then_switch_back
              Sample.NR_PTES_PER_PAGE Sample.NR_TLB_ENTRIES ltac:(evaluate)
              (zeroed 0) (zeroed 0) (Sample.after Sample.two_pages) 1
              (Sample.current_proc (Sample.after Sample.two_pages)))
    as (st1 & st2 & parent' & Hfork & Hback & Hcur1 & Hcur & Hptbr & Hq
        & Hprocs & Hcounts & _).
  - vm_compute. constructor.
  - unfold tlb_ok. evaluate.
  - evaluate.
  - apply wf_outerb_sound. evaluate.
  - apply frames_in_rangeb_sound. evaluate.
  - apply zeroed_null.
  - exists st1, st2.
    split; [exact Hfork |]. split; [exact Hback |]. split; [exact Hcur |].
    split; [exact Hptbr |]. split; [| split; [exact Hprocs | exact Hcounts]].
    rewrite Hq, Hcur1. vm_compute. reflexivity.
Defined.

